(* ===== verification/_CoqProject ===== *)
-Q . S2P
Prelude.v
Models.v
Text.v
Fixtures.v
Paginator.v
Feed.v
Forms.v
Views.v
Urls.v
FollowGraph.v
Site.v
Keys.v
Interleave.v
SelfFollow.v
Admin.v
Scenarios.v
