(* ===== verification/Prelude.v ===== *)
(** * Yatube (the [posts] app of hw05_final): a verification development

    ** The program

    A Django blog.  [src/yatube/posts/models.py] declares four models:
    [Group] (title, unique slug, description), [Post] (text, [pub_date]
    set on insert, author, optional group, optional image; newest first),
    [Comment] (post, author, created, text) and [Follow] (user, author,
    unique together), with [CASCADE] and [SET_NULL] delete rules.
    [src/yatube/posts/views.py] serves ten pages: the index, a group's
    page, a profile, a post, post creation and edition, commenting, the
    follow feed, follow and unfollow.  The views read and write the
    tables through the ORM, paginate every list with Django's [Paginator]
    at [settings.PAR_PAGE] posts, guard the write pages with
    [@login_required] and the edit page with an author check, and fetch
    rows with [get_object_or_404].  [src/yatube/posts/admin.py]
    registers the four models with the admin site ([PostAdmin] with a
    [list_display], a text search, an editable group and an empty-value
    text).  [src/yatube/posts/tests/] exercises the pages on small
    fixtures.

    ** The development, file by file

    - [Prelude] (this file): the ORM's [get]/[exists]/[count], the
      newest-first ordering [order_desc] on a key and its theory (sorted,
      a permutation, unique when the keys are distinct, commutes with
      filtering and with updates that keep the key, a new newest row
      comes first), list lemmas shared by the
      components, the [yatube] hint database and the [by_eval] tactic.
    - [Models]: the rows of [models.py] as records, the database [DB]
      (one list per table, primary-key sequences, the clock read by
      [auto_now_add]), the inserts [create_*] with their foreign-key and
      unique checks ([IntegrityError] otherwise), the update [save_post],
      [get_or_create] and [filter().delete()] on follows, the [on_delete]
      rules ([delete_post], [delete_group], and [delete_user] from the
      cascades of [Post.author], [Comment.post]/[Comment.author] and
      [Follow.user]/[Follow.author]), the admin's
      change forms ([admin_change_post], [admin_change_group],
      [admin_change_comment], [admin_change_follow]), and the
      invariant [wf] with its preservation by every write.
    - [Text]: [__str__] of the models, with [Post.__str__] slicing
      fifteen code points of the UTF-8 text through a strict UTF-8
      codec ([encode], [decode]), and the [verbose_name]/[help_text]
      metadata of the fields.
    - [Fixtures]: the [setUpClass] databases of the test classes.
    - [Paginator]: Python's [int()] on the [?page=] string and [str()]
      of an integer, Django's [Paginator] ([num_pages], [validate_number],
      [page], [get_page], [page_range]),
      with the abstract page [page_slice]/[requested_page] it refines.
    - [Feed]: the query sets behind the pages ([all_posts],
      [group_posts_qs], [author_posts_qs], the follow join
      [following_posts_qs], comments and counters).
    - [Forms]: [forms.py] is not in the sources; [FormBackend] is the
      interface the views use ([clean_post], [clean_comment] and the law
      that a cleaned group exists), [django_forms] the instance modelled
      from the spec and tests with Django's field defaults, and the form
      fields [PostForm] builds from the model fields.
    - [Views]: requests, responses, the two guards, the ten views of
      [views.py] over any [FormBackend], the urlconf [resolve]/[handle],
      and the site as a step relation ([step], [reachable]).
    - [Urls]: the urlconf by path ([urls.py] is not among the sources):
      the ten patterns in order with Django's [slug], [str] and [int]
      converters ([resolve_path]), [reverse], a GET of a path
      ([serve]), and the [next] parameter of the login redirect quoted
      with [urlencode] and read back with [unquote_plus] ([login_next]).
    - [FollowGraph]: the abstract follow graph (a set of edges, follow
      adds one unless it is a self-follow, unfollow removes it) and the
      simulation of any sequence of follow requests through [handle].
    - [Site]: a typing of the responses (template and context agree,
      page objects in range, redirects to public pages or to the login
      page), progress of the step relation, the error path of a post
      form that does not validate, and a comment followed by the page it
      redirects to.
    - [Keys]: the primary-key sequences over runs of [step] counted
      with stdpp's [nsteps].
    - [Interleave]: what each write view writes and reads (frame
      lemmas) and the commutation of a follow request with a new post.
    - [SelfFollow]: the invariant that no user follows themself, over
      the steps of the app, and the admin's add form that breaks it.
    - [Admin]: the change lists of [admin.py] (rows of [list_display],
      [empty_value_display], the deterministic order), [PostAdmin]'s
      search on [text] as SQLite runs [icontains], its [list_filter] on
      [pub_date], its [list_editable] group, and the pages of
      [views.py] after the admin renames a group or deletes a user.
    - [Scenarios]: the test methods of [test_views.py], [test_forms.py],
      [test_urls.py] and [test_models.py] as booleans run on the
      fixtures, with the facts that every fixture builds and every
      replayed test passes on the model, except [test_cache_index_page]
      (no cache in [views.py]); the [on_delete] rules on a fixture.

    ** What is proved

    - Safety and invariant ([Views.reachable_answered]): in every state
      reachable by sign-ups, account deletions, the admin's writes
      (its add and change forms of the four models, the group of a post
      in the post list, deletes of posts, groups, comments and follow
      rows) and requests, a request is answered without a
      server error (no [MultipleObjectsReturned], no [IntegrityError], no
      paginator error) and leaves a database where keys and foreign keys
      hold, usernames, slugs and follow pairs are unique and timestamps
      are distinct.
    - Guards: anonymous requests to the [@login_required] pages are
      redirected to the login page with [next]; a non-author cannot edit.
    - Round trip ([Views.follow_unfollow_roundtrip]): following an
      author and unfollowing them gives back every table.
    - Functional behaviour of each write view: creating, editing,
      commenting (valid and invalid), following (one edge, idempotent),
      unfollowing (exactly the one row goes, a no-op when there is
      none).
    - Invariant ([SelfFollow.no_self_follow_reachable]): no user follows
      themself in any state reached without the admin's follow forms;
      the admin's add form can store a self-follow
      ([SelfFollow.admin_self_follow]), which [models.py] does not
      forbid.
    - Page specifications ([FollowGraph.list_pages_spec]): the group
      page and the profile are the requested page of the index
      restricted to the group's or the author's posts, with the profile's
      "following" button read off the follow graph.
    - Feeds: a new post heads the index, its author's and its group's
      pages; the follow feed is
      the index restricted to followed authors, each post once, and a
      followed author's new post heads it.
    - Pagination: [get_page] never raises, refines the abstract page,
      clamps out-of-range numbers to the last page, and the page links
      a list prints ([Views.pages_partition]: [str()] of each number of
      [page_range], read back by [int()]) give pages that partition the
      list.
    - Deletions ([Models.delete_user_cascade],
      [Models.delete_group_set_null]): the [CASCADE] rules remove exactly
      the rows that refer to a deleted user, [SET_NULL] keeps the posts
      of a deleted group without it, and both keep [wf].
    - Refinement ([FollowGraph.follow_graph_refinement],
      [FollowGraph.feed_follows_graph]): the pairs of the follows table
      are the edges of the abstract graph after any sequence of follow
      and unfollow requests, and the follow feed is the index filtered by
      that graph.
    - Typing ([Site.handle_typed]): every response is well-typed.
    - Liveness ([Site.follow_then_publish]): from every reachable state
      a follow request and a post form from the author, two requests
      through [handle], put the new post at the head of the follower's
      feed.
    - Errors ([Site.invalid_post_form_rerenders],
      [Site.missing_rows_not_found]): a blank text, an unknown group or a
      non-image file stores nothing and re-renders the form; a missing
      slug, username or post key is a 404 that changes nothing.
    - Profile counters ([FollowGraph.profile_counters_graph]): the
      follower and following counts are the in- and out-degree of the
      user in the follow graph.
    - Admin ([Admin.admin_posts_order], [Admin.post_changelist_rows],
      [Admin.post_changelist_search_spec]): the post change list is the
      one listing by [-pub_date] then [-pk] (the index's order when no
      two posts tie, not when they do: [Admin.tie_orders]), renders
      without [DoesNotExist] the cells of [list_display] (the key as
      stdpp's [pretty] prints it, ["-пусто-"] for a post without group),
      and the date filter and search keep exactly the posts in the range
      whose text contains every word of the query.
    - Text ([Text.post_str_prefix], [Text.utf8_codec_bijection]):
      [Post.__str__] is valid UTF-8, a prefix of the text, its first
      fifteen code points; the codec is a bijection between scalar
      values and the byte strings it accepts.
    - Admin edits ([Admin.admin_set_group_index],
      [Admin.admin_rename_group], [Admin.delete_user_pages],
      [Feed.delete_post_feeds]): a renamed group's page moves to the new
      slug with the same posts and the old slug is a 404; a deleted
      user's posts leave the index, the group pages and the other
      users' feeds, and their profile is a 404; a post whose group is changed keeps
      its place on the index and moves to the new group's page; a
      deleted post leaves every list, the others keep their order.
    - URLs ([Urls.serve_reverse], [Urls.login_redirect_next]): every
      link the app prints resolves to its own route and view; the login
      redirect's [next] reads back as the page asked for, whatever bytes
      a username holds.
    - Bounds ([Keys.keys_bounded]): after [n] steps every primary key is
      at most [n] and at most [n] keys were handed out, so a 32-bit
      [AutoField] does not overflow before [2 ^ 31 - 1] steps.
    - Ordering ([Interleave.follow_post_commute]): a follow or unfollow
      request and a new post leave the same database in either order.
    - Composition ([Site.comment_then_detail]): after a valid comment,
      the post page the user is sent to lists it last.
    - Replay: 32 test methods pass on the model by evaluation, those of
      [test_urls.py] on the paths they request; the cache test evaluates
      to false.

    ** Bounds and modelling choices

    Identifiers and timestamps are [nat] (Python integers do not wrap;
    the ORM's sequences only grow); the database's integers do have a
    width, and [Keys.keys_bounded] shows a key is never above the number
    of steps, which keeps a 32-bit [AutoField] in range for [2 ^ 31 - 1]
    steps.  The clock is abstract: it advances
    at every insert, so two rows never share a [pub_date].  Real clocks
    may tie; the index then has no tie-break ([Meta.ordering] is
    [-pub_date] only) and the model keeps the table's order, as SQLite's
    sort does, while the admin's [-pk] decides ([Admin.tie_orders]).
    Page numbers are [Z] (the query string may hold a negative number).
    [num_pages] uses integer ceiling division where Django uses
    [math.ceil] on a float quotient: they agree below 2^53 rows.
    [nat_digits] runs on fuel [n + 1], enough since each step divides by
    ten; any larger fuel gives the same digits, those of stdpp's
    [pretty] ([Admin.int_repr_pretty]).  The database is SQLite,
    Django's default ([settings.py] is not among the sources): [LIKE]
    folds ASCII case only.  Strings are the UTF-8 bytes of Python's [str]; [int()] and
    [strip()] are modelled on ASCII, slicing on code points ([Z] below
    [0x110000], surrogates excluded).

    ** Not modelled

    Templates and rendering (the context is returned, not HTML), media
    storage (an upload is its name and whether it is an image), the page
    cache of the spec (no view of [views.py] is cached), the auth app
    beyond sign-up, account deletion, the session lookup and the
    reading of [next], the query string of a request beyond its
    [page] parameter (so the login redirect's [next] is the path, where
    Django's [get_full_path()] also keeps [?page=]), the project's
    other URL includes ([admin/],
    [auth/], [about/]) and the decoding of request paths, and in the
    admin: the validation of required fields by its forms (every write
    the ORM accepts is an admin step), the calendar
    behind [list_filter]'s choices (the filter is modelled by the
    bounds it puts in the query), quoted phrases in a search and the
    pagination of the change lists.  The Django version is not among
    the sources; the change list's page parameter changed meaning
    between versions, one more reason it is left out.

    Nothing else of [views.py], [models.py] and [admin.py] is left out:
    the lines the map does not name are imports. *)

From stdpp Require Import base list strings sorting sets gmap.
From Stdlib Require Import Lia.

Declare Scope yatube_scope.
Delimit Scope yatube_scope with yt.

Create HintDb yatube.

(** ** The errors the ORM raises

    [DoesNotExist] and [MultipleObjectsReturned] come from
    [QuerySet.get]; [IntegrityError] from the database when a write breaks
    a foreign key, a [unique=True] field or a [UniqueConstraint]. *)

Inductive OrmError := DoesNotExist | MultipleObjectsReturned | IntegrityError.

#[export] Instance OrmError_eq_dec : EqDecision OrmError.
Proof. solve_decision. Defined.

(** Results of ORM calls, with a bind that propagates the exception. *)
Notation "'let!' x := m 'in' k" :=
  (match m with inl x => k | inr e => inr e end)
  (at level 10, x pattern, m at level 100, k at level 200) : yatube_scope.

(** [qs_get P rows] is [Model.objects.get(<lookup P>)]: the filtered
    query set must hold exactly one row. *)
Definition qs_get {A} (P : A → Prop) `{∀ x, Decision (P x)} (rows : list A)
    : A + OrmError :=
  match filter P rows with
  | [] => inr DoesNotExist
  | [x] => inl x
  | _ :: _ :: _ => inr MultipleObjectsReturned
  end.

(** [QuerySet.exists()] and [QuerySet.count()] *)
Definition qs_exists {A} (P : A → Prop) `{∀ x, Decision (P x)} (rows : list A) : bool :=
  bool_decide (filter P rows ≠ []).

Definition qs_count {A} (P : A → Prop) `{∀ x, Decision (P x)} (rows : list A) : nat :=
  length (filter P rows).

(** ** Ordering by a key, newest first ([Meta.ordering = ["-pub_date"]]) *)

Definition newer {A} (k : A → nat) (a b : A) : Prop := k b ≤ k a.

#[export] Instance newer_dec {A} (k : A → nat) : RelDecision (newer k).
Proof. intros a b. unfold newer. apply _. Defined.

Definition order_desc {A} (k : A → nat) (l : list A) : list A :=
  merge_sort (newer k) l.

(** ** Keys that identify rows *)

Definition keys_unique {A} (k : A → nat) (l : list A) : Prop := NoDup (k <$> l).

(** Rows with the same value in a unique column are the same row. *)
Lemma NoDup_fmap_inj {A B} (k : A → B) (l : list A) x y :
  NoDup (k <$> l) → x ∈ l → y ∈ l → k x = k y → x = y.
Proof.
  induction l as [|z l IH]; simpl; intros Hnd Hx Hy Hk.
  - set_solver.
  - apply NoDup_cons in Hnd as [Hz Hnd].
    apply elem_of_cons in Hx as [->|Hx], Hy as [->|Hy]; auto.
    + destruct Hz. rewrite Hk. by apply list_elem_of_fmap_2.
    + destruct Hz. rewrite <-Hk. by apply list_elem_of_fmap_2.
Qed.

Section keys.
Context {A : Type} (k : A → nat).

Lemma keys_unique_inj (l : list A) x y :
  keys_unique k l → x ∈ l → y ∈ l → k x = k y → x = y.
Proof. apply NoDup_fmap_inj. Qed.

Lemma keys_unique_perm (l l' : list A) :
  l ≡ₚ l' → keys_unique k l → keys_unique k l'.
Proof. unfold keys_unique. intros Hp. by rewrite Hp. Qed.

Lemma keys_unique_filter (P : A → Prop) `{∀ x, Decision (P x)} (l : list A) :
  keys_unique k l → keys_unique k (filter P l).
Proof.
  unfold keys_unique. intros Hnd.
  apply NoDup_fmap_2_strong; [|apply NoDup_filter, (NoDup_fmap_1 k), Hnd].
  intros x y Hx Hy. apply list_elem_of_filter in Hx as [_ Hx], Hy as [_ Hy].
  by apply (keys_unique_inj l).
Qed.

Lemma keys_unique_snoc (l : list A) x :
  keys_unique k l → k x ∉ k <$> l → keys_unique k (l ++ [x]).
Proof.
  unfold keys_unique. intros Hnd Hx. rewrite fmap_app. simpl.
  apply NoDup_app. split_and!; [done| |apply NoDup_singleton].
  intros y Hy ->%list_elem_of_singleton. done.
Qed.

(** A fresh key: one that is above every key in the table. *)
Lemma fresh_key_not_in (l : list A) n :
  Forall (λ x, k x < n) l → n ∉ k <$> l.
Proof.
  rewrite Forall_forall. intros Hlt Hin.
  apply list_elem_of_fmap in Hin as (x & Hx & Hin). specialize (Hlt x Hin). lia.
Qed.

Lemma order_desc_perm (l : list A) : order_desc k l ≡ₚ l.
Proof. apply merge_sort_Permutation. Qed.

#[local] Instance newer_total : Total (newer k).
Proof. intros a b. unfold newer. lia. Qed.
#[local] Instance newer_trans : Transitive (newer k).
Proof. intros a b c. unfold newer. lia. Qed.

Lemma order_desc_sorted (l : list A) : StronglySorted (newer k) (order_desc k l).
Proof. unfold order_desc. apply StronglySorted_merge_sort; typeclasses eauto. Qed.

Lemma order_desc_elem_of (l : list A) x : x ∈ order_desc k l ↔ x ∈ l.
Proof. by rewrite order_desc_perm. Qed.

(** With distinct keys, a list sorted newest-first is determined by its
    elements: the database's ordering does not depend on the sort. *)
Lemma sorted_desc_unique (l1 l2 : list A) :
  keys_unique k l1 → l1 ≡ₚ l2 →
  StronglySorted (newer k) l1 → StronglySorted (newer k) l2 → l1 = l2.
Proof.
  intros Hu Hp H1 H2. apply (StronglySorted_unique_strong (newer k)); [|done..].
  intros x1 x2 Hx1 Hx2. unfold newer. intros ??.
  apply (keys_unique_inj l1); [done..| |lia]. by rewrite Hp.
Qed.

(** A list sorted by an order that can only tie rows with the same key
    is sorted strictly once the keys are distinct. *)
Lemma StronglySorted_strict (R R' : relation A) (l : list A) :
  (∀ x y, R x y → k x ≠ k y → R' x y) → keys_unique k l → StronglySorted R l → StronglySorted R' l.
Proof.
  intros HR Hu Hs. induction Hs as [|x l Hs IH Hx]; constructor.
  - apply IH. unfold keys_unique in Hu. rewrite fmap_cons, NoDup_cons in Hu. apply Hu.
  - unfold keys_unique in Hu. rewrite fmap_cons, NoDup_cons in Hu. destruct Hu as [Hn _].
    rewrite Forall_forall in Hx |- *. intros y Hy. apply HR; [by apply Hx|].
    intros Hk. apply Hn. rewrite Hk. by apply list_elem_of_fmap_2.
Qed.

Lemma order_desc_proper (l l' : list A) :
  keys_unique k l → l ≡ₚ l' → order_desc k l = order_desc k l'.
Proof.
  intros Hu Hp. apply sorted_desc_unique; [|by rewrite !order_desc_perm|
    apply order_desc_sorted..].
  eapply keys_unique_perm; [|done]. by rewrite order_desc_perm.
Qed.

Lemma StronglySorted_weaken (R R' : relation A) (l : list A) :
  (∀ x y, R x y → R' x y) → StronglySorted R l → StronglySorted R' l.
Proof.
  intros HR. induction 1; constructor; [done|]. by eapply Forall_impl; [|intros ??; apply HR].
Qed.

Lemma StronglySorted_filter (R : relation A) (P : A → Prop)
    `{∀ x, Decision (P x)} (l : list A) :
  StronglySorted R l → StronglySorted R (filter P l).
Proof.
  induction 1 as [|x l _ IH Hx]; [constructor|].
  rewrite filter_cons. case_decide; [|done]. constructor; [done|].
  rewrite Forall_forall in Hx |- *. intros y [_ Hy]%list_elem_of_filter; auto.
Qed.

(** Filtering commutes with the ordering (the SQL [WHERE] and
    [ORDER BY] clauses can be applied in either order). *)
Lemma order_desc_filter (P : A → Prop) `{∀ x, Decision (P x)} (l : list A) :
  keys_unique k l → filter P (order_desc k l) = order_desc k (filter P l).
Proof.
  intros Hu. apply sorted_desc_unique.
  - apply keys_unique_filter. eapply keys_unique_perm; [|done]. by rewrite order_desc_perm.
  - by rewrite !order_desc_perm.
  - apply StronglySorted_filter, order_desc_sorted.
  - apply order_desc_sorted.
Qed.

Lemma StronglySorted_fmap_keep (f : A → A) (l : list A) :
  (∀ x, x ∈ l → k (f x) = k x) → StronglySorted (newer k) l → StronglySorted (newer k) (f <$> l).
Proof.
  intros Hf Hs. induction Hs as [|x l _ IH Hx]; [constructor|].
  rewrite fmap_cons. constructor; [apply IH; intros y Hy; apply Hf; by right|].
  apply Forall_fmap, Forall_forall. intros y Hy. rewrite Forall_forall in Hx.
  specialize (Hx y Hy). unfold newer in *. simpl.
  rewrite (Hf x) by (by left). by rewrite (Hf y) by (by right).
Qed.

(** An update that keeps the ordering key of every row keeps the order:
    the rows stay where they were. *)
Lemma order_desc_fmap (f : A → A) (l : list A) :
  keys_unique k l → (∀ x, x ∈ l → k (f x) = k x) →
  order_desc k (f <$> l) = f <$> order_desc k l.
Proof.
  intros Hu Hf. assert (Hf' : ∀ x, x ∈ order_desc k l → k (f x) = k x)
    by (intros x; rewrite order_desc_elem_of; apply Hf).
  symmetry. apply sorted_desc_unique.
  - unfold keys_unique. rewrite <-list_fmap_compose.
    rewrite (list_fmap_ext _ k) by (intros i x Hi; apply Hf', (list_elem_of_lookup_2 _ i); done).
    eapply keys_unique_perm; [|done]. by rewrite order_desc_perm.
  - by rewrite order_desc_perm, order_desc_perm.
  - by apply StronglySorted_fmap_keep, order_desc_sorted.
  - apply order_desc_sorted.
Qed.

(** A row whose key is above every other key comes first. *)
Lemma order_desc_snoc_newest (l : list A) x :
  keys_unique k l → Forall (λ y, k y < k x) l →
  order_desc k (l ++ [x]) = x :: order_desc k l.
Proof.
  intros Hu Hlt. assert (Hu' : keys_unique k (l ++ [x])).
  { apply keys_unique_snoc; [done|]. intros (y & Hy & Hin)%list_elem_of_fmap.
    rewrite Forall_forall in Hlt. specialize (Hlt y Hin). lia. }
  apply sorted_desc_unique; [| |apply order_desc_sorted|].
  - eapply keys_unique_perm; [|exact Hu']. by rewrite order_desc_perm.
  - rewrite order_desc_perm, order_desc_perm. by rewrite Permutation_app_comm.
  - constructor; [apply order_desc_sorted|].
    rewrite Forall_forall in Hlt |- *. intros y Hy.
    rewrite order_desc_elem_of in Hy. unfold newer. specialize (Hlt y Hy). lia.
Qed.
End keys.

(** ** Appending a row to a table *)

Lemma Forall_snoc {A} (P : A → Prop) (l : list A) x :
  Forall P (l ++ [x]) ↔ Forall P l ∧ P x.
Proof. rewrite Forall_app, Forall_singleton. done. Qed.

Lemma elem_of_fmap_snoc_l {A B} (f : A → B) (l : list A) x y :
  y ∈ f <$> l → y ∈ f <$> (l ++ [x]).
Proof. rewrite fmap_app, elem_of_app. auto. Qed.

Lemma NoDup_fmap_snoc {A B} (f : A → B) (l : list A) x :
  NoDup (f <$> l) → f x ∉ f <$> l → NoDup (f <$> (l ++ [x])).
Proof.
  intros Hnd Hx. rewrite fmap_app. apply NoDup_app. split_and!; [done| |apply NoDup_singleton].
  intros y Hy ->%list_elem_of_singleton. done.
Qed.

(** A fresh primary key keeps the keys distinct and below the bumped
    sequence. *)
Lemma keys_fresh_snoc {A} (k : A → nat) (l : list A) x n :
  keys_unique k l → Forall (λ y, k y < n) l → k x = n →
  keys_unique k (l ++ [x]) ∧ Forall (λ y, k y < S n) (l ++ [x]).
Proof.
  intros Hu Hlt Hx. split.
  - apply keys_unique_snoc; [done|]. rewrite Hx. by apply fresh_key_not_in.
  - apply Forall_snoc. split; [|lia]. eapply Forall_impl; [done|]. simpl. lia.
Qed.

(** ** Removing rows and rewriting rows in place *)

Lemma Forall_filter_sub {A} (P Q : A → Prop) `{∀ x, Decision (Q x)} (l : list A) :
  Forall P l → Forall P (filter Q l).
Proof. rewrite !Forall_forall. intros HP x [_ Hx]%list_elem_of_filter. auto. Qed.

Lemma NoDup_fmap_filter {A B} (f : A → B) (Q : A → Prop) `{∀ x, Decision (Q x)} (l : list A) :
  NoDup (f <$> l) → NoDup (f <$> filter Q l).
Proof.
  induction l as [|x l IH]; [done|]. rewrite filter_cons. simpl.
  intros [Hx Hnd]%NoDup_cons. case_decide; simpl; [|auto].
  apply NoDup_cons. split; [|auto].
  intros (y & Hy & [_ Hin]%list_elem_of_filter)%list_elem_of_fmap.
  apply Hx. rewrite Hy. by apply list_elem_of_fmap_2.
Qed.

Lemma elem_of_fmap_filter {A B} (f : A → B) (Q : A → Prop) `{∀ x, Decision (Q x)} (l : list A) x :
  x ∈ l → Q x → f x ∈ f <$> filter Q l.
Proof. intros. apply list_elem_of_fmap_2, list_elem_of_filter. done. Qed.

(** A key survives a [DELETE ... WHERE Q] when every row carrying it is
    kept. *)
Lemma key_in_filter {A B} (k : A → B) (Q : A → Prop) `{∀ x, Decision (Q x)} (l : list A) v :
  v ∈ k <$> l → (∀ x, x ∈ l → k x = v → Q x) → v ∈ k <$> filter Q l.
Proof.
  intros (x & -> & Hx)%list_elem_of_fmap HQ. apply elem_of_fmap_filter; auto.
Qed.

(** A pointwise fact on the kept rows, from the fact on all rows. *)
Lemma Forall_filter_impl {A} (P P' : A → Prop) (Q : A → Prop) `{∀ x, Decision (Q x)} (l : list A) :
  (∀ x, x ∈ l → Q x → P x → P' x) → Forall P l → Forall P' (filter Q l).
Proof.
  rewrite !Forall_forall. intros HP Hl x [Hq Hx]%list_elem_of_filter. auto.
Qed.

(** Rewriting rows without touching a column keeps that column. *)
Lemma fmap_keep_column {A B} (k : A → B) (f : A → A) (l : list A) :
  (∀ x, k (f x) = k x) → k <$> (f <$> l) = k <$> l.
Proof. intros Hf. rewrite <-list_fmap_compose. apply list_fmap_ext. intros. apply Hf. Qed.

(** [UPDATE ... WHERE id = pk]: the row with the key of [p] becomes [p]. *)
Definition replace_row {A} (key : A → nat) (p : A) (l : list A) : list A :=
  (λ q, if decide (key q = key p) then p else q) <$> l.

Lemma fmap_replace_row {A B} (key : A → nat) (f : A → B) (p : A) (l : list A) :
  (∀ x, x ∈ l → key x = key p → f p = f x) →
  f <$> replace_row key p l = f <$> l.
Proof.
  intros Hf. unfold replace_row. rewrite <-list_fmap_compose.
  apply list_fmap_ext. intros i x Hi. simpl. case_decide; [|done].
  apply Hf; [|done]. by eapply list_elem_of_lookup_2.
Qed.

Lemma Forall_replace_row {A} (P : A → Prop) (key : A → nat) (p : A) (l : list A) :
  P p → Forall P l → Forall P (replace_row key p l).
Proof.
  intros Hp Hl. unfold replace_row. apply Forall_fmap.
  eapply Forall_impl; [done|]. intros x Hx. simpl. by case_decide.
Qed.

Lemma filter_True {A} (l : list A) : filter (λ _, True) l = l.
Proof. induction l as [|x l IH]; [done|]. rewrite filter_cons, decide_True by done. by f_equal. Qed.

(** A filter that every element passes keeps the list. *)
Lemma filter_all {A} (P : A → Prop) `{∀ x, Decision (P x)} (l : list A) : Forall P l → filter P l = l.
Proof. induction 1 as [|x l Hx _ IH]; [done|]. by rewrite filter_cons_True, IH. Qed.

(** With distinct keys, [replace_row] takes the one row of the key out
    and puts the new one in. *)
Lemma replace_row_absent {A} (key : A → nat) (p : A) (l : list A) :
  key p ∉ key <$> l → replace_row key p l = l.
Proof.
  intros Hn. unfold replace_row. rewrite <-(list_fmap_id l) at 2. apply list_fmap_ext.
  intros i x Hi. case_decide as Hk; [|done]. destruct Hn. rewrite <-Hk.
  by apply list_elem_of_fmap_2, (list_elem_of_lookup_2 _ i).
Qed.

Lemma replace_row_perm {A} (key : A → nat) (p q : A) (l : list A) :
  keys_unique key l → q ∈ l → key q = key p →
  replace_row key p l ≡ₚ p :: filter (λ x, key x ≠ key p) l.
Proof.
  induction l as [|x l IH]; [by intros _ ?%elem_of_nil|].
  unfold keys_unique. rewrite fmap_cons, NoDup_cons. intros [Hx Hu] Hq Hk.
  unfold replace_row in *. rewrite fmap_cons, filter_cons. case_decide as Hxk.
  - rewrite decide_False by tauto. rewrite Hxk in Hx.
    fold (replace_row key p l). rewrite replace_row_absent by done.
    assert (Hf : filter (λ x, key x ≠ key p) l = l).
    { clear -Hx. induction l as [|y l IHl]; [done|].
      rewrite fmap_cons, not_elem_of_cons in Hx. destruct Hx as [Hy Hl].
      rewrite filter_cons_True by congruence. by rewrite IHl. }
    by rewrite Hf.
  - rewrite decide_True by done. apply elem_of_cons in Hq as [->|Hq]; [done|].
    rewrite IH by done. apply Permutation_swap.
Qed.

Lemma NoDup_replace_row {A B} (key : A → nat) (f : A → B) (p q : A) (l : list A) :
  keys_unique key l → q ∈ l → key q = key p → NoDup (f <$> l) →
  f p ∉ f <$> filter (λ x, key x ≠ key p) l → NoDup (f <$> replace_row key p l).
Proof.
  intros Hu Hq Hk Hnd Hp. rewrite (replace_row_perm key p q) by done. rewrite fmap_cons.
  apply NoDup_cons. split; [done|]. by apply NoDup_fmap_filter.
Qed.

Lemma replace_row_keys {A} (key : A → nat) (p q : A) (l : list A) :
  q ∈ l → key q = key p → key <$> replace_row key p l = key <$> l.
Proof. intros _ _. apply fmap_replace_row. by intros x _ ->. Qed.


(** ** Lookups by a unique key *)

Lemma filter_key_nil {A B} `{EqDecision B} (k : A → B) (l : list A) v :
  v ∉ k <$> l → filter (λ x, k x = v) l = [].
Proof.
  induction l as [|x l IH]; [done|]. rewrite filter_cons. simpl.
  intros Hv. apply not_elem_of_cons in Hv as [Hx Hv].
  case_decide; [congruence|auto].
Qed.

Lemma filter_key_nonempty {A B} `{EqDecision B} (k : A → B) (l : list A) v :
  filter (λ x, k x = v) l ≠ [] ↔ v ∈ k <$> l.
Proof.
  split.
  - intros Hne. destruct (filter _ l) as [|x r] eqn:E; [done|].
    assert (Hx : x ∈ filter (λ x, k x = v) l) by (rewrite E; left).
    apply list_elem_of_filter in Hx as [<- Hx]. by apply list_elem_of_fmap_2.
  - intros (x & -> & Hx)%list_elem_of_fmap Hnil.
    assert (Hx' : x ∈ filter (λ y, k y = k x) l) by (by apply list_elem_of_filter).
    rewrite Hnil in Hx'. set_solver.
Qed.

Lemma filter_key_length {A B} `{EqDecision B} (k : A → B) (l : list A) v :
  NoDup (k <$> l) →
  length (filter (λ x, k x = v) l) = if bool_decide (v ∈ k <$> l) then 1 else 0.
Proof.
  induction l as [|x l IH]; [done|]. rewrite filter_cons, fmap_cons.
  intros [Hx Hnd]%NoDup_cons. destruct (decide (k x = v)) as [<-|Hkx].
  - rewrite length_cons, filter_key_nil by done.
    rewrite bool_decide_true by set_solver. done.
  - rewrite IH by done.
    repeat case_bool_decide; done || set_solver.
Qed.

(** [get(key=v)] on a unique key: the row with that key, or
    [DoesNotExist]; never [MultipleObjectsReturned]. *)
Lemma qs_get_key {A B} `{EqDecision B} (k : A → B) (l : list A) v :
  NoDup (k <$> l) →
  (qs_get (λ x, k x = v) l = inr DoesNotExist ∧ v ∉ k <$> l) ∨
  (∃ x, qs_get (λ x, k x = v) l = inl x ∧ x ∈ l ∧ k x = v).
Proof.
  intros Hnd. pose proof (filter_key_length k l v Hnd) as Hlen. unfold qs_get.
  destruct (filter _ l) as [|x [|y r]] eqn:E; simpl in Hlen.
  - left. split; [done|]. intros Hv. rewrite bool_decide_true in Hlen by done. done.
  - right. exists x. split; [done|].
    assert (Hx : x ∈ filter (λ x, k x = v) l) by (rewrite E; left).
    by apply list_elem_of_filter in Hx as [? ?].
  - case_bool_decide; lia.
Qed.

(** On a unique key, the first row with the key of a row is that row. *)
Lemma head_filter_key {A B} `{EqDecision B} (k : A → B) (l : list A) x :
  NoDup (k <$> l) → x ∈ l → head (filter (λ y, k y = k x) l) = Some x.
Proof.
  induction l as [|y l IH]; [set_solver|]. rewrite fmap_cons, NoDup_cons.
  intros [Hy Hnd] [->|Hx]%elem_of_cons; rewrite filter_cons.
  - by rewrite decide_True.
  - case_decide as E; [|by apply IH]. destruct Hy. rewrite E. by apply list_elem_of_fmap_2.
Qed.

Lemma qs_get_inl {A} (P : A → Prop) `{∀ x, Decision (P x)} (l : list A) x :
  qs_get P l = inl x → x ∈ l ∧ P x.
Proof.
  unfold qs_get. destruct (filter P l) as [|y [|z r]] eqn:E; intros; simplify_eq.
  assert (Hx : x ∈ filter P l) by (rewrite E; left).
  apply list_elem_of_filter in Hx. tauto.
Qed.

#[export] Hint Resolve elem_of_fmap_snoc_l Forall_filter_sub NoDup_fmap_filter : yatube.

#[export] Hint Resolve order_desc_sorted keys_unique_filter fresh_key_not_in : yatube.

(** ** Development tactics *)

(** Close a decidable goal on concrete data by evaluating its decision
    procedure. *)
Ltac by_eval := apply (bool_decide_unpack _); vm_compute; reflexivity.

(** Turn the decided tests of a goal into case splits and close the
    trivial branches. *)
Ltac yt_decide :=
  repeat first [ case_bool_decide | case_decide ]; simplify_eq/=; try done.
