(* ===== verification/Models.v ===== *)
(** * Models: the schema of [posts/models.py] and the ORM writes on it

    The four models [Group], [Post], [Comment], [Follow] and the
    [auth.User] they reference, one table per model, and the writes the
    app performs through the ORM: inserting a row with its auto fields,
    saving an edited post, [get_or_create] and [filter().delete()] on
    follows, and the [on_delete] rules of every foreign key.  The
    database enforces foreign keys and unique constraints: a write that
    would break one raises [IntegrityError]. *)

From stdpp Require Import base list strings sorting sets gmap.
From Stdlib Require Import Lia.
From S2P Require Import Prelude.

Open Scope yatube_scope.

Module Models.

(** ** Rows *)

(** [django.contrib.auth] user: the primary key and the unique username
    (the only fields the views read). *)
Record User := mkUser { user_id : nat; username : string }.

Record Group := mkGroup {
  group_id : nat;
  title : string;
  slug : string;          (** [SlugField(unique=True)] *)
  description : string }.

Record Post := mkPost {
  post_id : nat;
  text : string;
  pub_date : nat;         (** [auto_now_add=True]: the clock at insertion *)
  author : nat;           (** [ForeignKey(User, on_delete=CASCADE)] *)
  group : option nat;     (** [ForeignKey(Group, on_delete=SET_NULL, null=True)] *)
  image : string }.       (** [ImageField(blank=True)]: [""] is no image *)

Record Comment := mkComment {
  comment_id : nat;
  comment_post : nat;     (** [ForeignKey(Post, on_delete=CASCADE)] *)
  comment_author : nat;   (** [ForeignKey(User, on_delete=CASCADE)] *)
  created : nat;          (** [auto_now_add=True] *)
  comment_text : string }.

Record Follow := mkFollow {
  follow_id : nat;
  follow_user : nat;      (** [ForeignKey(User, on_delete=CASCADE)] *)
  follow_author : nat }.  (** [ForeignKey(User, on_delete=CASCADE)] *)

#[export] Instance User_eq_dec : EqDecision User.
Proof. solve_decision. Defined.
#[export] Instance Group_eq_dec : EqDecision Group.
Proof. solve_decision. Defined.
#[export] Instance Post_eq_dec : EqDecision Post.
Proof. solve_decision. Defined.
#[export] Instance Comment_eq_dec : EqDecision Comment.
Proof. solve_decision. Defined.
#[export] Instance Follow_eq_dec : EqDecision Follow.
Proof. solve_decision. Defined.

(** The pair a [UniqueConstraint(fields=["user", "author"])] is on. *)
Definition follow_pair (f : Follow) : nat * nat := (follow_user f, follow_author f).

(** ** The database

    One list per table in insertion order, the next value of each primary
    key sequence, and the server clock that [auto_now_add] reads.  The
    clock advances at every insertion, so two rows never share a
    timestamp. *)
Record DB := mkDB {
  users : list User;
  groups : list Group;
  posts : list Post;
  comments : list Comment;
  follows : list Follow;
  clock : nat;
  next_user : nat;
  next_group : nat;
  next_post : nat;
  next_comment : nat;
  next_follow : nat }.

Definition empty_db : DB := mkDB [] [] [] [] [] 1 1 1 1 1 1.

Definition set_users (db : DB) (us : list User) : DB :=
  mkDB us (groups db) (posts db) (comments db) (follows db)
       (clock db) (next_user db) (next_group db) (next_post db) (next_comment db) (next_follow db).
Definition set_groups (db : DB) (gs : list Group) : DB :=
  mkDB (users db) gs (posts db) (comments db) (follows db)
       (clock db) (next_user db) (next_group db) (next_post db) (next_comment db) (next_follow db).
Definition set_posts (db : DB) (ps : list Post) : DB :=
  mkDB (users db) (groups db) ps (comments db) (follows db)
       (clock db) (next_user db) (next_group db) (next_post db) (next_comment db) (next_follow db).
Definition set_comments (db : DB) (cs : list Comment) : DB :=
  mkDB (users db) (groups db) (posts db) cs (follows db)
       (clock db) (next_user db) (next_group db) (next_post db) (next_comment db) (next_follow db).
Definition set_follows (db : DB) (fs : list Follow) : DB :=
  mkDB (users db) (groups db) (posts db) (comments db) fs
       (clock db) (next_user db) (next_group db) (next_post db) (next_comment db) (next_follow db).

(** ** Foreign keys *)

Definition user_exists (db : DB) (u : nat) : Prop := u ∈ user_id <$> users db.
Definition group_exists (db : DB) (g : nat) : Prop := g ∈ group_id <$> groups db.
Definition post_exists (db : DB) (p : nat) : Prop := p ∈ post_id <$> posts db.

#[export] Instance user_exists_dec db u : Decision (user_exists db u).
Proof. unfold user_exists. apply _. Defined.
#[export] Instance group_exists_dec db g : Decision (group_exists db g).
Proof. unfold group_exists. apply _. Defined.
#[export] Instance post_exists_dec db p : Decision (post_exists db p).
Proof. unfold post_exists. apply _. Defined.

(** A nullable foreign key: [NULL] or an existing group. *)
Definition group_ref_ok (db : DB) (og : option nat) : Prop :=
  match og with Some g => group_exists db g | None => True end.

#[export] Instance group_ref_ok_dec db og : Decision (group_ref_ok db og).
Proof. destruct og; simpl; apply _. Defined.

(** ** Inserts: [Model.objects.create(...)] / [instance.save()] on a new row *)

Definition create_user (db : DB) (name : string) : (DB * User) + OrmError :=
  if decide (name ∈ username <$> users db) then inr IntegrityError else
  let u := mkUser (next_user db) name in
  inl (mkDB (users db ++ [u]) (groups db) (posts db) (comments db) (follows db)
            (clock db) (S (next_user db)) (next_group db) (next_post db)
            (next_comment db) (next_follow db), u).

Definition create_group (db : DB) (t s d : string) : (DB * Group) + OrmError :=
  if decide (s ∈ slug <$> groups db) then inr IntegrityError else
  let g := mkGroup (next_group db) t s d in
  inl (mkDB (users db) (groups db ++ [g]) (posts db) (comments db) (follows db)
            (clock db) (next_user db) (S (next_group db)) (next_post db)
            (next_comment db) (next_follow db), g).

Definition create_post (db : DB) (txt : string) (a : nat) (og : option nat) (img : string)
    : (DB * Post) + OrmError :=
  if decide (user_exists db a ∧ group_ref_ok db og) then
    let p := mkPost (next_post db) txt (clock db) a og img in
    inl (mkDB (users db) (groups db) (posts db ++ [p]) (comments db) (follows db)
              (S (clock db)) (next_user db) (next_group db) (S (next_post db))
              (next_comment db) (next_follow db), p)
  else inr IntegrityError.

Definition create_comment (db : DB) (pid a : nat) (txt : string)
    : (DB * Comment) + OrmError :=
  if decide (post_exists db pid ∧ user_exists db a) then
    let c := mkComment (next_comment db) pid a (clock db) txt in
    inl (mkDB (users db) (groups db) (posts db) (comments db ++ [c]) (follows db)
              (S (clock db)) (next_user db) (next_group db) (next_post db)
              (S (next_comment db)) (next_follow db), c)
  else inr IntegrityError.

Definition create_follow (db : DB) (u a : nat) : (DB * Follow) + OrmError :=
  if decide (user_exists db u ∧ user_exists db a ∧ (u, a) ∉ follow_pair <$> follows db) then
    let f := mkFollow (next_follow db) u a in
    inl (mkDB (users db) (groups db) (posts db) (comments db) (follows db ++ [f])
              (clock db) (next_user db) (next_group db) (next_post db)
              (next_comment db) (S (next_follow db)), f)
  else inr IntegrityError.

(** ** Updates: [instance.save()] on a row that has a primary key

    Django issues an [UPDATE ... WHERE id = pk]; when no row matched it
    falls back to an [INSERT] with that primary key.  [pub_date] is taken
    from the instance: [auto_now_add] only fires on the first insert. *)
Definition save_post (db : DB) (p : Post) : DB + OrmError :=
  if decide (user_exists db (author p) ∧ group_ref_ok db (group p)) then
    if decide (post_exists db (post_id p)) then
      inl (set_posts db (replace_row post_id p (posts db)))
    else inl (set_posts db (posts db ++ [p]))
  else inr IntegrityError.

(** ** [Follow.objects.get_or_create(user=u, author=a)]

    A [get] first; on [DoesNotExist] a [create].  The boolean is Django's
    [created] flag. *)
Definition follow_get_or_create (db : DB) (u a : nat) : (DB * Follow * bool) + OrmError :=
  match qs_get (λ f, follow_pair f = (u, a)) (follows db) with
  | inl f => inl (db, f, false)
  | inr DoesNotExist =>
      let! (db', f) := create_follow db u a in inl (db', f, true)
  | inr e => inr e
  end.

(** [Follow.objects.filter(user=u, author=a).delete()] *)
Definition follow_filter_delete (db : DB) (u a : nat) : DB :=
  set_follows db (filter (λ f, follow_pair f ≠ (u, a)) (follows db)).

(** ** Deletions and the [on_delete] rules *)

(** Deleting a post cascades to its comments ([Comment.post], CASCADE). *)
Definition delete_post (db : DB) (pid : nat) : DB :=
  set_comments (set_posts db (filter (λ p, post_id p ≠ pid) (posts db)))
               (filter (λ c, comment_post c ≠ pid) (comments db)).

(** Deleting a group nulls the group of its posts ([Post.group], SET_NULL). *)
Definition delete_group (db : DB) (gid : nat) : DB :=
  set_posts (set_groups db (filter (λ g, group_id g ≠ gid) (groups db)))
            ((λ p, if decide (group p = Some gid)
                   then mkPost (post_id p) (text p) (pub_date p) (author p) None (image p)
                   else p) <$> posts db).

(** [Post.author = ForeignKey(User, on_delete=models.CASCADE)]: the
    posts of a deleted user go. *)
Definition user_posts_cascade (db : DB) (uid : nat) : list Post :=
  filter (λ p, author p ≠ uid) (posts db).

(** [Comment.post] and [Comment.author], both [CASCADE]: the comments the
    user wrote go, and so do the comments on the user's posts. *)
Definition user_comments_cascade (db : DB) (uid : nat) : list Comment :=
  let gone := post_id <$> filter (λ p, author p = uid) (posts db) in
  filter (λ c, comment_author c ≠ uid ∧ comment_post c ∉ gone) (comments db).

(** [Follow.user] and [Follow.author], both [CASCADE]: every follow row
    from or to the user goes. *)
Definition user_follows_cascade (db : DB) (uid : nat) : list Follow :=
  filter (λ f, follow_user f ≠ uid ∧ follow_author f ≠ uid) (follows db).

Arguments user_posts_cascade _ _ /.
Arguments user_comments_cascade _ _ /.
Arguments user_follows_cascade _ _ /.

(** Deleting a user (the auth admin's [User.delete()]) collects the three
    cascades. *)
Definition delete_user (db : DB) (uid : nat) : DB :=
  mkDB (filter (λ u, user_id u ≠ uid) (users db)) (groups db)
       (user_posts_cascade db uid) (user_comments_cascade db uid) (user_follows_cascade db uid)
       (clock db) (next_user db) (next_group db) (next_post db) (next_comment db) (next_follow db).

(** The admin's delete of one comment or one follow row: nothing refers
    to either. *)
Definition delete_comment (db : DB) (cid : nat) : DB :=
  set_comments db (filter (λ c, comment_id c ≠ cid) (comments db)).

Definition delete_follow (db : DB) (fid : nat) : DB :=
  set_follows db (filter (λ f, follow_id f ≠ fid) (follows db)).

(** The admin's [list_editable = ("group",)] on [PostAdmin]: the row with
    another group, saved with [save()]. *)
Definition admin_set_group (db : DB) (p : Post) (og : option nat) : DB + OrmError :=
  save_post db (mkPost (post_id p) (text p) (pub_date p) (author p) og (image p)).

(** The admin's change form of a post ([PostAdmin]): every editable
    field is the form's; [pub_date] ([auto_now_add]) is not editable. *)
Definition admin_change_post (db : DB) (p : Post) (t : string) (a : nat) (og : option nat) (img : string)
    : DB + OrmError :=
  save_post db (mkPost (post_id p) t (pub_date p) a og img).

(** The change forms of [Group], [Comment] ([CommentAdmin]) and [Follow]
    ([FollowAdmin]): the row with the form's fields, saved by primary
    key.  A slug or a follow pair that another row has is rejected
    ([validate_unique], as the [UNIQUE] constraints would), and so is a
    key of a row that does not exist ([ModelChoiceField]). *)
Definition admin_change_group (db : DB) (g : Group) (t s d : string) : DB + OrmError :=
  if decide (s ∈ slug <$> filter (λ h, group_id h ≠ group_id g) (groups db)) then inr IntegrityError
  else inl (set_groups db (replace_row group_id (mkGroup (group_id g) t s d) (groups db))).

Definition admin_change_comment (db : DB) (c : Comment) (pid a : nat) (t : string) : DB + OrmError :=
  if decide (post_exists db pid ∧ user_exists db a)
  then inl (set_comments db (replace_row comment_id (mkComment (comment_id c) pid a (created c) t) (comments db)))
  else inr IntegrityError.

Definition admin_change_follow (db : DB) (f : Follow) (u a : nat) : DB + OrmError :=
  if decide (user_exists db u ∧ user_exists db a ∧
             (u, a) ∉ follow_pair <$> filter (λ x, follow_id x ≠ follow_id f) (follows db))
  then inl (set_follows db (replace_row follow_id (mkFollow (follow_id f) u a) (follows db)))
  else inr IntegrityError.

(** ** Well-formed databases

    What the schema guarantees of every state: primary keys are distinct
    and below their sequence, [username] and [slug] are unique, each
    follow pair is unique, every foreign key points at an existing row,
    and the timestamps of posts are distinct and in the past. *)
Record wf (db : DB) : Prop := {
  wf_user_keys : keys_unique user_id (users db);
  wf_user_fresh : Forall (λ u, user_id u < next_user db) (users db);
  wf_usernames : NoDup (username <$> users db);
  wf_group_keys : keys_unique group_id (groups db);
  wf_group_fresh : Forall (λ g, group_id g < next_group db) (groups db);
  wf_slugs : NoDup (slug <$> groups db);
  wf_post_keys : keys_unique post_id (posts db);
  wf_post_fresh : Forall (λ p, post_id p < next_post db) (posts db);
  wf_post_dates : keys_unique pub_date (posts db);
  wf_post_clock : Forall (λ p, pub_date p < clock db) (posts db);
  wf_post_refs : Forall (λ p, user_exists db (author p) ∧ group_ref_ok db (group p)) (posts db);
  wf_comment_keys : keys_unique comment_id (comments db);
  wf_comment_fresh : Forall (λ c, comment_id c < next_comment db) (comments db);
  wf_comment_refs : Forall (λ c, post_exists db (comment_post c) ∧
                                 user_exists db (comment_author c)) (comments db);
  wf_follow_keys : keys_unique follow_id (follows db);
  wf_follow_fresh : Forall (λ f, follow_id f < next_follow db) (follows db);
  wf_follow_pairs : NoDup (follow_pair <$> follows db);
  wf_follow_refs : Forall (λ f, user_exists db (follow_user f) ∧
                                user_exists db (follow_author f)) (follows db) }.

(** [wf] is decidable: a concrete database is checked by evaluation. *)
#[export] Instance wf_dec db : Decision (wf db).
Proof.
  destruct (decide (
    keys_unique user_id (users db) ∧ Forall (λ u, user_id u < next_user db) (users db) ∧
    NoDup (username <$> users db) ∧
    keys_unique group_id (groups db) ∧ Forall (λ g, group_id g < next_group db) (groups db) ∧
    NoDup (slug <$> groups db) ∧
    keys_unique post_id (posts db) ∧ Forall (λ p, post_id p < next_post db) (posts db) ∧
    keys_unique pub_date (posts db) ∧ Forall (λ p, pub_date p < clock db) (posts db) ∧
    Forall (λ p, user_exists db (author p) ∧ group_ref_ok db (group p)) (posts db) ∧
    keys_unique comment_id (comments db) ∧
    Forall (λ c, comment_id c < next_comment db) (comments db) ∧
    Forall (λ c, post_exists db (comment_post c) ∧ user_exists db (comment_author c)) (comments db) ∧
    keys_unique follow_id (follows db) ∧ Forall (λ f, follow_id f < next_follow db) (follows db) ∧
    NoDup (follow_pair <$> follows db) ∧
    Forall (λ f, user_exists db (follow_user f) ∧ user_exists db (follow_author f)) (follows db)))
    as [Hp|Hn];
  [left; destruct_and!; by constructor | right; intros []; apply Hn; split_and!; done].
Defined.

(** *** Preservation of [wf] by the writes *)

(** The pointwise facts of a [Forall] survive a change of database that
    keeps enough rows: the lemmas below close the foreign-key fields. *)
Lemma Forall_weaken {A} (P Q : A → Prop) (l : list A) :
  (∀ x, P x → Q x) → Forall P l → Forall Q l.
Proof. intros HPQ Hl. eapply Forall_impl; eauto. Qed.

Ltac fk_weaken :=
  match goal with
  | H : Forall _ ?l |- Forall _ ?l =>
      eapply Forall_weaken; [|exact H]; intros ??;
      solve [ unfold group_ref_ok, user_exists, group_exists, post_exists in *; simpl in *;
              repeat case_match; simplify_eq/=; destruct_and?; split_and?;
              eauto with yatube; lia ]
  end.

Ltac wf_close :=
  destruct_and?; try done;
  repeat match goal with
  | |- _ ∧ _ => split
  | |- Forall _ (_ ++ [_]) => apply Forall_snoc
  end;
  try done; simpl; try lia; try fk_weaken.

Lemma create_user_wf db name db' u :
  wf db → create_user db name = inl (db', u) → wf db'.
Proof.
  unfold create_user. intros [] Hc. case_decide; simplify_eq/=.
  destruct (keys_fresh_snoc user_id (users db) (mkUser (next_user db) name) (next_user db))
    as [??]; [done..|].
  constructor; simpl; wf_close. by apply NoDup_fmap_snoc.
Qed.

Lemma create_group_wf db t sl d db' g :
  wf db → create_group db t sl d = inl (db', g) → wf db'.
Proof.
  unfold create_group. intros [] Hc. case_decide; simplify_eq/=.
  destruct (keys_fresh_snoc group_id (groups db) (mkGroup (next_group db) t sl d) (next_group db))
    as [??]; [done..|].
  constructor; simpl; wf_close. by apply NoDup_fmap_snoc.
Qed.

Lemma create_post_wf db txt a og img db' p :
  wf db → create_post db txt a og img = inl (db', p) → wf db'.
Proof.
  unfold create_post. intros [] Hc. case_decide as Hok; simplify_eq/=.
  set (p := mkPost (next_post db) txt (clock db) a og img).
  destruct (keys_fresh_snoc post_id (posts db) p (next_post db)) as [??]; [done..|].
  destruct (keys_fresh_snoc pub_date (posts db) p (clock db)) as [??]; [done..|].
  constructor; simpl; wf_close.
Qed.

Lemma create_comment_wf db pid a txt db' c :
  wf db → create_comment db pid a txt = inl (db', c) → wf db'.
Proof.
  unfold create_comment. intros [] Hc. case_decide as Hok; simplify_eq/=.
  destruct (keys_fresh_snoc comment_id (comments db) (mkComment (next_comment db) pid a (clock db) txt)
    (next_comment db)) as [??]; [done..|].
  constructor; simpl; wf_close.
Qed.

Lemma create_follow_wf db u a db' f :
  wf db → create_follow db u a = inl (db', f) → wf db'.
Proof.
  unfold create_follow. intros [] Hc. case_decide as Hok; simplify_eq/=.
  destruct (keys_fresh_snoc follow_id (follows db) (mkFollow (next_follow db) u a)
    (next_follow db)) as [??]; [done..|].
  constructor; simpl; wf_close. by apply NoDup_fmap_snoc.
Qed.

Lemma follow_get_or_create_wf db u a db' f created :
  wf db → follow_get_or_create db u a = inl (db', f, created) → wf db'.
Proof.
  unfold follow_get_or_create. intros Hwf Hc.
  destruct (qs_get _ _) as [f'|[]]; simplify_eq/=; try done.
  destruct (create_follow db u a) as [[db'' f'']|] eqn:E; simplify_eq/=.
  by eapply create_follow_wf.
Qed.

Lemma follow_filter_delete_wf db u a : wf db → wf (follow_filter_delete db u a).
Proof.
  intros []. constructor; simpl; eauto using keys_unique_filter with yatube.
Qed.

(** Saving an edited post: the instance keeps the primary key and the
    timestamp of a stored row. *)
Lemma save_post_edit_wf db q p db' :
  wf db → q ∈ posts db → post_id p = post_id q → pub_date p = pub_date q →
  save_post db p = inl db' → wf db'.
Proof.
  intros [] Hq Hid Hdate. unfold save_post.
  case_decide as Hok; [|done]. case_decide as Hex; intros ?; simplify_eq/=;
    [|destruct Hex; rewrite Hid; by apply list_elem_of_fmap_2].
  assert (Hsame : ∀ x, x ∈ posts db → post_id x = post_id p → x = q).
  { intros x Hx ?. apply (keys_unique_inj post_id (posts db)); congruence. }
  assert (Hids : post_id <$> replace_row post_id p (posts db) = post_id <$> posts db).
  { apply fmap_replace_row. intros x Hx ?. by rewrite (Hsame x Hx). }
  assert (Hdates : pub_date <$> replace_row post_id p (posts db) = pub_date <$> posts db).
  { apply fmap_replace_row. intros x Hx ?. by rewrite (Hsame x Hx). }
  constructor; simpl; try done.
  - by unfold keys_unique; rewrite Hids.
  - rewrite Forall_forall in wf_post_fresh0 |- *. intros x Hx.
    apply (list_elem_of_fmap_2 post_id) in Hx. rewrite Hids in Hx.
    apply list_elem_of_fmap in Hx as (y & -> & Hy). auto.
  - by unfold keys_unique; rewrite Hdates.
  - rewrite Forall_forall in wf_post_clock0 |- *. intros x Hx.
    apply (list_elem_of_fmap_2 pub_date) in Hx. rewrite Hdates in Hx.
    apply list_elem_of_fmap in Hx as (y & -> & Hy). auto.
  - by apply Forall_replace_row.
  - unfold post_exists. simpl. by rewrite Hids.
Qed.

(** [get_or_create] between two existing users returns a row for the pair,
    creating it only when it was missing. *)
Lemma follow_get_or_create_spec db u a :
  wf db → user_exists db u → user_exists db a →
  ∃ db' f created, follow_get_or_create db u a = inl (db', f, created) ∧
    follow_pair f = (u, a) ∧ f ∈ follows db' ∧
    follows db' = (if created then follows db ++ [f] else follows db) ∧
    posts db' = posts db.
Proof.
  intros Hwf Hu Ha. unfold follow_get_or_create.
  destruct (qs_get_key follow_pair (follows db) (u, a) (wf_follow_pairs _ Hwf))
    as [[-> Hn]|(f & -> & Hf & Hk)].
  - unfold create_follow. rewrite decide_True by done. simpl.
    eexists _, _, true. split_and!; [done|done|simpl; set_solver|done|done].
  - by exists db, f, false.
Qed.

(** *** Preservation of [wf] by the deletions

    A deletion keeps a subset of each table, so keys stay distinct and
    fresh; the [on_delete] rules remove or null exactly the rows whose
    foreign key would dangle. *)

Ltac fk_filter :=
  match goal with
  | H : Forall ?P ?l |- Forall _ (filter _ ?l) => apply (Forall_filter_impl P); [|exact H]
  end;
  intros ?? HQ HP; destruct_and?;
  unfold user_exists, group_exists, post_exists, group_ref_ok in *; simpl in *.

Lemma delete_post_wf db pid : wf db → wf (delete_post db pid).
Proof.
  intros []. constructor; simpl; eauto with yatube.
  fk_filter. split; [|done]. apply key_in_filter; [done|]. congruence.
Qed.

Lemma delete_comment_wf db cid : wf db → wf (delete_comment db cid).
Proof. intros []. constructor; simpl; eauto with yatube. Qed.

Lemma delete_follow_wf db fid : wf db → wf (delete_follow db fid).
Proof. intros []. constructor; simpl; eauto with yatube. Qed.

(** [SET_NULL] rewrites the posts of the group and keeps every other
    column, so the keys, timestamps and authors of posts are unchanged. *)
Lemma delete_group_column {B} (k : Post → B) db gid :
  (∀ p, k (mkPost (post_id p) (text p) (pub_date p) (author p) None (image p)) = k p) →
  k <$> posts (delete_group db gid) = k <$> posts db.
Proof. intros Hk. apply fmap_keep_column. intros p. by case_decide. Qed.

Lemma delete_group_wf db gid : wf db → wf (delete_group db gid).
Proof.
  intros Hwf. destruct Hwf as [????????? Hclock Hrefs ????? Hfrefs].
  pose proof (delete_group_column post_id db gid (λ _, eq_refl)) as Hids.
  pose proof (delete_group_column pub_date db gid (λ _, eq_refl)) as Hdates.
  constructor; try (unfold keys_unique; rewrite ?Hids, ?Hdates); simpl in *; eauto with yatube.
  - apply Forall_fmap. eapply Forall_impl; [exact wf_post_fresh0|]. intros p ?; unfold compose; by case_decide.
  - apply Forall_fmap. eapply Forall_impl; [exact Hclock|]. intros p ?; unfold compose; by case_decide.
  - apply Forall_fmap. rewrite Forall_forall in Hrefs |- *. intros p Hp. unfold compose.
    destruct (Hrefs p Hp) as [Hu Hg]. case_decide as Hgid; [done|]. split; [done|].
    unfold group_ref_ok, group_exists in *. destruct (group p) as [g|]; [|done]. simpl.
    apply key_in_filter; [done|]. intros ?? ->. congruence.
  - unfold post_exists in *. simpl in *. unfold delete_group in Hids. simpl in Hids.
    rewrite Hids. done.
Qed.

(** A row whose user key is not the deleted user's keeps its user. *)
Lemma user_kept db uid v :
  v ∈ user_id <$> users db → v ≠ uid → v ∈ user_id <$> filter (λ u, user_id u ≠ uid) (users db).
Proof. intros. apply key_in_filter; [done|]. congruence. Qed.

Lemma delete_user_wf db uid : wf db → wf (delete_user db uid).
Proof.
  intros []. constructor; simpl; eauto with yatube.
  - fk_filter. split; [by apply user_kept|done].
  - fk_filter. split; [|by apply user_kept].
    apply key_in_filter; [done|]. intros q Hq Hqc Hqa.
    match goal with H : comment_post _ ∉ _ |- _ => apply H end.
    rewrite <-Hqc. by apply elem_of_fmap_filter.
  - fk_filter. split; by apply user_kept.
Qed.

Lemma admin_set_group_wf db p og db' :
  wf db → p ∈ posts db → admin_set_group db p og = inl db' → wf db'.
Proof. intros Hwf Hp. by apply (save_post_edit_wf db p). Qed.

Lemma admin_change_post_wf db p t a og img db' :
  wf db → p ∈ posts db → admin_change_post db p t a og img = inl db' → wf db'.
Proof. intros Hwf Hp. by apply (save_post_edit_wf db p). Qed.

(** The change forms keep the keys of the table they write, so every
    foreign key still points at a row. *)
Lemma admin_change_group_wf db g t s d db' :
  wf db → g ∈ groups db → admin_change_group db g t s d = inl db' → wf db'.
Proof.
  intros [] Hg. unfold admin_change_group. case_decide as Hs; [done|]. intros [= <-].
  set (g' := mkGroup (group_id g) t s d).
  assert (Hids : group_id <$> replace_row group_id g' (groups db) = group_id <$> groups db)
    by (by apply (replace_row_keys _ g' g)).
  constructor; simpl; try done.
  - unfold keys_unique. by rewrite Hids.
  - apply Forall_replace_row; [|done]. simpl. by apply (proj1 (Forall_forall _ _) wf_group_fresh0).
  - by apply (NoDup_replace_row group_id slug g' g).
  - eapply Forall_impl; [exact wf_post_refs0|]. intros p [Hu Hgr]. split; [done|].
    unfold group_ref_ok, group_exists in *. simpl. by rewrite Hids.
Qed.

Lemma admin_change_comment_wf db c pid a t db' :
  wf db → c ∈ comments db → admin_change_comment db c pid a t = inl db' → wf db'.
Proof.
  intros [] Hc. unfold admin_change_comment. case_decide as Hok; [|done]. intros [= <-].
  set (c' := mkComment (comment_id c) pid a (created c) t).
  assert (Hids : comment_id <$> replace_row comment_id c' (comments db) = comment_id <$> comments db)
    by (by apply (replace_row_keys _ c' c)).
  constructor; simpl; try done.
  - unfold keys_unique. by rewrite Hids.
  - apply Forall_replace_row; [|done]. simpl. by apply (proj1 (Forall_forall _ _) wf_comment_fresh0).
  - by apply Forall_replace_row.
Qed.

Lemma admin_change_follow_wf db f u a db' :
  wf db → f ∈ follows db → admin_change_follow db f u a = inl db' → wf db'.
Proof.
  intros [] Hf. unfold admin_change_follow. case_decide as Hok; [|done]. intros [= <-].
  destruct Hok as (Hu & Ha & Hnew). set (f' := mkFollow (follow_id f) u a).
  assert (Hids : follow_id <$> replace_row follow_id f' (follows db) = follow_id <$> follows db)
    by (by apply (replace_row_keys _ f' f)).
  constructor; simpl; try done.
  - unfold keys_unique. by rewrite Hids.
  - apply Forall_replace_row; [|done]. simpl. by apply (proj1 (Forall_forall _ _) wf_follow_fresh0).
  - by apply (NoDup_replace_row follow_id follow_pair f' f).
  - by apply Forall_replace_row.
Qed.

(** *** What the [on_delete] rules do *)

(** C19: Deleting a user (through the auth admin) leaves a well-formed
    database where the user is gone, and with them exactly their posts,
    the comments they wrote or that were on their posts, and the follow
    rows from or to them ([CASCADE] on [Post.author], [Comment.author],
    [Comment.post], [Follow.user], [Follow.author]). *)
Theorem delete_user_cascade db uid :
  wf db →
  let db' := delete_user db uid in
  wf db' ∧ ¬ user_exists db' uid ∧
  (∀ p, p ∈ posts db' ↔ p ∈ posts db ∧ author p ≠ uid) ∧
  (∀ c, c ∈ comments db' ↔ c ∈ comments db ∧ comment_author c ≠ uid ∧
          ¬ ∃ p, p ∈ posts db ∧ author p = uid ∧ post_id p = comment_post c) ∧
  (∀ f, f ∈ follows db' ↔ f ∈ follows db ∧ follow_user f ≠ uid ∧ follow_author f ≠ uid).
Proof.
  intros Hwf db'. split_and!; [by apply delete_user_wf| | | |];
    unfold user_exists; simpl; intros; rewrite ?list_elem_of_filter; [|tauto| |tauto].
  - intros (u & Hu & [Hne _]%list_elem_of_filter)%list_elem_of_fmap. congruence.
  - split.
    + intros [[Ha Hg] Hc]. split_and!; [done|done|]. intros (p & Hp & Hpa & Hpc).
      apply Hg. rewrite <-Hpc. by apply elem_of_fmap_filter.
    + intros (Hc & Ha & Hn). split_and!; [done| |done].
      intros (p & Hpc & [Hpa Hp]%list_elem_of_filter)%list_elem_of_fmap. eauto.
Qed.

(** C20: Deleting a group keeps every post, with its key, and nulls the
    group of the posts that were in it ([SET_NULL] on [Post.group]); the
    other posts are untouched and the database stays well-formed. *)
Theorem delete_group_set_null db gid :
  wf db →
  let db' := delete_group db gid in
  wf db' ∧ post_id <$> posts db' = post_id <$> posts db ∧
  Forall (λ p, group p ≠ Some gid) (posts db') ∧
  (∀ p, p ∈ posts db → group p ≠ Some gid → p ∈ posts db').
Proof.
  intros Hwf db'. split_and!.
  - by apply delete_group_wf.
  - by apply delete_group_column.
  - apply Forall_fmap, Forall_forall. intros p _. unfold compose. case_decide; simpl; congruence.
  - intros p Hp Hg. apply list_elem_of_fmap. exists p. split; [by case_decide|done].
Qed.

End Models.
