(* ===== verification/Text.v ===== *)
(** * Text: the [__str__] of the models and their field metadata

    A Python [str] is a sequence of code points; the model's strings are
    the UTF-8 bytes of that sequence (the sources are UTF-8 and the
    texts of the tests are Cyrillic).  [Post.__str__] returns
    [self.text[:15]], a slice by code points: the bytes are decoded,
    fifteen code points kept and encoded again.  The codec is the strict
    one of RFC 3629 that Python's ["utf-8"] implements: shortest forms
    only, no surrogates, nothing above [U+10FFFF].  The second half of
    the file is the [verbose_name] and [help_text] of each field, as
    [models.py] declares them, with Django's defaults where it declares
    none. *)

From stdpp Require Import base list.
From Stdlib Require Import String Ascii ZArith Lia.
From S2P Require Import Prelude Models.

Open Scope yatube_scope.

Module Text.
Import Models.

(** ** Bytes of a string *)

Definition bytes (s : string) : list Z :=
  (λ a, Z.of_nat (nat_of_ascii a)) <$> list_ascii_of_string s.

Definition of_bytes (l : list Z) : string :=
  string_of_list_ascii ((λ b, ascii_of_nat (Z.to_nat b)) <$> l).

Definition is_byte (b : Z) : Prop := (0 ≤ b < 256)%Z.

(** ** UTF-8 *)

Local Open Scope Z_scope.

(** A Unicode scalar value: a code point that is not a surrogate. *)
Definition valid_cp (c : Z) : Prop := (0 ≤ c < 1114112) ∧ ¬ (55296 ≤ c < 57344).

#[export] Instance valid_cp_dec c : Decision (valid_cp c).
Proof. unfold valid_cp. apply _. Defined.

(** [str.encode("utf-8")] of one code point: six bits per continuation
    byte. *)
Definition encode_cp (c : Z) : list Z :=
  if c <? 128 then [c]
  else if c <? 2048 then [192 + c / 64; 128 + c mod 64]
  else if c <? 65536 then [224 + c / 4096; 128 + (c / 64) mod 64; 128 + c mod 64]
  else [240 + c / 262144; 128 + (c / 4096) mod 64; 128 + (c / 64) mod 64; 128 + c mod 64].

Definition encode (cps : list Z) : list Z := cps ≫= encode_cp.

(** A continuation byte [10xxxxxx]. *)
Definition cont (b : Z) : bool := (128 <=? b) && (b <? 192).

(** [bytes.decode("utf-8")]: [None] is a [UnicodeDecodeError].  A lead
    byte announces the length of the sequence; the value it carries
    must need that length (no overlong form) and be a scalar value. *)
Fixpoint decode (l : list Z) : option (list Z) :=
  match l with
  | [] => Some []
  | b0 :: r =>
      if (0 <=? b0) && (b0 <? 128) then cons b0 <$> decode r
      else if (194 <=? b0) && (b0 <? 224) then
        match r with
        | b1 :: r1 => if cont b1 then cons ((b0 - 192) * 64 + (b1 - 128)) <$> decode r1 else None
        | _ => None
        end
      else if (224 <=? b0) && (b0 <? 240) then
        match r with
        | b1 :: b2 :: r2 =>
            let c := (b0 - 224) * 4096 + (b1 - 128) * 64 + (b2 - 128) in
            if cont b1 && cont b2 && (2048 <=? c) && negb ((55296 <=? c) && (c <? 57344))
            then cons c <$> decode r2 else None
        | _ => None
        end
      else if (240 <=? b0) && (b0 <? 245) then
        match r with
        | b1 :: b2 :: b3 :: r3 =>
            let c := (b0 - 240) * 262144 + (b1 - 128) * 4096 + (b2 - 128) * 64 + (b3 - 128) in
            if cont b1 && cont b2 && cont b3 && (65536 <=? c) && (c <? 1114112)
            then cons c <$> decode r3 else None
        | _ => None
        end
      else None
  end.

Local Close Scope Z_scope.

(** ** [__str__] *)

(** [s[:n]] on a [str]: the first [n] code points.  A model string is
    always the encoding of a [str]; the [None] branch is not reached. *)
Definition str_slice (s : string) (n : nat) : string :=
  match decode (bytes s) with
  | Some cps => of_bytes (encode (take n cps))
  | None => s
  end.

(** [Post.__str__]: [return self.text[:15]] *)
Definition post_str (p : Post) : string := str_slice (text p) 15.

(** [Group.__str__]: [return self.title] *)
Definition group_str (g : Group) : string := title g.

(** [Comment.__str__]: [return self.text] *)
Definition comment_str (c : Comment) : string := comment_text c.

(** ** Field metadata: [Model._meta.get_field(name)] *)

Record Field := mkField { field_name : string; verbose_name : string; help_text : string }.

(** [Field.set_attributes_from_name]: without a [verbose_name], Django
    takes the attribute name with underscores turned into spaces. *)
Fixpoint underscores_to_spaces (s : string) : string :=
  match s with
  | EmptyString => EmptyString
  | String a r => String (if Ascii.eqb a "_"%char then " "%char else a) (underscores_to_spaces r)
  end.

Definition default_field (name : string) : Field :=
  mkField name (underscores_to_spaces name) "".

Local Open Scope string_scope.

(** Every model has the implicit [id = AutoField(primary_key=True)],
    whose [verbose_name] is ["ID"]. *)
Definition id_field : Field := mkField "id" "ID" "".

Definition group_fields : list Field :=
  [id_field;
   mkField "title" "Заголовок" "Как корабль назовешь...";
   mkField "slug" "Id" "Id, но воспринимаемый человеком!";
   mkField "description" "Описание" "Кратко и поделу!"].

Definition post_fields : list Field :=
  [id_field;
   mkField "text" "Текст" "Ты можешь поведать свою историю...";
   mkField "pub_date" "Дата публикации" "";
   mkField "author" "Автор" "";
   mkField "group" "Группа" "Выбери группу";
   mkField "image" "Картинка" ""].

(** The class of each field of [Post] ([models.TextField], ...), with
    [auto_now_add], which makes a field non-editable. *)
Inductive ModelField := MAutoField | MTextField | MDateTimeField (auto_now_add : bool) | MForeignKey | MImageField.

Definition post_field_kinds : list (string * ModelField) :=
  [("id", MAutoField); ("text", MTextField); ("pub_date", MDateTimeField true);
   ("author", MForeignKey); ("group", MForeignKey); ("image", MImageField)].

Definition comment_fields : list Field :=
  [id_field; default_field "post"; default_field "author";
   mkField "created" "date published" ""; default_field "text"].

Definition follow_fields : list Field := [id_field; default_field "user"; default_field "author"].

(** [None] is [FieldDoesNotExist]. *)
Fixpoint get_field (fields : list Field) (name : string) : option Field :=
  match fields with
  | [] => None
  | f :: fs => if String.eqb (field_name f) name then Some f else get_field fs name
  end.

Local Close Scope string_scope.

(** ** The codec *)

(** Split on every comparison of the goal, dropping the branches whose
    tests contradict each other. *)
Ltac zcase :=
  repeat match goal with
  | |- context [cont ?b] => unfold cont
  | |- context [Z.leb ?a ?b] => destruct (Z.leb_spec a b); simpl; try (exfalso; lia)
  | |- context [Z.ltb ?a ?b] => destruct (Z.ltb_spec a b); simpl; try (exfalso; lia)
  end.

Local Open Scope Z_scope.

Lemma encode_cp_bytes c : valid_cp c → Forall is_byte (encode_cp c).
Proof.
  unfold valid_cp, encode_cp, is_byte. intros. Z.div_mod_to_equations.
  zcase; repeat constructor; lia.
Qed.

(** Decoding the encoding of a scalar value reads it back and goes on
    with the rest of the bytes. *)
Lemma decode_encode_cp c l : valid_cp c → decode (encode_cp c ++ l) = cons c <$> decode l.
Proof.
  unfold valid_cp, encode_cp, cont. intros. Z.div_mod_to_equations.
  zcase; do 2 f_equal; lia.
Qed.

(** Each sequence [decode] accepts is the encoding of the value it
    reads. *)
Lemma encode_cp_1 b0 : 0 ≤ b0 < 128 → encode_cp b0 = [b0].
Proof. unfold encode_cp. intros. by zcase. Qed.

Lemma encode_cp_2 b0 b1 :
  194 ≤ b0 < 224 → 128 ≤ b1 < 192 → encode_cp ((b0 - 192) * 64 + (b1 - 128)) = [b0; b1].
Proof. unfold encode_cp. intros. Z.div_mod_to_equations. zcase; repeat f_equal; lia. Qed.

Lemma encode_cp_3 b0 b1 b2 :
  224 ≤ b0 < 240 → 128 ≤ b1 < 192 → 128 ≤ b2 < 192 →
  2048 ≤ (b0 - 224) * 4096 + (b1 - 128) * 64 + (b2 - 128) →
  encode_cp ((b0 - 224) * 4096 + (b1 - 128) * 64 + (b2 - 128)) = [b0; b1; b2].
Proof. unfold encode_cp. intros. Z.div_mod_to_equations. zcase; repeat f_equal; lia. Qed.

Lemma encode_cp_4 b0 b1 b2 b3 :
  240 ≤ b0 < 245 → 128 ≤ b1 < 192 → 128 ≤ b2 < 192 → 128 ≤ b3 < 192 →
  65536 ≤ (b0 - 240) * 262144 + (b1 - 128) * 4096 + (b2 - 128) * 64 + (b3 - 128) →
  encode_cp ((b0 - 240) * 262144 + (b1 - 128) * 4096 + (b2 - 128) * 64 + (b3 - 128)) =
    [b0; b1; b2; b3].
Proof. unfold encode_cp. intros. Z.div_mod_to_equations. zcase; repeat f_equal; lia. Qed.

(** The tests of [decode], as facts on the bytes. *)
Ltac zbools :=
  repeat match goal with
  | H : _ && _ = true |- _ => apply andb_prop in H as [? ?]
  | H : negb _ = true |- _ => apply negb_true_iff in H
  | H : cont _ = true |- _ => unfold cont in H
  | H : (_ <=? _) = true |- _ => apply Z.leb_le in H
  | H : (_ <=? _) = false |- _ => apply Z.leb_gt in H
  | H : (_ <? _) = true |- _ => apply Z.ltb_lt in H
  | H : (_ <? _) = false |- _ => apply Z.ltb_ge in H
  | H : _ && _ = false |- _ => apply andb_false_iff in H as [?|?]
  end.

Lemma encode_cons c cps pre r :
  encode_cp c = pre → valid_cp c → encode cps = r ∧ Forall valid_cp cps →
  encode (c :: cps) = pre ++ r ∧ Forall valid_cp (c :: cps).
Proof. intros <- ? [<- ?]. split; [unfold encode; by rewrite bind_cons|by constructor]. Qed.

(** What [decode] accepts is the encoding of scalar values: the bytes
    are given back by encoding what was read. *)
Lemma decode_sound_fuel n : ∀ l cps,
  (Datatypes.length l < n)%nat → decode l = Some cps → encode cps = l ∧ Forall valid_cp cps.
Proof.
  induction n as [|n IH]; intros l cps Hlen Hd; [lia|].
  destruct l as [|b0 r]; simpl in Hd; [by simplify_eq|].
  repeat case_match; simplify_eq/=;
    apply fmap_Some_1 in Hd as (cps' & Hr & ->); zbools; simpl in Hlen.
  all: first
    [ apply (encode_cons _ _ [b0]); [by apply encode_cp_1| |]
    | apply (encode_cons _ _ [b0; _]); [by apply encode_cp_2| |]
    | apply (encode_cons _ _ [b0; _; _]); [by apply encode_cp_3| |]
    | apply (encode_cons _ _ [b0; _; _; _]); [by apply encode_cp_4| |] ];
    [unfold valid_cp; lia|apply IH; [simpl in *; lia|done]].
Qed.

Lemma decode_sound l cps : decode l = Some cps → encode cps = l ∧ Forall valid_cp cps.
Proof. apply (decode_sound_fuel (S (Datatypes.length l))). lia. Qed.

Lemma decode_encode cps : Forall valid_cp cps → decode (encode cps) = Some cps.
Proof.
  induction 1 as [|c cps Hc _ IH]; [done|].
  unfold encode. rewrite bind_cons. fold (encode cps). by rewrite decode_encode_cp, IH.
Qed.

Lemma encode_app l1 l2 : encode (l1 ++ l2) = encode l1 ++ encode l2.
Proof. unfold encode. apply bind_app. Qed.

Lemma encode_bytes cps : Forall valid_cp cps → Forall is_byte (encode cps).
Proof.
  induction 1; [constructor|]. unfold encode. rewrite bind_cons, Forall_app.
  split; [by apply encode_cp_bytes|done].
Qed.

Local Close Scope Z_scope.

(** ** Strings as bytes *)

Lemma bytes_of_bytes l : Forall is_byte l → bytes (of_bytes l) = l.
Proof.
  unfold bytes, of_bytes, is_byte. rewrite list_ascii_of_string_of_list_ascii.
  induction 1 as [|b l Hb _ IH]; [done|]. rewrite !fmap_cons, IH, nat_ascii_embedding by lia.
  f_equal. lia.
Qed.

Lemma of_bytes_bytes s : of_bytes (bytes s) = s.
Proof.
  unfold bytes, of_bytes. rewrite <-list_fmap_compose.
  rewrite (list_fmap_ext _ id); [by rewrite list_fmap_id, string_of_list_ascii_of_string|].
  intros i a _. simpl. by rewrite Nat2Z.id, ascii_nat_embedding.
Qed.

Lemma string_of_list_ascii_app (l1 l2 : list ascii) :
  string_of_list_ascii (l1 ++ l2) = (string_of_list_ascii l1 ++ string_of_list_ascii l2)%string.
Proof. induction l1 as [|a l1 IH]; [done|]. cbn [string_of_list_ascii app]. by rewrite IH. Qed.

Lemma of_bytes_app l1 l2 : of_bytes (l1 ++ l2) = (of_bytes l1 ++ of_bytes l2)%string.
Proof. unfold of_bytes. by rewrite fmap_app, string_of_list_ascii_app. Qed.

(** ** Slicing by code points *)

(** [s[:n]] is the encoding of the first [n] code points of [s]; the
    rest of [s] follows it; a string of at most [n] code points is its
    own slice. *)
Lemma str_slice_spec s n cps :
  decode (bytes s) = Some cps →
  decode (bytes (str_slice s n)) = Some (take n cps) ∧
  s = (str_slice s n ++ of_bytes (encode (drop n cps)))%string ∧
  (Datatypes.length cps ≤ n → str_slice s n = s).
Proof.
  intros Hd. destruct (decode_sound _ _ Hd) as [He Hv].
  unfold str_slice. rewrite Hd. split_and!.
  - rewrite bytes_of_bytes by (apply encode_bytes, Forall_take, Hv).
    apply decode_encode, Forall_take, Hv.
  - by rewrite <-of_bytes_app, <-encode_app, take_drop, He, of_bytes_bytes.
  - intros Hn. by rewrite take_ge, He, of_bytes_bytes by lia.
Qed.

(** C22: [Post.__str__] is the first fifteen code points of the text, not
    the first fifteen bytes: it is valid UTF-8, a prefix of the text, and
    the whole text when the text is short. *)
Theorem post_str_prefix p cps :
  decode (bytes (text p)) = Some cps →
  decode (bytes (post_str p)) = Some (take 15 cps) ∧
  (∃ rest, text p = (post_str p ++ rest)%string) ∧
  (Datatypes.length cps ≤ 15 → post_str p = text p).
Proof.
  intros Hd. destruct (str_slice_spec (text p) 15 cps Hd) as (? & ? & ?).
  unfold post_str. eauto.
Qed.

(** The UTF-8 codec is a bijection between sequences of scalar
    values and the byte strings [decode] accepts: decoding an encoding
    gives the code points back, and every accepted byte string is the
    encoding of what it decodes to. *)
Theorem utf8_codec_bijection :
  (∀ cps, Forall valid_cp cps → decode (encode cps) = Some cps) ∧
  (∀ l cps, decode l = Some cps → encode cps = l ∧ Forall valid_cp cps).
Proof. split; [apply decode_encode|apply decode_sound]. Qed.

(** The post of [test_cache_index_page]: twenty-two Cyrillic code points,
    forty-one bytes. *)
Definition cache_post : Post := mkPost 2 "Пост для проверки кеша" 2 1 None "".

Definition cache_post_cps : list Z := default [] (decode (bytes (text cache_post))).

Lemma post_str_prefix_witness :
  decode (bytes (text cache_post)) = Some cache_post_cps ∧
  (decode (bytes (post_str cache_post)) = Some (take 15 cache_post_cps) ∧
   (∃ rest, text cache_post = (post_str cache_post ++ rest)%string) ∧
   (Datatypes.length cache_post_cps ≤ 15 → post_str cache_post = text cache_post)).
Proof.
  assert (Hd : decode (bytes (text cache_post)) = Some cache_post_cps) by (vm_compute; reflexivity).
  exact (conj Hd (post_str_prefix cache_post cache_post_cps Hd)).
Defined.

(** Its [__str__] keeps fifteen letters; the fourteen letters of the post
    of [PostModelTest] are kept whole, where fifteen bytes would cut the
    eighth letter in two. *)
Lemma post_str_cyrillic :
  post_str cache_post = "Пост для провер"%string ∧
  post_str (mkPost 1 "Тестовый текст" 1 1 (Some 1) "") = "Тестовый текст"%string ∧
  decode (bytes (substring 0 15 "Тестовый текст")) = None.
Proof. split_and!; vm_compute; reflexivity. Qed.

End Text.
