(* ===== verification/Fixtures.v ===== *)
(** * Fixtures: the databases the test suite builds in [setUpClass]

    Each fixture is the sequence of [objects.create] calls of one test
    class, run from the empty database; the test's requests and
    assertions are replayed on it by the witnesses and by [Scenarios]. *)

From stdpp Require Import base list strings.
From Stdlib Require Import String.
From S2P Require Import Prelude Models.

Open Scope yatube_scope.
Local Open Scope string_scope.

Module Fixtures.
Import Models.

(** The database a fixture script leaves, or the empty one if a write
    raised (none does: see [Scenarios.fixtures_succeed]). *)
Definition db_of (r : DB + OrmError) : DB :=
  match r with inl db => db | inr _ => empty_db end.

(** [PagesTests.setUpClass]: one user, two groups, one post with an image
    in the first group. *)
Definition pages_fixture : DB + OrmError :=
  let! (db, u) := create_user empty_db "user" in
  let! (db, g) := create_group db "Заголовок тестовой задачи" "test-slug" "Тестовое описание ..." in
  let! (db, _) := create_group db "Заголовок тестовой задачи two" "test-slug-two"
                    "Тестовое описание two..." in
  let! (db, _) := create_post db "Текст" (user_id u) (Some (group_id g)) "posts/small.gif" in
  inl db.

(** [PaginatorTest.setUpClass]: eleven posts by one user, no group. *)
Fixpoint create_posts (n : nat) (db : DB) (txt : string) (a : nat) : DB + OrmError :=
  match n with
  | O => inl db
  | S n => let! (db, _) := create_post db txt a None "" in create_posts n db txt a
  end.

Definition paginator_fixture : DB + OrmError :=
  let! (db, u) := create_user empty_db "user" in
  create_posts 11 db "Тестовый пост" (user_id u).

(** [FollowViewsTest.setUpClass]: three users and one post by "author". *)
Definition follow_fixture : DB + OrmError :=
  let! (db, _) := create_user empty_db "user" in
  let! (db, _) := create_user db "follower" in
  let! (db, a) := create_user db "author" in
  let! (db, _) := create_post db "Пост для подписки" (user_id a) None "" in
  inl db.

(** [PostFormTests.setUpClass] *)
Definition post_form_fixture : DB + OrmError :=
  let! (db, u) := create_user empty_db "user" in
  let! (db, g) := create_group db "Тестовая группа" "test-group" "Тест" in
  let! (db, _) := create_post db "Текст" (user_id u) (Some (group_id g)) "" in
  inl db.

(** [PostsUrlsTests.setUpClass] *)
Definition urls_fixture : DB + OrmError :=
  let! (db, a) := create_user empty_db "user_author" in
  let! (db, _) := create_user db "user_non_author" in
  let! (db, g) := create_group db "Название - Тест" "slug-test" "Описание - Тест" in
  let! (db, _) := create_post db "Текст - Тест" (user_id a) (Some (group_id g)) "" in
  inl db.

(** [CommentFormTests.setUpClass] *)
Definition comment_fixture : DB + OrmError :=
  let! (db, u) := create_user empty_db "user" in
  let! (db, g) := create_group db "Тестовая группа" "test-group" "Тестовое описание" in
  let! (db, _) := create_post db "Тестовый текст" (user_id u) (Some (group_id g)) "" in
  inl db.

(** [PostModelTest.setUpClass] *)
Definition models_fixture : DB + OrmError :=
  let! (db, u) := create_user empty_db "user" in
  let! (db, g) := create_group db "Заголовок тестовой задачи" "test-task" "Тестовое описание ..." in
  let! (db, _) := create_post db "Тестовый текст" (user_id u) (Some (group_id g)) "" in
  inl db.

Definition pages_db : DB := db_of pages_fixture.
Definition paginator_db : DB := db_of paginator_fixture.
Definition follow_db : DB := db_of follow_fixture.
Definition post_form_db : DB := db_of post_form_fixture.
Definition urls_db : DB := db_of urls_fixture.
Definition comment_db : DB := db_of comment_fixture.
Definition models_db : DB := db_of models_fixture.

(** The database after a write that returns a row. *)
Definition after {A} (r : (DB * A) + OrmError) : DB :=
  match r with inl (db, _) => db | inr _ => empty_db end.

End Fixtures.
