(* ===== verification/Paginator.v ===== *)
(** * Paginator: [django.core.paginator.Paginator] as the views call it

    Every list view does
<<
    paginator = Paginator(post_list, settings.PAR_PAGE)
    page_number = request.GET.get("page")
    page_obj = paginator.get_page(page_number)
>>
    [page_number] is [None] or the raw query-string value.  [get_page]
    runs [validate_number], which calls Python's [int()] on it; a value
    that is not an integer gives page 1, a number below 1 or above the
    last page gives the last page.  [Paginator] is Django's code, not the
    app's: it is modelled after Django's source with [orphans = 0] and
    [allow_empty_first_page = True], the defaults the app uses. *)

From stdpp Require Import base list strings.
From Stdlib Require Import String Ascii ZArith Lia.
From S2P Require Import Prelude.

Open Scope yatube_scope.

Module Paginator.

(** ** Python's [int(s)] on a string

    [int] strips whitespace on both sides, takes an optional sign, then
    decimal digits where single underscores may separate two digits.
    Only ASCII input is modelled: Python also accepts Unicode digits and
    spaces. *)

(** [str.isspace] on ASCII: [\t \n \v \f \r], the separators
    [\x1c]-[\x1f], and the space. *)
Definition py_isspace (c : ascii) : bool :=
  bool_decide (9 ≤ nat_of_ascii c ≤ 13 ∨ 28 ≤ nat_of_ascii c ≤ 32).

Definition is_digit (c : ascii) : bool := bool_decide (48 ≤ nat_of_ascii c ≤ 57).

Definition digit_value (c : ascii) : Z := Z.of_nat (nat_of_ascii c - 48).

Fixpoint lstrip (l : list ascii) : list ascii :=
  match l with
  | c :: r => if py_isspace c then lstrip r else l
  | [] => []
  end.

Definition strip (l : list ascii) : list ascii := reverse (lstrip (reverse (lstrip l))).

(** The digits after the first one, accumulated left to right; an
    underscore must be followed by a digit. *)
Fixpoint digits_from (acc : Z) (l : list ascii) : option Z :=
  match l with
  | [] => Some acc
  | c :: r =>
      if is_digit c then digits_from (acc * 10 + digit_value c) r
      else if bool_decide (c = "_"%char) then
        match r with
        | d :: r' => if is_digit d then digits_from (acc * 10 + digit_value d) r' else None
        | [] => None
        end
      else None
  end.

Definition parse_digits (l : list ascii) : option Z :=
  match l with
  | d :: r => if is_digit d then digits_from (digit_value d) r else None
  | [] => None
  end.

Definition parse_signed (l : list ascii) : option Z :=
  match l with
  | c :: r =>
      if bool_decide (c = "-"%char) then Z.opp <$> parse_digits r
      else if bool_decide (c = "+"%char) then parse_digits r
      else parse_digits l
  | [] => None
  end.

Definition py_int (s : string) : option Z := parse_signed (strip (list_ascii_of_string s)).

(** *** Python's [str(n)] on an integer *)

Definition digit_char (d : nat) : ascii := ascii_of_nat (48 + d).

Fixpoint nat_digits_fuel (fuel n : nat) : list ascii :=
  match fuel with
  | O => []
  | S f => if bool_decide (n < 10) then [digit_char n]
           else nat_digits_fuel f (n / 10) ++ [digit_char (n mod 10)]
  end.

(** [n + 1] steps are enough: each step divides by ten. *)
Definition nat_digits (n : nat) : list ascii := nat_digits_fuel (S n) n.

Definition int_repr (z : Z) : list ascii :=
  if bool_decide (z < 0)%Z then "-"%char :: nat_digits (Z.to_nat (- z))
  else nat_digits (Z.to_nat z).

Definition digits_val (l : list ascii) : Z :=
  fold_left (λ a c, a * 10 + digit_value c)%Z l 0%Z.

Lemma digits_from_all acc l :
  Forall (λ c, is_digit c = true) l →
  digits_from acc l = Some (fold_left (λ a c, a * 10 + digit_value c)%Z l acc).
Proof.
  induction l as [|c l IH] in acc |- *; intros Hl; [done|].
  apply Forall_cons in Hl as [Hc Hl]. simpl. rewrite Hc. auto.
Qed.

Lemma parse_digits_all l :
  l ≠ [] → Forall (λ c, is_digit c = true) l → parse_digits l = Some (digits_val l).
Proof.
  destruct l as [|d r]; [done|]. intros _ [Hd Hr]%Forall_cons.
  simpl. rewrite Hd. by apply digits_from_all.
Qed.

Lemma digit_char_spec d :
  d < 10 → is_digit (digit_char d) = true ∧ digit_value (digit_char d) = Z.of_nat d.
Proof.
  intros Hd. unfold is_digit, digit_value, digit_char.
  rewrite nat_ascii_embedding by lia. split; [case_bool_decide; [done|lia]|lia].
Qed.

(** Beyond [n + 1], more fuel gives the same digits: the loop has ended. *)
Lemma nat_digits_fuel_stable f1 f2 n :
  n < f1 → n < f2 → nat_digits_fuel f1 n = nat_digits_fuel f2 n.
Proof.
  induction f1 as [|f1 IH] in n, f2 |- *; intros H1 H2; [lia|].
  destruct f2 as [|f2]; [lia|]. cbn -[Nat.div Nat.modulo].
  case_bool_decide; [done|]. f_equal. apply IH;
    (apply Nat.lt_le_trans with n; [apply Nat.div_lt|]; lia).
Qed.

Lemma nat_digits_fuel_spec f n :
  n < f →
  nat_digits_fuel f n ≠ [] ∧ Forall (λ c, is_digit c = true) (nat_digits_fuel f n) ∧
  digits_val (nat_digits_fuel f n) = Z.of_nat n.
Proof.
  induction f as [|f IH] in n |- *; intros Hn; [lia|]. cbn -[Nat.div Nat.modulo].
  case_bool_decide as Hlt.
  - destruct (digit_char_spec n Hlt) as [Hd Hv].
    split_and!; [done|by constructor|]. unfold digits_val. simpl. by rewrite Hv.
  - destruct (IH (n / 10)) as (Hne & Hall & Hval);
      [apply Nat.lt_le_trans with n; [apply Nat.div_lt|]; lia|].
    destruct (digit_char_spec (n mod 10)) as [Hd Hv]; [by apply Nat.mod_upper_bound|].
    split_and!.
    + by intros []%app_eq_nil.
    + apply Forall_app. split; [done|by constructor].
    + unfold digits_val in *. rewrite fold_left_app, Hval. cbn -[Nat.div Nat.modulo digit_value]. rewrite Hv.
      pose proof (Nat.div_mod_eq n 10). lia.
Qed.

Lemma lstrip_spaces ws l :
  Forall (λ c, py_isspace c = true) ws → lstrip (ws ++ l) = lstrip l.
Proof. induction 1 as [|c ws Hc _ IH]; [done|]. simpl. by rewrite Hc. Qed.

Lemma lstrip_nonspace c l : py_isspace c = false → lstrip (c :: l) = c :: l.
Proof. simpl. intros ->. done. Qed.

Lemma digit_not_space c : is_digit c = true → py_isspace c = false.
Proof. unfold is_digit, py_isspace. intros. yt_decide; lia. Qed.

(** Spaces around a token without spaces are what [strip] removes. *)
Lemma strip_around ws1 ws2 t :
  Forall (λ c, py_isspace c = true) ws1 → Forall (λ c, py_isspace c = true) ws2 →
  t ≠ [] → Forall (λ c, py_isspace c = false) t →
  strip (ws1 ++ t ++ ws2) = t.
Proof.
  intros H1 H2 Hne Ht. unfold strip.
  assert (Hrev : reverse t ≠ [] ∧ Forall (λ c, py_isspace c = false) (reverse t)).
  { split; [by intros ?%(f_equal reverse); rewrite reverse_involutive in *|by apply Forall_reverse]. }
  destruct t as [|c t]; [done|]. apply Forall_cons in Ht as [Hc _].
  rewrite lstrip_spaces, <-app_comm_cons, lstrip_nonspace by done.
  rewrite app_comm_cons, reverse_app, lstrip_spaces by (by apply Forall_reverse).
  destruct Hrev as [Hne' Hall]. destruct (reverse (c :: t)) as [|d r] eqn:E; [done|].
  apply Forall_cons in Hall as [Hd _]. rewrite lstrip_nonspace by done.
  by rewrite <-E, reverse_involutive.
Qed.

Lemma nat_digits_spec m :
  nat_digits m ≠ [] ∧ Forall (λ c, py_isspace c = false) (nat_digits m) ∧
  Forall (λ c, is_digit c = true) (nat_digits m) ∧
  parse_digits (nat_digits m) = Some (Z.of_nat m).
Proof.
  destruct (nat_digits_fuel_spec (S m) m) as (Hne & Hall & Hval); [lia|].
  split_and!; [done| |done|].
  - eapply Forall_impl; [exact Hall|]. apply digit_not_space.
  - rewrite parse_digits_all by done. by f_equal.
Qed.

(** [int()] reads back what [str()] prints, whatever spaces surround it. *)
Lemma py_int_roundtrip (z : Z) (ws1 ws2 : list ascii) :
  Forall (λ c, py_isspace c = true) ws1 → Forall (λ c, py_isspace c = true) ws2 →
  py_int (string_of_list_ascii (ws1 ++ int_repr z ++ ws2)) = Some z.
Proof.
  intros H1 H2. unfold py_int. rewrite list_ascii_of_string_of_list_ascii.
  unfold int_repr. case_bool_decide as Hz.
  - destruct (nat_digits_spec (Z.to_nat (- z))) as (Hne & Hsp & _ & Hp).
    rewrite strip_around by (done || by constructor). simpl.
    rewrite Hp. simpl. f_equal. lia.
  - destruct (nat_digits_spec (Z.to_nat z)) as (Hne & Hsp & Hall & Hp).
    rewrite strip_around by done.
    destruct (nat_digits _) as [|d r] eqn:E; [done|]. apply Forall_cons in Hall as [Hd _].
    cbn [parse_signed]. rewrite !bool_decide_false
      by (intros ->; vm_compute in Hd; discriminate).
    rewrite Hp. f_equal. lia.
Qed.

(** *** The page number argument *)

(** The argument of [get_page]: [request.GET.get("page")] is [None] or a
    string; [page()] passes integers back in. *)
Inductive PageArg := ArgNone | ArgStr (s : string) | ArgInt (z : Z).

(** [int(number)]: [TypeError] on [None], [ValueError] on a bad string;
    both are [None] here. *)
Definition py_int_arg (a : PageArg) : option Z :=
  match a with ArgNone => None | ArgStr s => py_int s | ArgInt z => Some z end.

(** ** The paginator *)

(** [settings.PAR_PAGE]: posts per page (the settings module is not part
    of the sources; the tests fix it at 10). *)
Definition PAR_PAGE : Z := 10.

Inductive PageError := PageNotAnInteger | EmptyPage.

#[export] Instance PageError_eq_dec : EqDecision PageError.
Proof. solve_decision. Defined.

Record Page (A : Type) := mkPage {
  object_list : list A;
  number : Z;
  page_num_pages : Z }.
Arguments mkPage {A}.
Arguments object_list {A}.
Arguments number {A}.
Arguments page_num_pages {A}.

#[export] Instance Page_eq_dec {A} `{EqDecision A} : EqDecision (Page A).
Proof. solve_decision. Defined.

(** [Paginator(object_list, per_page)]: the object the views build and
    [follow_index] also hands to its template. *)
Record Paginator (A : Type) := mkPaginator {
  paginator_object_list : list A;
  per_page : Z }.
Arguments mkPaginator {A}.
Arguments paginator_object_list {A}.
Arguments per_page {A}.

#[export] Instance Paginator_eq_dec {A} `{EqDecision A} : EqDecision (Paginator A).
Proof. solve_decision. Defined.

Section paginator.
Context {A : Type} (per_page : Z) (l : list A).
Local Open Scope Z_scope.

(** [Paginator.count] *)
Definition count : Z := Z.of_nat (Datatypes.length l).

(** [Paginator.num_pages]: [ceil(max(1, count - orphans) / per_page)]. *)
Definition num_pages : Z :=
  let hits := Z.max 1 count in (hits + per_page - 1) / per_page.

(** [Paginator.validate_number] *)
Definition validate_number (a : PageArg) : Z + PageError :=
  match py_int_arg a with
  | None => inr PageNotAnInteger
  | Some n =>
      if bool_decide (n < 1) then inr EmptyPage
      else if bool_decide (num_pages < n) then
        (if bool_decide (n = 1) then inl n else inr EmptyPage)
      else inl n
  end.

(** [Paginator.page]: [object_list[bottom:top]]. *)
Definition page (n : Z) : Page A + PageError :=
  let! n := validate_number (ArgInt n) in
  let bottom := (n - 1) * per_page in
  let top := bottom + per_page in
  let top := if bool_decide (count <= top) then count else top in
  inl (mkPage (take (Z.to_nat top - Z.to_nat bottom) (drop (Z.to_nat bottom) l)) n num_pages).

(** [Paginator.get_page] *)
Definition get_page (a : PageArg) : Page A + PageError :=
  let n := match validate_number a with
           | inl n => n
           | inr PageNotAnInteger => 1
           | inr EmptyPage => num_pages
           end in
  page n.
End paginator.

(** ** Abstract specification of a page

    What the views promise: the page the request asks for when it names an
    existing page, page 1 when it names no integer, the last page when the
    integer is out of range; and the page holds the [per_page] objects
    after the first [(n - 1) * per_page]. *)

Definition requested_page (np : Z) (a : PageArg) : Z :=
  match py_int_arg a with
  | None => 1
  | Some n => if bool_decide (1 <= n <= np)%Z then n else np
  end.

Definition page_slice {A} (per_page n : Z) (l : list A) : list A :=
  take (Z.to_nat per_page) (drop (Z.to_nat ((n - 1) * per_page)) l).

Section paginator_facts.
Context {A : Type} (per_page : Z) (l : list A).
Hypothesis per_page_pos : (0 < per_page)%Z.
Local Open Scope Z_scope.

(** [num_pages] is the ceiling of [max 1 count / per_page]. *)
Lemma num_pages_bounds :
  1 <= num_pages per_page l ∧
  (num_pages per_page l - 1) * per_page < Z.max 1 (count l) <= num_pages per_page l * per_page.
Proof.
  unfold num_pages. set (h := Z.max 1 (count l)).
  assert (1 <= h) by lia.
  pose proof (Z.div_mod (h + per_page - 1) per_page ltac:(lia)).
  pose proof (Z.mod_pos_bound (h + per_page - 1) per_page per_page_pos).
  nia.
Qed.

Lemma validate_number_in_range n :
  1 <= n <= num_pages per_page l → validate_number per_page l (ArgInt n) = inl n.
Proof. intros Hn. unfold validate_number. simpl. yt_decide; lia. Qed.

Lemma page_in_range n :
  1 <= n <= num_pages per_page l →
  page per_page l n = inl (mkPage (page_slice per_page n l) n (num_pages per_page l)).
Proof.
  intros Hn. assert (0 <= (n - 1) * per_page) by nia.
  unfold page. rewrite validate_number_in_range by done. f_equal. f_equal.
  unfold page_slice, count. case_bool_decide.
  - rewrite take_ge by (rewrite length_drop; lia).
    rewrite take_ge; [done|]. rewrite length_drop. lia.
  - f_equal. lia.
Qed.

(** [get_page] turns the request into a page number in range. *)
Lemma get_page_number_spec a :
  let n := match validate_number per_page l a with
           | inl n => n
           | inr PageNotAnInteger => 1
           | inr EmptyPage => num_pages per_page l
           end in
  n = requested_page (num_pages per_page l) a ∧ 1 <= n <= num_pages per_page l.
Proof.
  pose proof num_pages_bounds. unfold validate_number, requested_page.
  destruct (py_int_arg a) as [n|]; [|lia]. yt_decide; lia.
Qed.

(** The page numbers [1 .. num_pages]. *)
Definition page_range : list Z :=
  (λ i, Z.of_nat i + 1) <$> seq 0 (Z.to_nat (num_pages per_page l)).

Lemma concat_slices (k : nat) :
  List.concat ((λ i : nat, take (Z.to_nat per_page) (drop (i * Z.to_nat per_page) l)) <$> seq 0 k) =
  take (k * Z.to_nat per_page) l.
Proof.
  induction k as [|k IH]; [done|].
  rewrite seq_S, fmap_app, concat_app, IH. simpl. rewrite app_nil_r.
  rewrite take_take_drop. f_equal. lia.
Qed.
End paginator_facts.

(** C15: [get_page] never raises (for a positive page size), lands on the
    requested page when it exists, and returns that page's slice. *)
Theorem get_page_spec {A} (per_page : Z) (l : list A) (a : PageArg) :
  (0 < per_page)%Z →
  let np := num_pages per_page l in
  let n := requested_page np a in
  get_page per_page l a = inl (mkPage (page_slice per_page n l) n np) ∧ (1 <= n <= np)%Z.
Proof.
  intros Hper. cbn zeta. destruct (get_page_number_spec per_page l Hper a) as [Hn Hr].
  unfold get_page. rewrite <-Hn. split; [|done].
  by apply page_in_range.
Qed.

(** The pages partition the list: [get_page] asked in turn, with any
    argument that [int()] reads as the number, for each number of
    [page_range] never raises, and the pages it returns, read in order,
    hold every object exactly once. *)
Lemma pages_partition_args {A} (per_page : Z) (l : list A) (arg : Z → PageArg) :
  (0 < per_page)%Z → (∀ n, (1 <= n)%Z → py_int_arg (arg n) = Some n) →
  ∃ pgs, Forall2 (λ n pg, get_page per_page l (arg n) = inl pg) (page_range per_page l) pgs ∧
         List.concat (object_list <$> pgs) = l.
Proof.
  intros Hper Harg. destruct (num_pages_bounds per_page l Hper) as [H1 [_ H2]].
  exists ((λ n, mkPage (page_slice per_page n l) n (num_pages per_page l)) <$> page_range per_page l).
  split.
  - apply Forall2_fmap_r, Forall_Forall2_diag, Forall_forall. intros n Hn.
    unfold page_range in Hn. apply list_elem_of_fmap in Hn as (i & -> & Hi%elem_of_seq).
    destruct (get_page_spec per_page l (arg (Z.of_nat i + 1)%Z) Hper) as [-> _].
    unfold requested_page. rewrite Harg by lia. by rewrite bool_decide_true by lia.
  - rewrite <-list_fmap_compose. unfold page_range. rewrite <-list_fmap_compose.
    rewrite (list_fmap_ext _ (λ i : nat, take (Z.to_nat per_page) (drop (i * Z.to_nat per_page) l)));
      last first.
    { intros i x _. unfold compose, page_slice. simpl. do 2 f_equal. lia. }
    rewrite concat_slices. apply take_ge. unfold count in H2. nia.
Qed.

(** C16: A page number below 1 or past the last page gives the last page, not
    an empty one; on a non-empty list that page holds objects. *)
Theorem get_page_out_of_range {A} (per_page : Z) (l : list A) (a : PageArg) n :
  (0 < per_page)%Z → py_int_arg a = Some n →
  (n < 1 ∨ num_pages per_page l < n)%Z →
  let np := num_pages per_page l in
  get_page per_page l a = inl (mkPage (page_slice per_page np l) np np) ∧
  (l ≠ [] → page_slice per_page np l ≠ []).
Proof.
  intros Hper Ha Hn np. destruct (num_pages_bounds per_page l Hper) as [H1 [H2 H3]].
  destruct (get_page_number_spec per_page l Hper a) as [Hq Hr].
  unfold requested_page in Hq. rewrite Ha, bool_decide_false in Hq by lia.
  split.
  - unfold get_page. rewrite Hq. by apply page_in_range; lia.
  - intros Hl. unfold page_slice. unfold count in *.
    destruct l as [|x l]; [done|]. simpl Datatypes.length in *.
    assert (Hd : drop (Z.to_nat ((np - 1) * per_page)) (x :: l) ≠ []).
    { intros Hd. apply (f_equal Datatypes.length) in Hd. rewrite length_drop in Hd. simpl in Hd. nia. }
    destruct (drop _ _) as [|y r]; [done|]. destruct (Z.to_nat per_page) eqn:E; [lia|done].
Qed.

(** ** Witnesses: the [PaginatorTest] cases, eleven posts on pages of ten *)

(** [?page=2] is the second page, with the eleventh object. *)
Lemma get_page_spec_witness :
  (0 < PAR_PAGE)%Z ∧
  get_page PAR_PAGE (seq 0 11) (ArgStr "2") = inl (mkPage [10] 2%Z 2%Z) ∧ (1 <= 2 <= 2)%Z.
Proof. split; [reflexivity|]. exact (get_page_spec PAR_PAGE (seq 0 11) (ArgStr "2") eq_refl). Defined.

(** [?page=7] on two pages is the last page. *)
Lemma get_page_out_of_range_witness :
  (0 < PAR_PAGE)%Z ∧ py_int_arg (ArgStr "7") = Some 7%Z ∧ (7 < 1 ∨ num_pages PAR_PAGE (seq 0 11) < 7)%Z ∧
  get_page PAR_PAGE (seq 0 11) (ArgStr "7") = inl (mkPage [10] 2%Z 2%Z) ∧
  (seq 0 11 ≠ [] → [10] ≠ []).
Proof.
  split_and!; [reflexivity|reflexivity|right; reflexivity|..];
    apply (get_page_out_of_range PAR_PAGE (seq 0 11) (ArgStr "7") 7); first [reflexivity|right; reflexivity].
Defined.


End Paginator.
