(* ===== verification/Feed.v ===== *)
(** * Feed: the query sets the list views paginate

    [Post.objects.all()], [group.posts.all()], [author.posts.all()],
    [Post.objects.filter(author__following__user=user)], [post.comments.all()]
    and the follow counters of the profile page, each as the rows it
    selects in the order [Post.Meta.ordering = ["-pub_date"]] gives. *)

From stdpp Require Import base list strings sorting sets gmap.
From Stdlib Require Import Lia.
From S2P Require Import Prelude Models Fixtures.

Open Scope yatube_scope.

Module Feed.
Import Models Fixtures.

(** [Post.objects.all()] *)
Definition all_posts (db : DB) : list Post := order_desc pub_date (posts db).

(** [group.posts.all()]: the reverse relation of [Post.group]. *)
Definition group_posts_qs (db : DB) (gid : nat) : list Post :=
  order_desc pub_date (filter (λ p, group p = Some gid) (posts db)).

(** [author.posts.all()]: the reverse relation of [Post.author]. *)
Definition author_posts_qs (db : DB) (uid : nat) : list Post :=
  order_desc pub_date (filter (λ p, author p = uid) (posts db)).

(** [Post.objects.filter(author__following__user=uid)]: the SQL join of
    each post with the follow rows whose [author] is the post's author
    and whose [user] is [uid]; a post comes out once per matching row. *)
Definition following_join (db : DB) (uid : nat) : list Post :=
  posts db ≫= (λ p, (λ _, p) <$> filter (λ f, follow_author f = author p ∧ follow_user f = uid)
                                         (follows db)).

Definition following_posts_qs (db : DB) (uid : nat) : list Post :=
  order_desc pub_date (following_join db uid).

(** [post.comments.all()]: [Comment] has no ordering, rows come in table
    order. *)
Definition post_comments (db : DB) (pid : nat) : list Comment :=
  filter (λ c, comment_post c = pid) (comments db).

(** [author.following.count()]: rows whose [author] is the user (the
    related name of [Follow.author] is [following]). *)
Definition followers_count (db : DB) (uid : nat) : nat :=
  qs_count (λ f, follow_author f = uid) (follows db).

(** [author.follower.count()]: rows whose [user] is the user. *)
Definition following_count (db : DB) (uid : nat) : nat :=
  qs_count (λ f, follow_user f = uid) (follows db).

(** [Follow.objects.filter(user=u, author=a).exists()] *)
Definition is_following (db : DB) (u a : nat) : bool :=
  qs_exists (λ f, follow_pair f = (u, a)) (follows db).

(** [Follow.objects.filter(user=u, author=a).count()], as the tests
    count follow edges. *)
Definition follow_edge_count (db : DB) (u a : nat) : nat :=
  qs_count (λ f, follow_pair f = (u, a)) (follows db).

(** ** Properties of the query sets *)

Lemma follow_edge_count_wf db u a :
  wf db →
  follow_edge_count db u a = if bool_decide ((u, a) ∈ follow_pair <$> follows db) then 1 else 0.
Proof. intros Hwf. apply filter_key_length, Hwf. Qed.

(** With the unique constraint on follow pairs, the join yields each
    followed author's post once: it is a filter on the posts table. *)
Lemma following_join_filter db uid :
  wf db →
  following_join db uid = filter (λ p, (uid, author p) ∈ follow_pair <$> follows db) (posts db).
Proof.
  intros Hwf. unfold following_join. induction (posts db) as [|p ps IH]; [done|].
  rewrite bind_cons, filter_cons, IH.
  rewrite (list_filter_iff _ (λ f, follow_pair f = (uid, author p))) by
    (intros f; unfold follow_pair; split; [intros [-> ->]|intros [=]]; done).
  rewrite (const_fmap _ _ p) by done.
  rewrite filter_key_length by apply (wf_follow_pairs _ Hwf).
  case_decide; [rewrite bool_decide_true|rewrite bool_decide_false]; done.
Qed.

(** A query set of the posts table restricted by [P] is the global feed
    restricted by [P]: every list view shows the posts in the order of the
    index page. *)
Lemma filtered_feed (P : Post → Prop) `{∀ p, Decision (P p)} db :
  wf db → order_desc pub_date (filter P (posts db)) = filter P (all_posts db).
Proof. intros Hwf. symmetry. apply order_desc_filter, (wf_post_dates _ Hwf). Qed.

(** Inserting a row keeps the older rows of the table and adds the new
    one last; the rows selected by [P] follow. *)
Lemma create_post_posts db txt a og img db' p :
  create_post db txt a og img = inl (db', p) →
  posts db' = posts db ++ [p] ∧ p = mkPost (next_post db) txt (clock db) a og img.
Proof. unfold create_post. case_decide; intros; by simplify_eq/=. Qed.

(** The new post is the newest row of any query set that selects it. *)
Lemma create_post_newest (P : Post → Prop) `{∀ p, Decision (P p)} db txt a og img db' p :
  wf db → create_post db txt a og img = inl (db', p) → P p →
  order_desc pub_date (filter P (posts db')) = p :: order_desc pub_date (filter P (posts db)).
Proof.
  intros Hwf Hc HP. destruct (create_post_posts _ _ _ _ _ _ _ Hc) as [-> ->].
  rewrite filter_app, filter_cons, decide_True by done. simpl.
  apply order_desc_snoc_newest; [apply keys_unique_filter, Hwf|].
  apply Forall_filter_sub. exact (wf_post_clock _ Hwf).
Qed.

(** C5: Publishing a post puts it at the head of the index, of its author's
    profile and of its group's page. *)
Theorem create_post_heads_feeds db txt a og img db' p :
  wf db → create_post db txt a og img = inl (db', p) →
  all_posts db' = p :: all_posts db ∧
  author_posts_qs db' a = p :: author_posts_qs db a ∧
  (∀ gid, og = Some gid → group_posts_qs db' gid = p :: group_posts_qs db gid).
Proof.
  intros Hwf Hc. destruct (create_post_posts _ _ _ _ _ _ _ Hc) as [_ Hp].
  split_and!.
  - unfold all_posts. rewrite <-(filter_True (posts db')), <-(filter_True (posts db)).
    exact (create_post_newest (λ _, True) db txt a og img db' p Hwf Hc I).
  - apply (create_post_newest (λ q, author q = a) db txt a og img db' p Hwf Hc). by subst p.
  - intros gid ->.
    apply (create_post_newest (λ q, group q = Some gid) db txt a _ img db' p Hwf Hc). by subst p.
Qed.

(** A post is on a group's page exactly when it belongs to that group: a
    post of group A never shows on the page of group B. *)
Theorem group_posts_member db gid p :
  p ∈ group_posts_qs db gid ↔ p ∈ posts db ∧ group p = Some gid.
Proof. unfold group_posts_qs. rewrite order_desc_elem_of, list_elem_of_filter. tauto. Qed.

(** [Follow.objects.filter(user=u, author=a).exists()] asks whether the
    pair is a row of the table. *)
Lemma is_following_pair db u a :
  is_following db u a = bool_decide ((u, a) ∈ follow_pair <$> follows db).
Proof.
  unfold is_following, qs_exists. apply bool_decide_ext.
  apply (filter_key_nonempty follow_pair).
Qed.

(** C10: The follow feed is the index restricted to the authors the user
    follows, each post once, newest first. *)
Theorem following_feed_spec db uid :
  wf db →
  following_posts_qs db uid = filter (λ p, is_following db uid (author p) = true) (all_posts db).
Proof.
  intros Hwf. unfold following_posts_qs. rewrite following_join_filter by done.
  rewrite (filtered_feed _ db Hwf). apply list_filter_iff. intros p.
  by rewrite is_following_pair, bool_decide_eq_true.
Qed.

(** Inserting a post leaves the follows table alone. *)
Lemma create_post_follows db txt a og img db' p :
  create_post db txt a og img = inl (db', p) → follows db' = follows db.
Proof. unfold create_post. case_decide; intros; by simplify_eq/=. Qed.

(** The new post of a followed author heads the follower's feed. *)
Lemma followed_post_heads_feed db txt a og img db' p u :
  wf db → (u, a) ∈ follow_pair <$> follows db → create_post db txt a og img = inl (db', p) →
  following_posts_qs db' u = p :: following_posts_qs db u.
Proof.
  intros Hwf Hf Hc. pose proof (create_post_wf _ _ _ _ _ _ _ Hwf Hc) as Hwf'.
  destruct (create_post_posts _ _ _ _ _ _ _ Hc) as [_ Hp].
  unfold following_posts_qs. rewrite !following_join_filter, (create_post_follows _ _ _ _ _ _ _ Hc) by done.
  apply (create_post_newest (λ q, (u, author q) ∈ follow_pair <$> follows db) db txt a og img);
    [done|done|by subst p].
Qed.

(** C9: A followed author's new post heads the follower's feed and stays
    out of the feed of a user who does not follow the author. *)
Theorem new_post_in_followers_feed db txt a og img db' p u u' :
  wf db → (u, a) ∈ follow_pair <$> follows db → (u', a) ∉ follow_pair <$> follows db →
  create_post db txt a og img = inl (db', p) →
  following_posts_qs db' u = p :: following_posts_qs db u ∧ p ∉ following_posts_qs db' u'.
Proof.
  intros Hwf Hf Hnf Hc. split; [by eapply followed_post_heads_feed|].
  destruct (create_post_posts _ _ _ _ _ _ _ Hc) as [Hps Hp].
  unfold following_posts_qs. rewrite following_join_filter, (create_post_follows _ _ _ _ _ _ _ Hc)
    by (by eapply create_post_wf).
  rewrite order_desc_elem_of, list_elem_of_filter. subst p. simpl. tauto.
Qed.

(** ** The admin's delete of a post *)

(** A write that keeps the posts selected by [Q] keeps them in every
    query set, in their order. *)
Lemma kept_posts_filtered (P Q : Post → Prop) `{∀ p, Decision (P p)} `{∀ p, Decision (Q p)} db db' :
  wf db → posts db' = filter Q (posts db) →
  order_desc pub_date (filter P (posts db')) = filter Q (order_desc pub_date (filter P (posts db))).
Proof.
  intros Hwf ->. rewrite order_desc_filter
    by (apply keys_unique_filter, (wf_post_dates _ Hwf)).
  rewrite !list_filter_filter. f_equal. apply list_filter_iff. tauto.
Qed.

(** A filtered query set after the delete is the one before, less the
    post. *)
Lemma delete_post_filtered (P : Post → Prop) `{∀ p, Decision (P p)} db pid :
  wf db →
  order_desc pub_date (filter P (posts (delete_post db pid))) =
    filter (λ p, post_id p ≠ pid) (order_desc pub_date (filter P (posts db))).
Proof. intros Hwf. by apply kept_posts_filtered. Qed.

(** C38: Deleting a post from the admin takes it off the index, its
    group's page, its author's profile and every follow feed, and leaves
    the other posts of each list in their order. *)
Theorem delete_post_feeds db pid gid uid :
  wf db →
  all_posts (delete_post db pid) = filter (λ p, post_id p ≠ pid) (all_posts db) ∧
  group_posts_qs (delete_post db pid) gid = filter (λ p, post_id p ≠ pid) (group_posts_qs db gid) ∧
  author_posts_qs (delete_post db pid) uid = filter (λ p, post_id p ≠ pid) (author_posts_qs db uid) ∧
  following_posts_qs (delete_post db pid) uid = filter (λ p, post_id p ≠ pid) (following_posts_qs db uid).
Proof.
  intros Hwf. unfold all_posts, group_posts_qs, author_posts_qs, following_posts_qs.
  rewrite !following_join_filter by auto using delete_post_wf.
  split_and!; try by apply delete_post_filtered.
  rewrite <-(filter_True (posts (delete_post db pid))), <-(filter_True (posts db)).
  by apply delete_post_filtered.
Qed.

(** ** Witnesses: the [PagesTests] and [FollowViewsTest] cases *)

Local Open Scope string_scope.

(** [test_index_shows_new_post], [test_group_1_shows_new_post],
    [test_profile_new_post]: a second post by "user" in "test-slug". *)
Lemma create_post_heads_feeds_witness :
  wf pages_db ∧
  create_post pages_db "index" 1 (Some 1) "" =
    inl (after (create_post pages_db "index" 1 (Some 1) ""), mkPost 2 "index" 2 1 (Some 1) "") ∧
  (all_posts (after (create_post pages_db "index" 1 (Some 1) "")) =
     mkPost 2 "index" 2 1 (Some 1) "" :: all_posts pages_db ∧
   author_posts_qs (after (create_post pages_db "index" 1 (Some 1) "")) 1 =
     mkPost 2 "index" 2 1 (Some 1) "" :: author_posts_qs pages_db 1 ∧
   (∀ gid, Some 1 = Some gid →
      group_posts_qs (after (create_post pages_db "index" 1 (Some 1) "")) gid =
      mkPost 2 "index" 2 1 (Some 1) "" :: group_posts_qs pages_db gid)).
Proof.
  assert (Hw : wf pages_db) by by_eval.
  assert (Hc : create_post pages_db "index" 1 (Some 1) "" =
    inl (after (create_post pages_db "index" 1 (Some 1) ""), mkPost 2 "index" 2 1 (Some 1) ""))
    by reflexivity.
  exact (conj Hw (conj Hc (create_post_heads_feeds _ _ _ _ _ _ _ Hw Hc))).
Defined.

(** [test_post_in_follower_index], [test_post_not_in_user_index]:
    "follower" (2) follows "author" (3), "user" (1) does not. *)
Definition followed_db : DB := after (create_follow follow_db 2 3).

Lemma new_post_in_followers_feed_witness :
  wf followed_db ∧ ((2, 3) ∈ follow_pair <$> follows followed_db) ∧
  ((1, 3) ∉ follow_pair <$> follows followed_db) ∧
  create_post followed_db "new" 3 None "" =
    inl (after (create_post followed_db "new" 3 None ""), mkPost 2 "new" 2 3 None "") ∧
  (following_posts_qs (after (create_post followed_db "new" 3 None "")) 2 =
     mkPost 2 "new" 2 3 None "" :: following_posts_qs followed_db 2 ∧
   mkPost 2 "new" 2 3 None "" ∉ following_posts_qs (after (create_post followed_db "new" 3 None "")) 1).
Proof.
  assert (Hw : wf followed_db) by by_eval.
  assert (Hf : (2, 3) ∈ follow_pair <$> follows followed_db) by by_eval.
  assert (Hn : (1, 3) ∉ follow_pair <$> follows followed_db) by by_eval.
  assert (Hc : create_post followed_db "new" 3 None "" =
    inl (after (create_post followed_db "new" 3 None ""), mkPost 2 "new" 2 3 None "")) by reflexivity.
  exact (conj Hw (conj Hf (conj Hn (conj Hc (new_post_in_followers_feed _ _ _ _ _ _ _ _ _ Hw Hf Hn Hc))))).
Defined.

Lemma following_feed_spec_witness :
  wf followed_db ∧
  following_posts_qs followed_db 2 =
    filter (λ p, is_following followed_db 2 (author p) = true) (all_posts followed_db).
Proof.
  assert (Hw : wf followed_db) by by_eval.
  exact (conj Hw (following_feed_spec followed_db 2 Hw)).
Defined.

(** The admin deletes post 1 of [PagesTests]. *)
Lemma delete_post_feeds_witness :
  wf pages_db ∧
  all_posts (delete_post pages_db 1) = filter (λ p, post_id p ≠ 1) (all_posts pages_db) ∧
  group_posts_qs (delete_post pages_db 1) 1 = filter (λ p, post_id p ≠ 1) (group_posts_qs pages_db 1) ∧
  author_posts_qs (delete_post pages_db 1) 1 = filter (λ p, post_id p ≠ 1) (author_posts_qs pages_db 1) ∧
  following_posts_qs (delete_post pages_db 1) 1 = filter (λ p, post_id p ≠ 1) (following_posts_qs pages_db 1).
Proof.
  assert (Hw : wf pages_db) by by_eval.
  exact (conj Hw (delete_post_feeds pages_db 1 1 1 Hw)).
Defined.

End Feed.
