(* ===== verification/Forms.v ===== *)
(** * Forms: [PostForm] and [CommentForm], the interface the views rely on

    [posts/forms.py] is not among the sources.  The views only use a form
    through [is_valid()], [save(commit=False)] and [save()], so the forms
    are an interface here: [FormBackend] says what a form returns for the
    submitted data, and the one law the views need (a cleaned group
    exists, as [ModelChoiceField] checks).  The theorems of [Views] hold
    for every instance.  [django_forms] is the instance modelled from the
    spec and the tests: [PostForm] is a [ModelForm] on [text], [group],
    [image]; [CommentForm] on [text]; the fields behave as Django's
    defaults ([CharField(strip=True)], required; [ModelChoiceField],
    optional; [ImageField], optional, stored under [upload_to="posts/"]). *)

From stdpp Require Import base list strings.
From Stdlib Require Import String Ascii ZArith Lia.
From S2P Require Import Prelude Models Text Paginator.

Open Scope yatube_scope.

Module Forms.
Import Models Text Paginator.

(** An uploaded file: its name and whether Pillow accepts it as an image. *)
Record Upload := mkUpload { upload_name : string; upload_is_image : bool }.

(** The submitted body of a bound form ([request.POST] and
    [request.FILES]): each key may be missing. *)
Record FormData := mkFormData {
  fd_text : option string;
  fd_group : option string;
  fd_image : option Upload }.

#[export] Instance Upload_eq_dec : EqDecision Upload.
Proof. solve_decision. Defined.
#[export] Instance FormData_eq_dec : EqDecision FormData.
Proof. solve_decision. Defined.

(** [form.cleaned_data] of a valid [PostForm]. [pc_image] is the stored
    name of a new upload, [None] when no file was sent. *)
Record PostClean := mkPostClean {
  pc_text : string;
  pc_group : option nat;
  pc_image : option string }.

Class FormBackend := {
  clean_post : DB → FormData → option PostClean;
  clean_comment : FormData → option string;
  clean_post_group : ∀ db d c, clean_post db d = Some c → group_ref_ok db (pc_group c) }.

(** [ModelForm.save(commit=False)] for a new post: the cleaned fields;
    [ImageField(blank=True)] stores [""] when no file came. *)
Definition new_post_fields (c : PostClean) : string * option nat * string :=
  (pc_text c, pc_group c, default "" (pc_image c)).

(** [ModelForm(instance=post).save()]: [construct_instance] copies the
    cleaned fields into the instance; a file field with no upload keeps
    the instance's file. *)
Definition edit_instance (p : Post) (c : PostClean) : Post :=
  mkPost (post_id p) (pc_text c) (pub_date p) (author p) (pc_group c)
         (default (image p) (pc_image c)).

(** ** Django's field cleaning *)

(** [str.strip()] *)
Definition py_strip (s : string) : string :=
  string_of_list_ascii (strip (list_ascii_of_string s)).

(** [CharField(required=True, strip=True).clean]: a missing key is [""];
    the value is stripped, and an empty result is a validation error. *)
Definition clean_char (v : option string) : option string :=
  let s := py_strip (default "" v) in
  if bool_decide (s = "") then None else Some s.

(** [ModelChoiceField(required=False).clean] on [Group]: an empty value is
    [None]; otherwise [Group.objects.get(pk=value)], where the primary key
    is read with [int()], and a bad or unknown key is [invalid_choice]. *)
Definition clean_group (db : DB) (v : option string) : option (option nat) :=
  match v with
  | None => Some None
  | Some s =>
      if bool_decide (s = "") then Some None else
      match py_int s with
      | Some n => if decide ((0 ≤ n)%Z ∧ group_exists db (Z.to_nat n))
                  then Some (Some (Z.to_nat n)) else None
      | None => None
      end
  end.

(** [ImageField(upload_to="posts/", blank=True).clean]: no file is fine;
    a file Pillow cannot open is [invalid_image]. *)
Definition clean_image (v : option Upload) : option (option string) :=
  match v with
  | None => Some None
  | Some u => if upload_is_image u then Some (Some ("posts/" ++ upload_name u)%string) else None
  end.

Definition django_clean_post (db : DB) (d : FormData) : option PostClean :=
  t ← clean_char (fd_text d);
  g ← clean_group db (fd_group d);
  i ← clean_image (fd_image d);
  Some (mkPostClean t g i).

Definition django_clean_comment (d : FormData) : option string := clean_char (fd_text d).

Lemma django_clean_post_group db d c :
  django_clean_post db d = Some c → group_ref_ok db (pc_group c).
Proof.
  unfold django_clean_post, clean_group.
  destruct (clean_char _) as [txt|]; simpl; [|done].
  destruct (fd_group d) as [v|]; simpl.
  - case_bool_decide.
    + destruct (clean_image _); intros; simplify_eq/=; done.
    + destruct (py_int v) as [n|]; [|done]. case_decide as Hn; [|done].
      destruct (clean_image _); intros; simplify_eq/=. destruct Hn. done.
  - destruct (clean_image _); intros; simplify_eq/=; done.
Qed.

#[export] Instance django_forms : FormBackend := {|
  clean_post := django_clean_post;
  clean_comment := django_clean_comment;
  clean_post_group := django_clean_post_group |}.

(** ** The fields of [PostForm]

    [ModelForm] builds a form field from each model field of
    [Meta.fields] with [Field.formfield()]: a [TextField] gives a
    [CharField], a [ForeignKey] a [ModelChoiceField], an [ImageField] a
    form [ImageField]; a non-editable field gives none. *)
Inductive FormField :=
  | FField | FCharField | FChoiceField | FModelChoiceField | FFileField | FImageField | FDateTimeField.

#[export] Instance FormField_eq_dec : EqDecision FormField.
Proof. solve_decision. Defined.

(** The base class of each form field class. *)
Definition form_parent (c : FormField) : option FormField :=
  match c with
  | FField => None
  | FModelChoiceField => Some FChoiceField
  | FImageField => Some FFileField
  | _ => Some FField
  end.

(** [type(c).__mro__]: the chain of base classes, at most three long. *)
Definition mro (c : FormField) : list FormField :=
  c :: match form_parent c with
       | Some p => p :: match form_parent p with Some q => [q] | None => [] end
       | None => []
       end.

(** [isinstance(field, t)] *)
Definition is_instance (c t : FormField) : bool := bool_decide (t ∈ mro c).

Definition formfield (k : ModelField) : option FormField :=
  match k with
  | MAutoField | MDateTimeField true => None
  | MTextField => Some FCharField
  | MDateTimeField false => Some FDateTimeField
  | MForeignKey => Some FModelChoiceField
  | MImageField => Some FImageField
  end.

(** [PostForm.Meta.fields] *)
Definition post_form_meta_fields : list string := ["text"; "group"; "image"]%string.

(** [PostForm().fields]: the form field of each name of [Meta.fields]. *)
Definition post_form_fields : list (string * FormField) :=
  omap (λ n, k ← snd <$> head (filter (λ e, e.1 = n) post_field_kinds); f ← formfield k; Some (n, f))
       post_form_meta_fields.

End Forms.
