(* ===== verification/Views.v ===== *)
(** * Views: the request handlers of [posts/views.py]

    Each view is a function from the database and the request to the new
    database and the response.  [login_required] and [get_object_or_404]
    are the two guards the views compose; an exception the views do not
    catch ([MultipleObjectsReturned], [IntegrityError], a paginator error)
    is a [ServerError] response, Django's 500.  The views are written
    against the [FormBackend] interface of [Forms]. *)

From stdpp Require Import base list strings sorting sets gmap.
From Stdlib Require Import String Lia.
From S2P Require Import Prelude Models Fixtures Paginator Feed Forms.

Open Scope yatube_scope.

Module Views.
Import Models Fixtures Paginator Feed Forms.

(** ** Requests and responses *)

(** The app's named routes ([posts/urls.py], not among the sources: the
    paths are those the tests use) and the login page of the auth app. *)
Inductive Url :=
  | UIndex                          (** [/] *)
  | UGroup (slug : string)          (** [/group/<slug>/] *)
  | UProfile (name : string)        (** [/profile/<username>/] *)
  | UPostDetail (pid : nat)         (** [/posts/<post_id>/] *)
  | UPostCreate                     (** [/create/] *)
  | UPostEdit (pid : nat)           (** [/posts/<post_id>/edit/] *)
  | UAddComment (pid : nat)         (** [/posts/<post_id>/comment/] *)
  | UFollowIndex                    (** [/follow/] *)
  | UProfileFollow (name : string)  (** [/profile/<username>/follow/] *)
  | UProfileUnfollow (name : string)(** [/profile/<username>/unfollow/] *)
  | ULogin (next : Url).            (** [/auth/login/?next=<path>] *)

#[export] Instance Url_eq_dec : EqDecision Url.
Proof. solve_decision. Defined.

Record Request := mkRequest {
  req_session : option nat;        (** the user id of the session, if any *)
  req_path : Url;
  req_page : option string;        (** [request.GET.get("page")] *)
  req_data : option FormData }.    (** [request.POST or None] *)

(** [AuthenticationMiddleware]: [request.user] is the session's user, or
    [AnonymousUser] when there is no session or the user is gone. *)
Definition request_user (db : DB) (req : Request) : option User :=
  uid ← req_session req; head (filter (λ u, user_id u = uid) (users db)).

(** The unbound form, or the form bound to data that did not validate. *)
Inductive FormView := Unbound | Invalid (d : FormData).

Inductive Template := TIndex | TGroupList | TProfile | TPostDetail | TPostCreate | TFollow.

Inductive Context :=
  | CtxIndex (page_obj : Page Post) (title : string)
  | CtxGroup (grp : Group) (page_obj : Page Post) (title : string)
  | CtxProfile (title : string) (page_obj : Page Post) (counter_posts : nat)
               (author : User) (following : bool) (followers : nat) (followings : nat)
  | CtxDetail (title : string) (post : Post) (counter_posts : nat) (form : FormView)
              (comments : list Comment)
  | CtxCreate (form : FormView)
  | CtxEdit (post : Post) (form : FormView) (edit : bool)
  | CtxFollow (page_obj : Page Post) (paginator : Paginator Post) (title : string).

Inductive Response :=
  | Render (t : Template) (c : Context)
  | Redirect (u : Url)
  | NotFound
  | ServerError.

#[export] Instance FormView_eq_dec : EqDecision FormView.
Proof. solve_decision. Defined.
#[export] Instance Template_eq_dec : EqDecision Template.
Proof. solve_decision. Defined.
#[export] Instance Context_eq_dec : EqDecision Context.
Proof. solve_decision. Defined.
#[export] Instance Response_eq_dec : EqDecision Response.
Proof. solve_decision. Defined.

Definition View := DB → Request → DB * Response.

(** ** The guards *)

(** [@login_required]: an anonymous request is sent to the login page
    with the path it asked for ([request.get_full_path()]; the request
    keeps no query string but its [page] value, so [next] is the route). *)
Definition login_required (v : User → View) : View := λ db req,
  match request_user db req with
  | Some u => v u db req
  | None => (db, Redirect (ULogin (req_path req)))
  end.

(** [get_object_or_404]: [Http404] on [DoesNotExist]; any other exception
    propagates. *)
Definition or_404 {A} (db : DB) (r : A + OrmError) (k : A → DB * Response) : DB * Response :=
  match r with
  | inl x => k x
  | inr DoesNotExist => (db, NotFound)
  | inr _ => (db, ServerError)
  end.

(** An ORM write that may raise. *)
Definition or_500 {A} (db : DB) (r : A + OrmError) (k : A → DB * Response) : DB * Response :=
  match r with inl x => k x | inr _ => (db, ServerError) end.

(** [Paginator(objects, settings.PAR_PAGE).get_page(request.GET.get("page"))] *)
Definition paginate (req : Request) (objects : list Post) : Page Post + PageError :=
  get_page PAR_PAGE objects (match req_page req with Some s => ArgStr s | None => ArgNone end).

Definition render_page (db : DB) (req : Request) (objects : list Post)
    (k : Page Post → Response) : DB * Response :=
  match paginate req objects with inl pg => (db, k pg) | inr _ => (db, ServerError) end.

Definition get_group_by_slug (db : DB) (s : string) : Group + OrmError :=
  qs_get (λ g, slug g = s) (groups db).
Definition get_user_by_name (db : DB) (name : string) : User + OrmError :=
  qs_get (λ u, username u = name) (users db).
Definition get_post (db : DB) (pid : nat) : Post + OrmError :=
  qs_get (λ p, post_id p = pid) (posts db).

Section views.
Context `{FormBackend}.

Definition index : View := λ db req,
  render_page db req (all_posts db)
    (λ pg, Render TIndex (CtxIndex pg "Последние обновления на сайте")).

Definition group_posts (s : string) : View := λ db req,
  or_404 db (get_group_by_slug db s) (λ g,
    render_page db req (group_posts_qs db (group_id g))
      (λ pg, Render TGroupList (CtxGroup g pg ("Записи сообщества " ++ title g)%string))).

Definition profile (name : string) : View := λ db req,
  or_404 db (get_user_by_name db name) (λ a,
    let objects := author_posts_qs db (user_id a) in
    let following := match request_user db req with
                     | Some u => is_following db (user_id u) (user_id a)
                     | None => false
                     end in
    render_page db req objects (λ pg,
      Render TProfile (CtxProfile ("Профайл пользователя " ++ username a)%string pg
        (Datatypes.length objects) a following
        (followers_count db (user_id a)) (following_count db (user_id a))))).

Definition post_detail (pid : nat) : View := λ db req,
  or_404 db (get_post db pid) (λ p,
    (db, Render TPostDetail (CtxDetail (text p) p
           (Datatypes.length (author_posts_qs db (author p))) Unbound (post_comments db pid)))).

Definition post_create : View := login_required (λ u db req,
  match req_data req with
  | None => (db, Render TPostCreate (CtxCreate Unbound))
  | Some d =>
      match clean_post db d with
      | None => (db, Render TPostCreate (CtxCreate (Invalid d)))
      | Some c =>
          let '(t, g, i) := new_post_fields c in
          or_500 db (create_post db t (user_id u) g i)
            (λ '(db', _), (db', Redirect (UProfile (username u))))
      end
  end).

Definition post_edit (pid : nat) : View := login_required (λ u db req,
  or_404 db (get_post db pid) (λ p,
    if decide (user_id u ≠ author p) then (db, Redirect (UPostDetail pid)) else
    match req_data req with
    | None => (db, Render TPostCreate (CtxEdit p Unbound true))
    | Some d =>
        match clean_post db d with
        | None => (db, Render TPostCreate (CtxEdit p (Invalid d) true))
        | Some c =>
            or_500 db (save_post db (edit_instance p c))
              (λ db', (db', Redirect (UPostDetail pid)))
        end
    end)).

Definition add_comment (pid : nat) : View := login_required (λ u db req,
  or_404 db (get_post db pid) (λ _,
    match req_data req ≫= clean_comment with
    | Some t =>
        or_500 db (create_comment db pid (user_id u) t)
          (λ '(db', _), (db', Redirect (UPostDetail pid)))
    | None => (db, Redirect (UPostDetail pid))
    end)).

Definition follow_index : View := login_required (λ u db req,
  let posts_list := following_posts_qs db (user_id u) in
  render_page db req posts_list
    (λ pg, Render TFollow (CtxFollow pg (mkPaginator posts_list PAR_PAGE) "Подписки"))).

Definition profile_follow (name : string) : View := login_required (λ u db req,
  or_404 db (get_user_by_name db name) (λ a,
    if decide (user_id u ≠ user_id a) then
      or_500 db (follow_get_or_create db (user_id u) (user_id a))
        (λ '(db', _, _), (db', Redirect (UProfile name)))
    else (db, Redirect (UProfile name)))).

Definition profile_unfollow (name : string) : View := login_required (λ u db req,
  or_404 db (get_user_by_name db name) (λ a,
    (follow_filter_delete db (user_id u) (user_id a), Redirect (UProfile name)))).

(** The urlconf of the app: which view serves which path.  The login
    page belongs to the auth app. *)
Definition resolve (u : Url) : option View :=
  match u with
  | UIndex => Some index
  | UGroup s => Some (group_posts s)
  | UProfile n => Some (profile n)
  | UPostDetail pid => Some (post_detail pid)
  | UPostCreate => Some post_create
  | UPostEdit pid => Some (post_edit pid)
  | UAddComment pid => Some (add_comment pid)
  | UFollowIndex => Some follow_index
  | UProfileFollow n => Some (profile_follow n)
  | UProfileUnfollow n => Some (profile_unfollow n)
  | ULogin _ => None
  end.

(** One request to the app; [None] when the path is not the app's. *)
Definition handle (db : DB) (req : Request) : option (DB * Response) :=
  (λ v, v db req) <$> resolve (req_path req).
End views.

(** ** Lookups on a well-formed database *)

Lemma request_user_in db req u : request_user db req = Some u → u ∈ users db.
Proof.
  unfold request_user. destruct (req_session req) as [uid|]; [simpl|done].
  intros Hh. apply head_Some_elem_of in Hh. by apply list_elem_of_filter in Hh as [_ ?].
Qed.

Lemma request_user_exists db req u :
  request_user db req = Some u → user_exists db (user_id u).
Proof. intros Hu%request_user_in. by apply list_elem_of_fmap_2. Qed.

Lemma get_post_found db p : wf db → p ∈ posts db → get_post db (post_id p) = inl p.
Proof.
  intros Hwf Hp. unfold get_post.
  destruct (qs_get_key post_id (posts db) (post_id p)) as [[_ Hn]|(q & -> & Hq & Hk)];
    [apply Hwf| |].
  - destruct Hn. by apply list_elem_of_fmap_2.
  - f_equal. by apply (keys_unique_inj post_id (posts db)); [apply Hwf|..].
Qed.

Lemma get_user_found db a : wf db → a ∈ users db → get_user_by_name db (username a) = inl a.
Proof.
  intros Hwf Ha. unfold get_user_by_name.
  destruct (qs_get_key username (users db) (username a)) as [[_ Hn]|(b & -> & Hb & Hk)];
    [apply Hwf| |].
  - destruct Hn. by apply list_elem_of_fmap_2.
  - f_equal. by apply (NoDup_fmap_inj username (users db)); [apply Hwf|..].
Qed.

Lemma get_group_found db g : wf db → g ∈ groups db → get_group_by_slug db (slug g) = inl g.
Proof.
  intros Hwf Hg. unfold get_group_by_slug.
  destruct (qs_get_key slug (groups db) (slug g)) as [[_ Hn]|(h & -> & Hh & Hk)];
    [apply Hwf| |].
  - destruct Hn. by apply list_elem_of_fmap_2.
  - f_equal. by apply (NoDup_fmap_inj slug (groups db)); [apply Hwf|..].
Qed.

(** The page a request asks for, as [Paginator] computes it. *)
Definition page_arg (req : Request) : PageArg :=
  match req_page req with Some s => ArgStr s | None => ArgNone end.

Definition page_of (req : Request) (objects : list Post) : Page Post :=
  let np := num_pages PAR_PAGE objects in
  let n := requested_page np (page_arg req) in
  mkPage (page_slice PAR_PAGE n objects) n np.

Lemma paginate_page_of req objects : paginate req objects = inl (page_of req objects).
Proof.
  destruct (get_page_number_spec PAR_PAGE objects ltac:(done) (page_arg req)) as [Hn Hr].
  unfold paginate, get_page, page_of. fold (page_arg req). rewrite <-Hn.
  by apply page_in_range.
Qed.

(** The request of the link ["?page={{ n }}"] a page template prints for
    each number of [page_obj.paginator.page_range]: [req] with the
    number as [str()] prints it. *)
Definition page_link (req : Request) (n : Z) : Request :=
  mkRequest (req_session req) (req_path req) (Some (string_of_list_ascii (int_repr n))) (req_data req).

(** C17: Following the page links of a list view in turn, [paginate]
    never raises and the pages it returns, read in order, give back the
    whole list: every post shows on exactly one page. *)
Theorem pages_partition (objects : list Post) (req : Request) :
  ∃ pgs, Forall2 (λ n pg, paginate (page_link req n) objects = inl pg) (page_range PAR_PAGE objects) pgs ∧
         List.concat (object_list <$> pgs) = objects.
Proof.
  apply (pages_partition_args PAR_PAGE objects (λ n, ArgStr (string_of_list_ascii (int_repr n)))); [done|].
  intros n _. pose proof (py_int_roundtrip n [] [] (Forall_nil_2 _) (Forall_nil_2 _)) as Hr.
  by rewrite app_nil_r in Hr.
Qed.

Lemma render_page_ok db req objects k :
  render_page db req objects k = (db, k (page_of req objects)).
Proof. unfold render_page. by rewrite paginate_page_of. Qed.

(** ** The guards *)

(** The paths served by a view under [@login_required]. *)
Definition login_only (u : Url) : bool :=
  match u with
  | UPostCreate | UPostEdit _ | UAddComment _ | UFollowIndex
  | UProfileFollow _ | UProfileUnfollow _ => true
  | _ => false
  end.

Section guards.
Context `{FormBackend}.

(** C2: An anonymous request to a view behind [@login_required] changes
    nothing and is sent to the login page with the path it asked for
    (the [?next=] of the redirect). *)
Theorem anonymous_redirected_to_login db req :
  login_only (req_path req) = true → request_user db req = None →
  handle db req = Some (db, Redirect (ULogin (req_path req))).
Proof.
  intros Hl Hanon. unfold handle.
  destruct (req_path req) eqn:Ep; try done; simpl;
    unfold post_create, post_edit, add_comment, follow_index, profile_follow,
           profile_unfollow, login_required;
    by rewrite Hanon, Ep.
Qed.

(** C3: A signed-in user who is not the author of a post is sent back to
    the post when they open its edit page or submit it; nothing is
    saved. *)
Theorem post_edit_non_author db req u p :
  wf db → request_user db req = Some u → p ∈ posts db → user_id u ≠ author p →
  post_edit (post_id p) db req = (db, Redirect (UPostDetail (post_id p))).
Proof.
  intros Hwf Hu Hp Hne. unfold post_edit, login_required. rewrite Hu. simpl.
  rewrite get_post_found by done. simpl. by rewrite decide_True.
Qed.
End guards.

(** ** Writing posts and comments *)

Section writes.
Context `{FormBackend}.

(** A valid post form from a signed-in user is one insert. *)
Lemma post_create_inserts db req u d c :
  wf db → request_user db req = Some u → req_data req = Some d → clean_post db d = Some c →
  ∃ db' p, create_post db (pc_text c) (user_id u) (pc_group c) (default "" (pc_image c)) = inl (db', p) ∧
           post_create db req = (db', Redirect (UProfile (username u))).
Proof.
  intros Hwf Hu Hd Hc. unfold post_create, login_required. rewrite Hu, Hd, Hc. simpl.
  unfold create_post. rewrite decide_True
    by (split; [by eapply request_user_exists|by eapply clean_post_group]).
  by do 2 eexists.
Qed.

(** C4: A valid post form from a signed-in user inserts the post, with the
    user as author and the clock as [pub_date], redirects to the
    user's profile, and the post heads the index. *)
Theorem post_create_publishes db req u d c :
  wf db → request_user db req = Some u → req_data req = Some d → clean_post db d = Some c →
  let p := mkPost (next_post db) (pc_text c) (clock db) (user_id u) (pc_group c)
                  (default "" (pc_image c)) in
  ∃ db', post_create db req = (db', Redirect (UProfile (username u))) ∧
         posts db' = posts db ++ [p] ∧ all_posts db' = p :: all_posts db.
Proof.
  intros Hwf Hu Hd Hc p.
  destruct (post_create_inserts db req u d c) as (db' & q & Hcr & ->); [done..|].
  destruct (create_post_posts _ _ _ _ _ _ _ Hcr) as [Hps ->].
  exists db'. split_and!; [done|done|]. unfold all_posts. rewrite Hps.
  apply order_desc_snoc_newest; [apply Hwf|apply (wf_post_clock _ Hwf)].
Qed.

(** C12: The author's valid edit rewrites the post in place: same key, same
    author, same [pub_date], the form's text, group and image. *)
Theorem post_edit_author_saves db req u p d c :
  wf db → request_user db req = Some u → p ∈ posts db → author p = user_id u →
  req_data req = Some d → clean_post db d = Some c →
  post_edit (post_id p) db req =
    (set_posts db (replace_row post_id (edit_instance p c) (posts db)),
     Redirect (UPostDetail (post_id p))).
Proof.
  intros Hwf Hu Hp Ha Hd Hc. unfold post_edit, login_required. rewrite Hu. simpl.
  rewrite get_post_found by done. simpl. rewrite decide_False by auto.
  rewrite Hd, Hc. unfold save_post. simpl.
  pose proof (wf_post_refs _ Hwf) as Hrefs. rewrite Forall_forall in Hrefs.
  destruct (Hrefs p Hp) as [Hau _].
  rewrite decide_True by (split; [done|by eapply clean_post_group]).
  by rewrite decide_True by (by apply list_elem_of_fmap_2).
Qed.

(** C13: A valid comment from a signed-in user on an existing post is stored
    with the user, the post and the clock; the user is sent back to the
    post. *)
Theorem add_comment_persists db req u p t :
  wf db → request_user db req = Some u → p ∈ posts db →
  req_data req ≫= clean_comment = Some t →
  add_comment (post_id p) db req =
    (mkDB (users db) (groups db) (posts db)
          (comments db ++ [mkComment (next_comment db) (post_id p) (user_id u) (clock db) t])
          (follows db) (S (clock db)) (next_user db) (next_group db) (next_post db)
          (S (next_comment db)) (next_follow db),
     Redirect (UPostDetail (post_id p))).
Proof.
  intros Hwf Hu Hp Ht. unfold add_comment, login_required. rewrite Hu. simpl.
  rewrite get_post_found by done. simpl. rewrite Ht. unfold create_comment.
  rewrite decide_True; [done|]. split; [by apply list_elem_of_fmap_2|by eapply request_user_exists].
Qed.

(** C14: A comment form that does not validate is dropped without a word:
    the user is sent back to the post, no form with errors is shown, and
    nothing is stored. *)
Theorem add_comment_invalid_redirects db req u p :
  wf db → request_user db req = Some u → p ∈ posts db →
  req_data req ≫= clean_comment = None →
  add_comment (post_id p) db req = (db, Redirect (UPostDetail (post_id p))).
Proof.
  intros Hwf Hu Hp Ht. unfold add_comment, login_required. rewrite Hu. simpl.
  rewrite get_post_found by done. simpl. by rewrite Ht.
Qed.
End writes.

(** ** Following *)

Section follow.
Context `{FormBackend}.

(** C6: Following an author leaves exactly one follow edge from the user to
    the author, whether or not it was there before: following twice
    keeps the count at one. *)
Theorem profile_follow_one_edge db req u a :
  wf db → request_user db req = Some u → a ∈ users db → user_id u ≠ user_id a →
  ∃ db', profile_follow (username a) db req = (db', Redirect (UProfile (username a))) ∧
         follow_edge_count db' (user_id u) (user_id a) = 1.
Proof.
  intros Hwf Hu Ha Hne. unfold profile_follow, login_required. rewrite Hu. simpl.
  rewrite get_user_found by done. simpl. rewrite decide_True by done.
  destruct (follow_get_or_create_spec db (user_id u) (user_id a))
    as (db' & f & c & Hgoc & Hf & Hin & _ & _);
    [done|by eapply request_user_exists|by apply list_elem_of_fmap_2|].
  rewrite Hgoc. exists db'. split; [done|].
  rewrite follow_edge_count_wf by (by eapply follow_get_or_create_wf).
  rewrite bool_decide_true; [done|]. rewrite <-Hf. by apply list_elem_of_fmap_2.
Qed.

(** C7: Unfollowing takes out exactly the follow row from the user to the
    author: every other row, of the user's or of anyone's, stays, and so
    does every other table; when the user does not follow the author the
    request changes nothing. *)
Theorem profile_unfollow_spec db req u a :
  wf db → request_user db req = Some u → a ∈ users db →
  ∃ db', profile_unfollow (username a) db req = (db', Redirect (UProfile (username a))) ∧
    db' = set_follows db (follows db') ∧
    (∀ f, f ∈ follows db' ↔ f ∈ follows db ∧ follow_pair f ≠ (user_id u, user_id a)) ∧
    ((user_id u, user_id a) ∉ follow_pair <$> follows db → db' = db).
Proof.
  intros Hwf Hu Ha. unfold profile_unfollow, login_required. rewrite Hu. simpl.
  rewrite get_user_found by done. eexists. split_and!; [done..| |].
  - intros f. unfold follow_filter_delete. simpl. rewrite list_elem_of_filter. tauto.
  - intros Hn. unfold follow_filter_delete, set_follows. rewrite filter_all; [by destruct db|].
    apply Forall_forall. intros f Hf Heq. apply Hn. rewrite <-Heq. by apply list_elem_of_fmap_2.
Qed.

(** C18: Following an author one did not follow and then unfollowing them
    gives back the tables as they were: the follow request adds a row,
    the unfollow request takes exactly that row out again, and no other
    table is touched by either (only the key sequence has moved on). *)
Theorem follow_unfollow_roundtrip db req u a :
  wf db → request_user db req = Some u → a ∈ users db → user_id u ≠ user_id a →
  (user_id u, user_id a) ∉ follow_pair <$> follows db →
  ∃ db1 db2,
    profile_follow (username a) db req = (db1, Redirect (UProfile (username a))) ∧
    profile_unfollow (username a) db1 req = (db2, Redirect (UProfile (username a))) ∧
    follows db1 ≠ follows db ∧
    users db2 = users db ∧ groups db2 = groups db ∧ posts db2 = posts db ∧
    comments db2 = comments db ∧ follows db2 = follows db.
Proof.
  intros Hwf Hu Ha Hne Hn. unfold profile_follow, login_required. rewrite Hu. simpl.
  rewrite get_user_found by done. simpl. rewrite decide_True by done.
  unfold follow_get_or_create, qs_get. rewrite filter_key_nil by done.
  unfold create_follow. rewrite decide_True
    by (split_and!; [by eapply request_user_exists|by apply list_elem_of_fmap_2|done]).
  simpl. eexists _, _. split; [reflexivity|].
  assert (Hu1 : ∀ d, users d = users db → request_user d req = Some u)
    by (intros d Hd; unfold request_user; rewrite Hd; exact Hu).
  assert (Ha1 : ∀ d, users d = users db → get_user_by_name d (username a) = inl a)
    by (intros d Hd; unfold get_user_by_name; rewrite Hd; by apply get_user_found).
  unfold profile_unfollow, login_required. rewrite Hu1 by done. simpl. rewrite Ha1 by done. simpl.
  split; [reflexivity|]. split_and!; try done.
  - intros Heq. apply (f_equal Datatypes.length) in Heq. rewrite length_app in Heq. simpl in Heq. lia.
  - unfold follow_filter_delete. simpl.
    rewrite filter_app, filter_cons_False, filter_nil, app_nil_r by (simpl; intros Hf; by apply Hf).
    apply filter_all, Forall_forall. intros f Hf Heq. apply Hn. rewrite <-Heq. by apply list_elem_of_fmap_2.
Qed.

(** A user cannot follow themself: the request changes nothing. *)
Theorem profile_follow_self db req u :
  wf db → request_user db req = Some u →
  profile_follow (username u) db req = (db, Redirect (UProfile (username u))).
Proof.
  intros Hwf Hu. unfold profile_follow, login_required. rewrite Hu. simpl.
  rewrite get_user_found by (done || by eapply request_user_in). simpl.
  by rewrite decide_False by auto.
Qed.
End follow.

(** ** Every request is answered, and keeps the database well formed *)

(** A request is answered when the database it leaves is well formed and
    the response is not a server error. *)
Definition answered (res : DB * Response) : Prop := wf res.1 ∧ res.2 ≠ ServerError.

Lemma render_page_answered db req objects k :
  wf db → (∀ pg, k pg ≠ ServerError) → answered (render_page db req objects k).
Proof. intros ? Hk. rewrite render_page_ok. split; [done|apply Hk]. Qed.

Lemma or_404_answered {A} db (r : A + OrmError) k :
  wf db → r = inr DoesNotExist ∨ (∃ x, r = inl x ∧ answered (k x)) → answered (or_404 db r k).
Proof. intros ? [->|(x & -> & ?)]; [by split|done]. Qed.

Lemma get_post_cases db pid :
  wf db → get_post db pid = inr DoesNotExist ∨
          ∃ p, get_post db pid = inl p ∧ p ∈ posts db ∧ post_id p = pid.
Proof. intros Hwf. destruct (qs_get_key post_id (posts db) pid) as [[]|]; [apply Hwf|auto..]. Qed.

Lemma get_user_cases db name :
  wf db → get_user_by_name db name = inr DoesNotExist ∨
          ∃ a, get_user_by_name db name = inl a ∧ a ∈ users db ∧ username a = name.
Proof. intros Hwf. destruct (qs_get_key username (users db) name) as [[]|]; [apply Hwf|auto..]. Qed.

Lemma get_group_cases db s :
  wf db → get_group_by_slug db s = inr DoesNotExist ∨
          ∃ g, get_group_by_slug db s = inl g ∧ g ∈ groups db ∧ slug g = s.
Proof. intros Hwf. destruct (qs_get_key slug (groups db) s) as [[]|]; [apply Hwf|auto..]. Qed.

(** [login_required] answers an anonymous request itself. *)
Lemma login_required_answered (v : User → View) db req :
  wf db → (∀ u, request_user db req = Some u → answered (v u db req)) →
  answered (login_required v db req).
Proof. intros ? Hv. unfold login_required. destruct (request_user db req) eqn:E; [auto|by split]. Qed.

Section answered.
Context `{FormBackend}.

Ltac answer_get :=
  cbv beta; apply or_404_answered; [done|];
  match goal with
  | Hwf : wf ?db |- context [get_post ?db ?x] => destruct (get_post_cases db x Hwf)
  | Hwf : wf ?db |- context [get_user_by_name ?db ?x] => destruct (get_user_cases db x Hwf)
  | Hwf : wf ?db |- context [get_group_by_slug ?db ?x] => destruct (get_group_cases db x Hwf)
  end;
  [by left|];
  match goal with
  | Hx : ∃ _, _ = inl _ ∧ _ |- _ =>
      let Hg := fresh "Hget" in destruct Hx as (? & Hg & ? & ?); right; rewrite Hg;
      eexists; split; [done|]
  end.

Lemma public_views_answered db req :
  wf db →
  answered (index db req) ∧ (∀ s, answered (group_posts s db req)) ∧
  (∀ n, answered (profile n db req)) ∧ (∀ pid, answered (post_detail pid db req)) ∧
  answered (follow_index db req).
Proof.
  intros Hwf. split_and!; try intros x.
  - by apply render_page_answered.
  - unfold group_posts. answer_get. by apply render_page_answered.
  - unfold profile. answer_get. by apply render_page_answered.
  - unfold post_detail. answer_get. by split.
  - apply login_required_answered; [done|]. intros. by apply render_page_answered.
Qed.

Lemma post_create_answered db req : wf db → answered (post_create db req).
Proof.
  intros Hwf. apply login_required_answered; [done|]. intros u Hu.
  destruct (req_data req) as [d|]; [|by split].
  destruct (clean_post db d) as [c|] eqn:Hc; [|by split]. simpl.
  destruct (create_post _ _ _ _ _) as [[db' p]|] eqn:Hcp.
  - split; [|done]. by eapply create_post_wf.
  - exfalso. revert Hcp. unfold create_post. rewrite decide_True; [done|].
    split; [by eapply request_user_exists|by eapply clean_post_group].
Qed.

Lemma post_edit_answered db req pid : wf db → answered (post_edit pid db req).
Proof.
  intros Hwf. apply login_required_answered; [done|]. intros u Hu.
  answer_get. rename x into p.
  case_decide; [by split|].
  destruct (req_data req) as [d|]; [|by split].
  destruct (clean_post db d) as [c|] eqn:Hc; [|by split].
  pose proof (wf_post_refs _ Hwf) as Hrefs. rewrite Forall_forall in Hrefs.
  destruct (Hrefs p ltac:(done)) as [Hau _].
  destruct (save_post db (edit_instance p c)) as [db'|] eqn:Hs.
  - split; [|done]. simpl. eapply (save_post_edit_wf db p (edit_instance p c)); done.
  - exfalso. revert Hs. unfold save_post. rewrite decide_True; [by case_decide|].
    split; [done|by eapply clean_post_group].
Qed.

Lemma add_comment_answered db req pid : wf db → answered (add_comment pid db req).
Proof.
  intros Hwf. apply login_required_answered; [done|]. intros u Hu.
  answer_get. rename x into p.
  destruct (req_data req ≫= clean_comment) as [t|]; [|by split].
  destruct (create_comment _ _ _ _) as [[db' c]|] eqn:Hcc.
  - split; [|done]. by eapply create_comment_wf.
  - exfalso. revert Hcc. unfold create_comment. rewrite decide_True; [done|].
    split; [subst pid; by apply list_elem_of_fmap_2|by eapply request_user_exists].
Qed.

Lemma follow_views_answered db req name :
  wf db → answered (profile_follow name db req) ∧ answered (profile_unfollow name db req).
Proof.
  intros Hwf. split; apply login_required_answered; try done; intros u Hu; answer_get.
  - case_decide; [|by split].
    destruct (follow_get_or_create_spec db (user_id u) (user_id x))
      as (db' & f & c & Hgoc & _); [done|by eapply request_user_exists|
                                     by apply list_elem_of_fmap_2|].
    rewrite Hgoc. split; [|done]. by eapply follow_get_or_create_wf.
  - split; [|done]. by apply follow_filter_delete_wf.
Qed.
End answered.

Section handle.
Context `{FormBackend}.

(** What a request can write: nothing, a new post, an edited post, a
    comment, a follow row between two distinct users, or the follow rows
    of a pair deleted.  A relation that holds for each of these holds
    for every request. *)
Lemma handle_writes (R : DB → DB → Prop) db req db' r :
  R db db →
  (∀ t a og i d p, create_post db t a og i = inl (d, p) → R db d) →
  (∀ p d, save_post db p = inl d → R db d) →
  (∀ pid a t d c, create_comment db pid a t = inl (d, c) → R db d) →
  (∀ u a d f c, u ≠ a → follow_get_or_create db u a = inl (d, f, c) → R db d) →
  (∀ u a, R db (follow_filter_delete db u a)) →
  handle db req = Some (db', r) → R db db'.
Proof.
  intros Hrefl Hpost Hsave Hcomm Hfollow Hunfollow Hh. unfold handle in Hh.
  destruct (resolve (req_path req)) as [v|] eqn:Ev; simplify_eq/=.
  replace db' with (v db req).1 by (by rewrite Hh). clear Hh.
  destruct (req_path req); simplify_eq/=;
    unfold index, group_posts, profile, post_detail, post_create, post_edit, add_comment,
      follow_index, profile_follow, profile_unfollow, login_required, or_404, or_500, render_page;
    repeat (case_match; simplify_eq/=); eauto.
Qed.

(** No request to the app on a well-formed database ends in a server
    error: every [get] is on a unique key, every write satisfies the
    foreign keys and unique constraints, and the paginator never
    raises.  And the database the request leaves is well formed. *)
Theorem handle_answered db req db' r :
  wf db → handle db req = Some (db', r) → wf db' ∧ r ≠ ServerError.
Proof.
  intros Hwf Hh. unfold handle in Hh.
  destruct (resolve (req_path req)) as [v|] eqn:Ev; simplify_eq/=.
  destruct (public_views_answered db req Hwf) as (Hi & Hg & Hp & Hd & Hf).
  enough (answered (v db req)) as Ha by (rewrite Hh in Ha; exact Ha).
  destruct (req_path req); simplify_eq/=; auto using post_create_answered,
    post_edit_answered, add_comment_answered;
    apply follow_views_answered; done.
Qed.

(** ** The site as a state machine

    Accounts come from the auth app's sign-up and leave through the auth
    admin; groups are created from the admin site, which also adds
    posts, comments and follow rows with its add forms, edits a post
    with its change form or its group in the post list
    ([PostAdmin.list_editable]), and deletes posts, groups, comments and
    follow rows; every other change is a request to the app.  The
    admin's form validation (required fields) is not modelled: the
    admin steps are every write the ORM accepts. *)
Inductive step : DB → DB → Prop :=
  | step_signup db name db' u :
      create_user db name = inl (db', u) → step db db'
  | step_admin_group db t sl d db' g :
      create_group db t sl d = inl (db', g) → step db db'
  | step_admin_set_group db p og db' :
      p ∈ posts db → admin_set_group db p og = inl db' → step db db'
  | step_admin_change_post db p t a og img db' :
      p ∈ posts db → admin_change_post db p t a og img = inl db' → step db db'
  | step_admin_change_group db g t sl d db' :
      g ∈ groups db → admin_change_group db g t sl d = inl db' → step db db'
  | step_admin_change_comment db c pid a t db' :
      c ∈ comments db → admin_change_comment db c pid a t = inl db' → step db db'
  | step_admin_change_follow db f u a db' :
      f ∈ follows db → admin_change_follow db f u a = inl db' → step db db'
  | step_admin_add_post db t a og img db' p :
      create_post db t a og img = inl (db', p) → step db db'
  | step_admin_add_comment db pid a t db' c :
      create_comment db pid a t = inl (db', c) → step db db'
  | step_admin_add_follow db u a db' f :
      create_follow db u a = inl (db', f) → step db db'
  | step_admin_delete_post db pid : step db (delete_post db pid)
  | step_admin_delete_group db gid : step db (delete_group db gid)
  | step_admin_delete_comment db cid : step db (delete_comment db cid)
  | step_admin_delete_follow db fid : step db (delete_follow db fid)
  | step_delete_user db uid : step db (delete_user db uid)
  | step_request db req db' r :
      handle db req = Some (db', r) → step db db'.

Inductive reachable : DB → Prop :=
  | reach_init : reachable empty_db
  | reach_step db db' : reachable db → step db db' → reachable db'.

Lemma empty_db_wf : wf empty_db.
Proof. apply (bool_decide_unpack _). vm_compute. reflexivity. Qed.

Lemma reachable_is_wf db : reachable db → wf db.
Proof.
  induction 1 as [|db db' _ IH Hs]; [apply empty_db_wf|].
  destruct Hs; first
    [ by eapply create_user_wf | by eapply create_group_wf | by eapply admin_set_group_wf
    | by eapply admin_change_post_wf | by eapply admin_change_group_wf
    | by eapply admin_change_comment_wf | by eapply admin_change_follow_wf | by eapply create_post_wf | by eapply create_comment_wf
    | by eapply create_follow_wf | by apply delete_post_wf | by apply delete_group_wf
    | by apply delete_comment_wf | by apply delete_follow_wf | by apply delete_user_wf
    | by eapply handle_answered ].
Qed.

(** C1: In every state the site can reach, a request to the app is
    answered without a server error and leaves a well-formed database:
    keys, foreign keys, unique usernames, slugs and follow pairs, and
    distinct timestamps hold after any sequence of sign-ups, account
    deletions, admin writes (rows added and changed with the add and
    change forms, a post's group edited in the list, posts, groups,
    comments and follow rows deleted) and requests. *)
Theorem reachable_answered db req db' r :
  reachable db → handle db req = Some (db', r) → wf db' ∧ r ≠ ServerError.
Proof. intros Hr. apply handle_answered, reachable_is_wf, Hr. Qed.
End handle.

(** ** Witnesses: the test cases replayed on the fixtures *)

Local Open Scope string_scope.

Definition get_req (session : option nat) (u : Url) : Request := mkRequest session u None None.
Definition post_req (session : option nat) (u : Url) (d : FormData) : Request :=
  mkRequest session u None (Some d).

(** A site where "user" signed up, then the index page. *)
Definition signup_db : DB := after (create_user empty_db "user").

Lemma reachable_answered_witness :
  reachable signup_db ∧
  handle signup_db (get_req None UIndex) = Some (signup_db, snd (index signup_db (get_req None UIndex))) ∧
  (wf signup_db ∧ snd (index signup_db (get_req None UIndex)) ≠ ServerError).
Proof.
  assert (Hr : reachable signup_db).
  { eapply reach_step; [apply reach_init|]. eapply step_signup. reflexivity. }
  assert (Hh : handle signup_db (get_req None UIndex) =
               Some (signup_db, snd (index signup_db (get_req None UIndex)))) by reflexivity.
  exact (conj Hr (conj Hh (reachable_answered _ _ _ _ Hr Hh))).
Defined.

(** [test_redirects_urls_non_authorized]: a guest opening [/create/]. *)
Lemma anonymous_redirected_to_login_witness :
  login_only (req_path (get_req None UPostCreate)) = true ∧
  request_user urls_db (get_req None UPostCreate) = None ∧
  handle urls_db (get_req None UPostCreate) =
    Some (urls_db, Redirect (ULogin (req_path (get_req None UPostCreate)))).
Proof.
  assert (Hl : login_only (req_path (get_req None UPostCreate)) = true) by reflexivity.
  assert (Ha : request_user urls_db (get_req None UPostCreate) = None) by reflexivity.
  exact (conj Hl (conj Ha (anonymous_redirected_to_login _ _ Hl Ha))).
Defined.

(** [test_edit_post_not_available_authorized_non_author] *)
Lemma post_edit_non_author_witness :
  wf urls_db ∧ request_user urls_db (get_req (Some 2) (UPostEdit 1)) = Some (mkUser 2 "user_non_author") ∧
  mkPost 1 "Текст - Тест" 1 1 (Some 1) "" ∈ posts urls_db ∧ 2 ≠ 1 ∧
  post_edit 1 urls_db (get_req (Some 2) (UPostEdit 1)) = (urls_db, Redirect (UPostDetail 1)).
Proof.
  assert (Hw : wf urls_db) by by_eval.
  assert (Hu : request_user urls_db (get_req (Some 2) (UPostEdit 1)) = Some (mkUser 2 "user_non_author"))
    by reflexivity.
  assert (Hp : mkPost 1 "Текст - Тест" 1 1 (Some 1) "" ∈ posts urls_db) by by_eval.
  assert (Hne : 2 ≠ 1) by lia.
  exact (conj Hw (conj Hu (conj Hp (conj Hne (post_edit_non_author _ _ _ _ Hw Hu Hp Hne))))).
Defined.

(** [test_new_post_created_from_form_data]: text, group and an image. *)
Definition create_data : FormData :=
  mkFormData (Some "Текст из формы") (Some "1") (Some (mkUpload "small.gif" true)).
Definition create_clean : PostClean := mkPostClean "Текст из формы" (Some 1) (Some "posts/small.gif").

Lemma post_create_publishes_witness :
  wf post_form_db ∧
  request_user post_form_db (post_req (Some 1) UPostCreate create_data) = Some (mkUser 1 "user") ∧
  req_data (post_req (Some 1) UPostCreate create_data) = Some create_data ∧
  clean_post post_form_db create_data = Some create_clean ∧
  (let p := mkPost (next_post post_form_db) (pc_text create_clean) (clock post_form_db) 1
                   (pc_group create_clean) (default "" (pc_image create_clean)) in
   ∃ db', post_create post_form_db (post_req (Some 1) UPostCreate create_data) =
            (db', Redirect (UProfile "user")) ∧
          posts db' = (posts post_form_db ++ [p])%list ∧ all_posts db' = p :: all_posts post_form_db).
Proof.
  assert (Hw : wf post_form_db) by by_eval.
  assert (Hu : request_user post_form_db (post_req (Some 1) UPostCreate create_data) =
               Some (mkUser 1 "user")) by reflexivity.
  assert (Hd : req_data (post_req (Some 1) UPostCreate create_data) = Some create_data) by reflexivity.
  assert (Hc : clean_post post_form_db create_data = Some create_clean) by reflexivity.
  exact (conj Hw (conj Hu (conj Hd (conj Hc (post_create_publishes _ _ _ _ _ Hw Hu Hd Hc))))).
Defined.

(** [test_edit_post]: the author sends a new text (and no group). *)
Definition edit_data : FormData := mkFormData (Some "Текст изменился") None None.

Lemma post_edit_author_saves_witness :
  wf post_form_db ∧
  request_user post_form_db (post_req (Some 1) (UPostEdit 1) edit_data) = Some (mkUser 1 "user") ∧
  mkPost 1 "Текст" 1 1 (Some 1) "" ∈ posts post_form_db ∧ 1 = 1 ∧
  req_data (post_req (Some 1) (UPostEdit 1) edit_data) = Some edit_data ∧
  clean_post post_form_db edit_data = Some (mkPostClean "Текст изменился" None None) ∧
  post_edit 1 post_form_db (post_req (Some 1) (UPostEdit 1) edit_data) =
    (set_posts post_form_db (replace_row post_id
       (edit_instance (mkPost 1 "Текст" 1 1 (Some 1) "") (mkPostClean "Текст изменился" None None))
       (posts post_form_db)), Redirect (UPostDetail 1)).
Proof.
  assert (Hw : wf post_form_db) by by_eval.
  assert (Hu : request_user post_form_db (post_req (Some 1) (UPostEdit 1) edit_data) =
               Some (mkUser 1 "user")) by reflexivity.
  assert (Hp : mkPost 1 "Текст" 1 1 (Some 1) "" ∈ posts post_form_db) by by_eval.
  assert (Ha : 1 = 1) by reflexivity.
  assert (Hd : req_data (post_req (Some 1) (UPostEdit 1) edit_data) = Some edit_data) by reflexivity.
  assert (Hc : clean_post post_form_db edit_data = Some (mkPostClean "Текст изменился" None None))
    by reflexivity.
  exact (conj Hw (conj Hu (conj Hp (conj Ha (conj Hd (conj Hc
    (post_edit_author_saves _ _ _ _ _ _ Hw Hu Hp Ha Hd Hc))))))).
Defined.

(** [test_add_comment] *)
Definition comment_data : FormData := mkFormData (Some "Тестовый комментарий") None None.

Lemma add_comment_persists_witness :
  wf post_form_db ∧
  request_user post_form_db (post_req (Some 1) (UAddComment 1) comment_data) = Some (mkUser 1 "user") ∧
  mkPost 1 "Текст" 1 1 (Some 1) "" ∈ posts post_form_db ∧
  req_data (post_req (Some 1) (UAddComment 1) comment_data) ≫= clean_comment =
    Some "Тестовый комментарий" ∧
  add_comment 1 post_form_db (post_req (Some 1) (UAddComment 1) comment_data) =
    (mkDB (users post_form_db) (groups post_form_db) (posts post_form_db)
          ((comments post_form_db ++
             [mkComment (next_comment post_form_db) 1 1 (clock post_form_db) "Тестовый комментарий"])%list)
          (follows post_form_db) (S (clock post_form_db)) (next_user post_form_db)
          (next_group post_form_db) (next_post post_form_db) (S (next_comment post_form_db))
          (next_follow post_form_db),
     Redirect (UPostDetail 1)).
Proof.
  assert (Hw : wf post_form_db) by by_eval.
  assert (Hu : request_user post_form_db (post_req (Some 1) (UAddComment 1) comment_data) =
               Some (mkUser 1 "user")) by reflexivity.
  assert (Hp : mkPost 1 "Текст" 1 1 (Some 1) "" ∈ posts post_form_db) by by_eval.
  assert (Ht : req_data (post_req (Some 1) (UAddComment 1) comment_data) ≫= clean_comment =
               Some "Тестовый комментарий") by reflexivity.
  exact (conj Hw (conj Hu (conj Hp (conj Ht (add_comment_persists _ _ _ _ _ Hw Hu Hp Ht))))).
Defined.

(** [test_follow]: "follower" (2) follows "author" (3). *)
Lemma profile_follow_one_edge_witness :
  wf follow_db ∧
  request_user follow_db (get_req (Some 2) (UProfileFollow "author")) = Some (mkUser 2 "follower") ∧
  mkUser 3 "author" ∈ users follow_db ∧ 2 ≠ 3 ∧
  ∃ db', profile_follow "author" follow_db (get_req (Some 2) (UProfileFollow "author")) =
           (db', Redirect (UProfile "author")) ∧ follow_edge_count db' 2 3 = 1.
Proof.
  assert (Hw : wf follow_db) by by_eval.
  assert (Hu : request_user follow_db (get_req (Some 2) (UProfileFollow "author")) =
               Some (mkUser 2 "follower")) by reflexivity.
  assert (Ha : mkUser 3 "author" ∈ users follow_db) by by_eval.
  assert (Hne : 2 ≠ 3) by lia.
  exact (conj Hw (conj Hu (conj Ha (conj Hne (profile_follow_one_edge _ _ _ _ Hw Hu Ha Hne))))).
Defined.

(** "follower" follows "author", then unfollows them. *)
Lemma follow_unfollow_roundtrip_witness :
  wf follow_db ∧
  request_user follow_db (get_req (Some 2) (UProfileFollow "author")) = Some (mkUser 2 "follower") ∧
  mkUser 3 "author" ∈ users follow_db ∧ 2 ≠ 3 ∧ (2, 3) ∉ follow_pair <$> follows follow_db ∧
  ∃ db1 db2,
    profile_follow "author" follow_db (get_req (Some 2) (UProfileFollow "author")) =
      (db1, Redirect (UProfile "author")) ∧
    profile_unfollow "author" db1 (get_req (Some 2) (UProfileFollow "author")) =
      (db2, Redirect (UProfile "author")) ∧
    follows db1 ≠ follows follow_db ∧
    users db2 = users follow_db ∧ groups db2 = groups follow_db ∧ posts db2 = posts follow_db ∧
    comments db2 = comments follow_db ∧ follows db2 = follows follow_db.
Proof.
  assert (Hw : wf follow_db) by by_eval.
  assert (Hu : request_user follow_db (get_req (Some 2) (UProfileFollow "author")) =
               Some (mkUser 2 "follower")) by reflexivity.
  assert (Ha : mkUser 3 "author" ∈ users follow_db) by by_eval.
  assert (Hne : 2 ≠ 3) by lia.
  assert (Hn : (2, 3) ∉ follow_pair <$> follows follow_db) by by_eval.
  exact (conj Hw (conj Hu (conj Ha (conj Hne (conj Hn
    (follow_unfollow_roundtrip _ _ _ _ Hw Hu Ha Hne Hn)))))).
Defined.

(** [test_unfollow]: "follower" unfollows "author" after following. *)
Lemma profile_unfollow_spec_witness :
  wf followed_db ∧
  request_user followed_db (get_req (Some 2) (UProfileUnfollow "author")) = Some (mkUser 2 "follower") ∧
  mkUser 3 "author" ∈ users followed_db ∧
  ∃ db', profile_unfollow "author" followed_db (get_req (Some 2) (UProfileUnfollow "author")) =
           (db', Redirect (UProfile "author")) ∧
    db' = set_follows followed_db (follows db') ∧
    (∀ f, f ∈ follows db' ↔ f ∈ follows followed_db ∧ follow_pair f ≠ (2, 3)) ∧
    ((2, 3) ∉ follow_pair <$> follows followed_db → db' = followed_db).
Proof.
  assert (Hw : wf followed_db) by by_eval.
  assert (Hu : request_user followed_db (get_req (Some 2) (UProfileUnfollow "author")) =
               Some (mkUser 2 "follower")) by reflexivity.
  assert (Ha : mkUser 3 "author" ∈ users followed_db) by by_eval.
  exact (conj Hw (conj Hu (conj Ha (profile_unfollow_spec _ _ _ _ Hw Hu Ha)))).
Defined.

(** "follower" asking to follow themself. *)
Lemma profile_follow_self_witness :
  wf follow_db ∧
  request_user follow_db (get_req (Some 2) (UProfileFollow "follower")) = Some (mkUser 2 "follower") ∧
  profile_follow "follower" follow_db (get_req (Some 2) (UProfileFollow "follower")) =
    (follow_db, Redirect (UProfile "follower")).
Proof.
  assert (Hw : wf follow_db) by by_eval.
  assert (Hu : request_user follow_db (get_req (Some 2) (UProfileFollow "follower")) =
               Some (mkUser 2 "follower")) by reflexivity.
  exact (conj Hw (conj Hu (profile_follow_self _ _ _ Hw Hu))).
Defined.

(** [CommentForm] with a blank text. *)
Definition blank_comment : FormData := mkFormData (Some "   ") None None.

Lemma add_comment_invalid_redirects_witness :
  wf post_form_db ∧
  request_user post_form_db (post_req (Some 1) (UAddComment 1) blank_comment) = Some (mkUser 1 "user") ∧
  mkPost 1 "Текст" 1 1 (Some 1) "" ∈ posts post_form_db ∧
  req_data (post_req (Some 1) (UAddComment 1) blank_comment) ≫= clean_comment = None ∧
  add_comment 1 post_form_db (post_req (Some 1) (UAddComment 1) blank_comment) =
    (post_form_db, Redirect (UPostDetail 1)).
Proof.
  assert (Hw : wf post_form_db) by by_eval.
  assert (Hu : request_user post_form_db (post_req (Some 1) (UAddComment 1) blank_comment) =
               Some (mkUser 1 "user")) by reflexivity.
  assert (Hp : mkPost 1 "Текст" 1 1 (Some 1) "" ∈ posts post_form_db) by by_eval.
  assert (Ht : req_data (post_req (Some 1) (UAddComment 1) blank_comment) ≫= clean_comment = None)
    by reflexivity.
  exact (conj Hw (conj Hu (conj Hp (conj Ht (add_comment_invalid_redirects _ _ _ _ Hw Hu Hp Ht))))).
Defined.

End Views.
