(* ===== verification/Urls.v ===== *)
(** * Urls: the urlconf of the posts app, by path

    [posts/urls.py] is not among the sources: its patterns are the paths
    the tests request ([tests/test_urls.py]), named as [reverse] names
    them in [tests/test_views.py], with the parameters the views of
    [views.py] take ([slug], [username], [post_id]).  A request path is
    matched against the patterns in their order; a parameter segment is
    what Django's converter accepts ([slug]: [-a-zA-Z0-9_]+, [str]:
    [^/]+, [int]: [0-9]+ read with [int()]).  [reverse] prints a route,
    and the login redirect prints its [next] query with
    [urlencode(safe="/")].  The round trip shows that every link the app
    prints leads back to the view of its route.  [next] is the path of
    the request without its query string ([Views.login_required] keeps
    the route only), and [APPEND_SLASH]'s redirect of a path without its
    final slash is not modelled. *)

From stdpp Require Import base list strings.
From Stdlib Require Import String Ascii ZArith Lia.
From S2P Require Import Prelude Models Paginator Forms Views.

Module Urls.
Import Models Paginator Forms Views.

Definition slash : ascii := "/"%char.

(** [path.split("/")]: the pieces between slashes, at least one. *)
Fixpoint split_slash (l : list ascii) : list (list ascii) :=
  match l with
  | [] => [[]]
  | c :: r =>
      if bool_decide (c = slash) then [] :: split_slash r
      else match split_slash r with
           | w :: ws => (c :: w) :: ws
           | [] => [[c]]
           end
  end.

(** ** Patterns and converters *)

Inductive Seg := Lit (s : string) | SlugConv | StrConv | IntConv.
Inductive Arg := AStr (s : string) | AInt (n : nat).

Definition in_range (c : ascii) (lo hi : nat) : Prop := lo ≤ nat_of_ascii c ≤ hi.

Definition is_alnum (c : ascii) : Prop :=
  in_range c 48 57 ∨ in_range c 65 90 ∨ in_range c 97 122.

(** [SlugConverter.regex = "[-a-zA-Z0-9_]+"] *)
Definition is_slug_char (c : ascii) : bool :=
  bool_decide (is_alnum c ∨ c = "-"%char ∨ c = "_"%char).

(** One segment against one pattern piece: [None] when it does not
    match, [Some None] for a literal, [Some (Some a)] for a parameter. *)
Definition match_seg (p : Seg) (w : list ascii) : option (option Arg) :=
  match p with
  | Lit s => if bool_decide (w = list_ascii_of_string s) then Some None else None
  | SlugConv =>
      if bool_decide (w ≠ [] ∧ Forall (λ c, is_slug_char c = true) w)
      then Some (Some (AStr (string_of_list_ascii w))) else None
  | StrConv => if bool_decide (w ≠ []) then Some (Some (AStr (string_of_list_ascii w))) else None
  | IntConv =>
      if bool_decide (w ≠ [] ∧ Forall (λ c, is_digit c = true) w)
      then Some (Some (AInt (Z.to_nat (digits_val w)))) else None
  end.

(** A route's pattern ends with a slash (but the index's, which is
    empty): the pieces of the path are the pattern's and one empty
    piece after the last slash. *)
Fixpoint match_segs (ps : list Seg) (ws : list (list ascii)) : option (list Arg) :=
  match ps, ws with
  | [], [[]] => Some []
  | p :: ps, w :: ws =>
      match match_seg p w with
      | Some oa => (λ args, option_list oa ++ args) <$> match_segs ps ws
      | None => None
      end
  | _, _ => None
  end.

(** The names of [posts/urls.py]. *)
Inductive Route :=
  | RIndex | RGroupList | RProfile | RPostDetail | RPostCreate | RPostEdit
  | RAddComment | RFollowIndex | RProfileFollow | RProfileUnfollow.

Definition pattern (r : Route) : list Seg :=
  match r with
  | RIndex => []
  | RGroupList => [Lit "group"; SlugConv]
  | RProfile => [Lit "profile"; StrConv]
  | RPostDetail => [Lit "posts"; IntConv]
  | RPostCreate => [Lit "create"]
  | RPostEdit => [Lit "posts"; IntConv; Lit "edit"]
  | RAddComment => [Lit "posts"; IntConv; Lit "comment"]
  | RFollowIndex => [Lit "follow"]
  | RProfileFollow => [Lit "profile"; StrConv; Lit "follow"]
  | RProfileUnfollow => [Lit "profile"; StrConv; Lit "unfollow"]
  end.

Definition urlpatterns : list Route :=
  [RIndex; RGroupList; RProfile; RPostDetail; RPostCreate; RPostEdit;
   RAddComment; RFollowIndex; RProfileFollow; RProfileUnfollow].

(** The view a route calls, with the converted parameters. *)
Definition build (r : Route) (args : list Arg) : option Url :=
  match r, args with
  | RIndex, [] => Some UIndex
  | RGroupList, [AStr s] => Some (UGroup s)
  | RProfile, [AStr n] => Some (UProfile n)
  | RPostDetail, [AInt pid] => Some (UPostDetail pid)
  | RPostCreate, [] => Some UPostCreate
  | RPostEdit, [AInt pid] => Some (UPostEdit pid)
  | RAddComment, [AInt pid] => Some (UAddComment pid)
  | RFollowIndex, [] => Some UFollowIndex
  | RProfileFollow, [AStr n] => Some (UProfileFollow n)
  | RProfileUnfollow, [AStr n] => Some (UProfileUnfollow n)
  | _, _ => None
  end.

(** [URLResolver.resolve]: the first pattern that matches. *)
Fixpoint first_match (rs : list Route) (ws : list (list ascii)) : option Url :=
  match rs with
  | [] => None
  | r :: rs =>
      match match_segs (pattern r) ws with
      | Some args => build r args
      | None => first_match rs ws
      end
  end.

Definition resolve_path (path : string) : option Url :=
  match list_ascii_of_string path with
  | c :: rest => if bool_decide (c = slash) then first_match urlpatterns (split_slash rest) else None
  | [] => None
  end.

(** ** [reverse] *)

Definition route_of (u : Url) : option (Route * list Arg) :=
  match u with
  | UIndex => Some (RIndex, [])
  | UGroup s => Some (RGroupList, [AStr s])
  | UProfile n => Some (RProfile, [AStr n])
  | UPostDetail pid => Some (RPostDetail, [AInt pid])
  | UPostCreate => Some (RPostCreate, [])
  | UPostEdit pid => Some (RPostEdit, [AInt pid])
  | UAddComment pid => Some (RAddComment, [AInt pid])
  | UFollowIndex => Some (RFollowIndex, [])
  | UProfileFollow n => Some (RProfileFollow, [AStr n])
  | UProfileUnfollow n => Some (RProfileUnfollow, [AStr n])
  | ULogin _ => None
  end.

Definition arg_piece (a : Arg) : list ascii :=
  match a with AStr s => list_ascii_of_string s | AInt n => nat_digits n end.

Fixpoint fill (ps : list Seg) (args : list Arg) : list (list ascii) :=
  match ps, args with
  | Lit s :: ps, _ => list_ascii_of_string s :: fill ps args
  | _ :: ps, a :: args => arg_piece a :: fill ps args
  | _, _ => []
  end.

Definition join_pieces (ws : list (list ascii)) : list ascii :=
  slash :: mjoin ((λ w, w ++ [slash]) <$> ws).

(** [urllib.parse.quote(s, safe="/")]: the unreserved characters and the
    slash stay, every other byte is [%XY]. *)
Definition hex_digit (d : nat) : ascii := ascii_of_nat (if bool_decide (d < 10) then 48 + d else 55 + d).

Definition quote_char (c : ascii) : list ascii :=
  if bool_decide (is_alnum c ∨ c ∈ ["_"; "."; "-"; "~"; "/"]%char) then [c]
  else ["%"%char; hex_digit (nat_of_ascii c / 16); hex_digit (nat_of_ascii c mod 16)].

Definition quote (l : list ascii) : list ascii := mjoin (quote_char <$> l).

Definition login_prefix : list ascii := list_ascii_of_string "/auth/login/?next=".

Fixpoint reverse_path (u : Url) : list ascii :=
  match u with
  | ULogin next => login_prefix ++ quote (reverse_path next)
  | _ => match route_of u with
         | Some (r, args) => join_pieces (fill (pattern r) args)
         | None => []
         end
  end.

Definition reverse (u : Url) : string := string_of_list_ascii (reverse_path u).


(** ** The [next] parameter, as the login view reads it *)

Definition hex_value (c : ascii) : option nat :=
  let n := nat_of_ascii c in
  if bool_decide (48 ≤ n ≤ 57) then Some (n - 48)
  else if bool_decide (65 ≤ n ≤ 70) then Some (n - 55)
  else if bool_decide (97 ≤ n ≤ 102) then Some (n - 87)
  else None.

(** [urllib.parse.unquote_plus]: [%XY] is the byte [XY], a [+] is a
    space, a [%] not followed by two hex digits stays. *)
Fixpoint unquote_plus (l : list ascii) : list ascii :=
  match l with
  | [] => []
  | c :: rest =>
      if bool_decide (c = "%"%char) then
        match rest with
        | h :: lo :: r =>
            match hex_value h, hex_value lo with
            | Some a, Some b => ascii_of_nat (16 * a + b) :: unquote_plus r
            | _, _ => c :: unquote_plus rest
            end
        | _ => c :: unquote_plus rest
        end
      else if bool_decide (c = "+"%char) then " "%char :: unquote_plus rest
      else c :: unquote_plus rest
  end.

(** A query value ends at the next [&]. *)
Fixpoint value_until_amp (l : list ascii) : list ascii :=
  match l with
  | [] => []
  | c :: r => if bool_decide (c = "&"%char) then [] else c :: value_until_amp r
  end.

(** [request.GET.get("next")] on a location of the login page. *)
Definition login_next (loc : string) : option string :=
  let l := list_ascii_of_string loc in
  if bool_decide (take (List.length login_prefix) l = login_prefix)
  then Some (string_of_list_ascii (unquote_plus (value_until_amp (drop (List.length login_prefix) l))))
  else None.

(** The usernames the sign-up form lets through, in their ASCII part:
    [UnicodeUsernameValidator] accepts [^[\w.@+-]+\Z]; [reverse] leaves
    these characters as they are. *)
Definition is_name_char (c : ascii) : bool :=
  bool_decide (is_alnum c ∨ c ∈ ["_"; "."; "@"; "+"; "-"]%char).

Definition slug_ok (s : string) : Prop :=
  list_ascii_of_string s ≠ [] ∧ Forall (λ c, is_slug_char c = true) (list_ascii_of_string s).

Definition name_ok (n : string) : Prop :=
  list_ascii_of_string n ≠ [] ∧ Forall (λ c, is_name_char c = true) (list_ascii_of_string n).

(** The routes the app links to, with a valid slug or username. *)
Definition url_ok (u : Url) : Prop :=
  match u with
  | UGroup s => slug_ok s
  | UProfile n | UProfileFollow n | UProfileUnfollow n => name_ok n
  | ULogin _ => False
  | _ => True
  end.

(** A GET of a path: the posts app's view of the route it resolves to;
    [None] when no pattern of the app matches. *)
Definition serve (db : DB) (session : option nat) (path : string) : option (DB * Response) :=
  resolve_path path ≫= λ u, handle db (get_req session u).

(** ** The round trip *)

Lemma split_word w r : slash ∉ w → split_slash (w ++ slash :: r) = w :: split_slash r.
Proof.
  induction w as [|c w IH]; intros Hw; simpl; [done|].
  rewrite not_elem_of_cons in Hw. destruct Hw as [Hc Hw].
  rewrite bool_decide_false by done. by rewrite IH.
Qed.

Lemma split_join ws :
  Forall (λ w, slash ∉ w) ws → split_slash (mjoin ((λ w, w ++ [slash]) <$> ws)) = ws ++ [[]].
Proof.
  induction 1 as [|w ws Hw _ IH]; [done|]. rewrite fmap_cons.
  change (mjoin ((w ++ [slash]) :: ?l)) with ((w ++ [slash]) ++ mjoin l).
  rewrite <-app_assoc. cbn [app]. by rewrite split_word, IH.
Qed.

Lemma Forall_no_slash (P : ascii → bool) l :
  P slash = false → Forall (λ c, P c = true) l → slash ∉ l.
Proof. intros Hs Hl Hin. rewrite Forall_forall in Hl. specialize (Hl _ Hin). congruence. Qed.

Lemma nat_digits_no_slash n : slash ∉ nat_digits n.
Proof. destruct (nat_digits_spec n) as (_ & _ & Hd & _). by apply (Forall_no_slash is_digit). Qed.

Lemma nat_digits_val n : Z.to_nat (digits_val (nat_digits n)) = n.
Proof.
  destruct (nat_digits_fuel_spec (S n) n) as (_ & _ & Hv); [lia|].
  unfold nat_digits. rewrite Hv. lia.
Qed.

Lemma nat_digits_int n : nat_digits n ≠ [] ∧ Forall (λ c, is_digit c = true) (nat_digits n).
Proof. by destruct (nat_digits_spec n) as (? & _ & ? & _). Qed.

(** The pieces [reverse] prints hold no slash. *)
Lemma fill_no_slash u r args :
  url_ok u → route_of u = Some (r, args) → Forall (λ w, slash ∉ w) (fill (pattern r) args).
Proof.
  intros Hu Hr. destruct u; simplify_eq/=; repeat constructor; try apply nat_digits_no_slash;
    try (apply (Forall_no_slash is_slug_char); [done|apply Hu]);
    try (apply (Forall_no_slash is_name_char); [done|apply Hu]); by_eval.
Qed.

Lemma resolve_reverse u : url_ok u → resolve_path (reverse u) = Some u.
Proof.
  intros Hu. destruct (route_of u) as [[r args]|] eqn:Hr; [|by destruct u].
  pose proof (fill_no_slash u r args Hu Hr) as Hf.
  assert (reverse u = string_of_list_ascii (join_pieces (fill (pattern r) args))) as ->
    by (destruct u; simplify_eq/=; done).
  unfold resolve_path, join_pieces. rewrite list_ascii_of_string_of_list_ascii. simpl.
  rewrite split_join by done.
  destruct u; simplify_eq/=; try done.
  all: rewrite ?bool_decide_true by (first [apply Hu | apply nat_digits_int]); simpl.
  all: by rewrite ?string_of_list_ascii_of_string, ?nat_digits_val.
Qed.

(** C33: Every link the app prints resolves back to its route: the path
    [reverse] gives for a route with a valid slug or username matches
    that route's pattern before any other, and a GET of it is answered by
    the route's view. *)
Theorem serve_reverse db session u :
  url_ok u → resolve_path (reverse u) = Some u ∧ serve db session (reverse u) = handle db (get_req session u).
Proof. intros Hu. unfold serve. by rewrite resolve_reverse. Qed.

Lemma serve_reverse_witness :
  url_ok (UProfileFollow "user_author") ∧
  resolve_path (reverse (UProfileFollow "user_author")) = Some (UProfileFollow "user_author") ∧
  serve empty_db None (reverse (UProfileFollow "user_author")) =
    handle empty_db (get_req None (UProfileFollow "user_author")).
Proof.
  assert (Hu : url_ok (UProfileFollow "user_author")) by (split; [done|by_eval]).
  exact (conj Hu (serve_reverse empty_db None _ Hu)).
Defined.

(** ** The [next] parameter of the login redirect *)

Lemma hex_value_digit d : d < 16 → hex_value (hex_digit d) = Some d.
Proof.
  intros Hd. unfold hex_value, hex_digit. destruct (decide (d < 10)).
  - rewrite (bool_decide_true (d < 10)), nat_ascii_embedding by lia.
    rewrite bool_decide_true by lia. f_equal. lia.
  - rewrite (bool_decide_false (d < 10)), nat_ascii_embedding by lia.
    rewrite bool_decide_false by lia. rewrite bool_decide_true by lia. f_equal. lia.
Qed.

Lemma hex_digit_not_amp d : d < 16 → hex_digit d ≠ "&"%char.
Proof. intros Hd Heq. pose proof (hex_value_digit d Hd) as Hv. by rewrite Heq in Hv. Qed.

(** What [quote] keeps is neither an escape, a [+] nor a [&]. *)
Lemma safe_char c :
  is_alnum c ∨ c ∈ ["_"; "."; "-"; "~"; "/"]%char → c ≠ "%"%char ∧ c ≠ "+"%char ∧ c ≠ "&"%char.
Proof. unfold is_alnum, in_range. intros Hc. split_and!; intros ->; revert Hc; by_eval. Qed.

Lemma quote_cons c l : quote (c :: l) = quote_char c ++ quote l.
Proof. done. Qed.

Lemma hex_digits_bounded c : nat_of_ascii c / 16 < 16 ∧ nat_of_ascii c mod 16 < 16.
Proof.
  pose proof (nat_ascii_bounded c). split; [apply Nat.Div0.div_lt_upper_bound; lia|].
  apply Nat.mod_upper_bound. lia.
Qed.

(** [unquote_plus] undoes [quote], on any bytes: a [+] is escaped, so it
    does not come back as a space. *)
Lemma unquote_quote l : unquote_plus (quote l) = l.
Proof.
  induction l as [|c l IH]; [done|]. rewrite quote_cons. unfold quote_char. case_bool_decide as Hs.
  - destruct (safe_char c Hs) as (Hp & Hq & _). simpl.
    rewrite bool_decide_false by done. rewrite bool_decide_false by done. by rewrite IH.
  - destruct (hex_digits_bounded c) as [Hhi Hlo].
    cbn -[Nat.div Nat.modulo Nat.mul hex_value hex_digit quote].
    rewrite !hex_value_digit by done. rewrite IH. f_equal.
    rewrite <-(Nat.div_mod_eq (nat_of_ascii c) 16). apply ascii_nat_embedding.
Qed.

Lemma value_until_amp_quote l : value_until_amp (quote l) = quote l.
Proof.
  induction l as [|c l IH]; [done|]. rewrite quote_cons. unfold quote_char. case_bool_decide as Hs.
  - destruct (safe_char c Hs) as (_ & _ & Ha). simpl. rewrite bool_decide_false by done. by rewrite IH.
  - destruct (hex_digits_bounded c) as [Hhi Hlo]. simpl.
    rewrite !bool_decide_false by (by apply hex_digit_not_amp). by rewrite IH.
Qed.

Lemma login_next_reverse u : login_next (reverse (ULogin u)) = Some (reverse u).
Proof.
  unfold login_next, reverse. cbn [reverse_path]. rewrite list_ascii_of_string_of_list_ascii.
  rewrite take_app_length, bool_decide_true by done. rewrite drop_app_length.
  by rewrite value_until_amp_quote, unquote_quote.
Qed.

(** C40: An anonymous request to a page behind [@login_required] is sent
    to the login page with a [next] parameter that the login view reads
    back as the path asked for: the user lands, after logging in, on the
    view of that page, whatever bytes its username holds. *)
Theorem login_redirect_next (v : User → View) db req :
  request_user db req = None → url_ok (req_path req) →
  ∃ l, login_required v db req = (db, Redirect l) ∧
       login_next (reverse l) = Some (reverse (req_path req)) ∧
       login_next (reverse l) ≫= resolve_path = Some (req_path req).
Proof.
  intros Hanon Hu. exists (ULogin (req_path req)). unfold login_required. rewrite Hanon.
  rewrite login_next_reverse. split_and!; [done..|]. by apply resolve_reverse.
Qed.

Lemma login_redirect_next_witness :
  request_user empty_db (get_req None (UProfileFollow "a+b@c")) = None ∧
  url_ok (req_path (get_req None (UProfileFollow "a+b@c"))) ∧
  ∃ l, login_required (λ _, index) empty_db (get_req None (UProfileFollow "a+b@c")) =
         (empty_db, Redirect l) ∧
       login_next (reverse l) = Some (reverse (req_path (get_req None (UProfileFollow "a+b@c")))) ∧
       login_next (reverse l) ≫= resolve_path = Some (req_path (get_req None (UProfileFollow "a+b@c"))).
Proof.
  assert (Ha : request_user empty_db (get_req None (UProfileFollow "a+b@c")) = None) by reflexivity.
  assert (Hu : url_ok (req_path (get_req None (UProfileFollow "a+b@c")))) by (split; [done|by_eval]).
  exact (conj Ha (conj Hu (login_redirect_next _ _ _ Ha Hu))).
Defined.

End Urls.
