(* ===== verification/FollowGraph.v ===== *)
(** * FollowGraph: the follows table refines a set of edges

    What the follow pages promise, stated without the table: the site
    keeps a set of edges (follower, author); [profile_follow] adds the
    edge unless the user is the author, [profile_unfollow] removes it.
    The abstraction maps a database to the set of pairs of its [Follow]
    rows.  The theorem is a simulation: any sequence of follow and
    unfollow requests by existing users, sent through [handle], leaves a
    table whose pairs are the edges of the abstract graph after the same
    operations; the follow feed and the profile's counters are then
    functions of the graph. *)

From stdpp Require Import base list strings sets gmap.
From Stdlib Require Import Lia.
From S2P Require Import Prelude Models Fixtures Paginator Feed Forms Views.

Open Scope yatube_scope.

Module FollowGraph.
Import Models Fixtures Paginator Feed Forms Views.

(** ** The abstract graph *)

Definition Graph := gset (nat * nat).

(** A follow page request, by the session of [u], about the profile of
    [a]. *)
Inductive FollowOp := OpFollow (u a : User) | OpUnfollow (u a : User).

Definition graph_step (g : Graph) (op : FollowOp) : Graph :=
  match op with
  | OpFollow u a => if decide (user_id u = user_id a) then g else {[(user_id u, user_id a)]} ∪ g
  | OpUnfollow u a => g ∖ {[(user_id u, user_id a)]}
  end.

(** ** The implementation: requests to the app *)

Definition edges (db : DB) : Graph := list_to_set (follow_pair <$> follows db).

Definition op_request (op : FollowOp) : Request :=
  match op with
  | OpFollow u a => get_req (Some (user_id u)) (UProfileFollow (username a))
  | OpUnfollow u a => get_req (Some (user_id u)) (UProfileUnfollow (username a))
  end.

Definition run_op (db : DB) (op : FollowOp) : DB :=
  match handle db (op_request op) with Some (db', _) => db' | None => db end.

Definition run_ops (db : DB) (ops : list FollowOp) : DB := foldl run_op db ops.

(** Both users of an operation have an account. *)
Definition op_users_in (db : DB) (op : FollowOp) : Prop :=
  match op with OpFollow u a | OpUnfollow u a => u ∈ users db ∧ a ∈ users db end.

#[export] Instance op_users_in_dec db op : Decision (op_users_in db op).
Proof. destruct op; simpl; apply _. Defined.

(** ** The simulation *)

Lemma request_user_session db req u :
  wf db → u ∈ users db → req_session req = Some (user_id u) → request_user db req = Some u.
Proof. intros Hwf Hu Hs. unfold request_user. rewrite Hs. apply head_filter_key, Hu. apply Hwf. Qed.

(** The follow pages never touch the users table. *)
Lemma run_op_users db op : users (run_op db op) = users db.
Proof.
  unfold run_op, op_request, handle. destruct op; simpl;
    unfold profile_follow, profile_unfollow, login_required, or_404, or_500;
    repeat case_match; simplify_eq/=; try done.
  all: revert select (follow_get_or_create _ _ _ = _); unfold follow_get_or_create, create_follow.
  all: repeat case_match; intros; by simplify_eq/=.
Qed.

Lemma edges_snoc db f :
  list_to_set (follow_pair <$> follows db ++ [f]) = ({[follow_pair f]} ∪ edges db : Graph).
Proof. unfold edges. rewrite fmap_app, list_to_set_app_L. set_solver. Qed.

(** One request: the table's edges move as the graph's. *)
Lemma run_op_step db op :
  wf db → op_users_in db op → edges (run_op db op) = graph_step (edges db) op ∧ wf (run_op db op).
Proof.
  intros Hwf Hin.
  assert (Hw : wf (run_op db op)).
  { unfold run_op. destruct (handle _ _) as [[db' r]|] eqn:Eh; [|done].
    by eapply handle_answered. }
  split; [|done]. destruct op as [u a|u a]; destruct Hin as [Hu Ha];
    unfold run_op, op_request, handle; simpl;
    unfold profile_follow, profile_unfollow, login_required;
    rewrite (request_user_session db _ u) by done; simpl; rewrite get_user_found by done; simpl.
  - destruct (decide (user_id u = user_id a)) as [Heq|Hne].
    { by rewrite decide_False by auto. }
    rewrite decide_True by done.
    destruct (follow_get_or_create_spec db (user_id u) (user_id a))
      as (db' & f & c & -> & Hf & Hfin & Hfs & _);
      [done|by apply list_elem_of_fmap_2..|]. simpl.
    unfold edges at 1. rewrite Hfs. destruct c.
    + by rewrite edges_snoc, Hf.
    + rewrite Hfs in Hfin. unfold edges. rewrite <-Hf. apply set_eq. intros x. rewrite elem_of_union, elem_of_singleton,
        elem_of_list_to_set. split; [auto|]. intros [->|?]; [by apply list_elem_of_fmap_2|done].
  - unfold edges, follow_filter_delete. simpl. apply set_eq. intros x.
    rewrite elem_of_difference, elem_of_singleton, !elem_of_list_to_set. split.
    + intros (f & -> & [Hne Hf]%list_elem_of_filter)%list_elem_of_fmap.
      split; [by apply list_elem_of_fmap_2|done].
    + intros [(f & -> & Hf)%list_elem_of_fmap Hne]. apply list_elem_of_fmap_2, list_elem_of_filter. done.
Qed.

(** The simulation over a sequence of requests, with [wf] carried along. *)
Lemma run_ops_simulation db ops :
  wf db → Forall (op_users_in db) ops →
  edges (run_ops db ops) = foldl graph_step (edges db) ops ∧ wf (run_ops db ops).
Proof.
  revert db. induction ops as [|op ops IH]; intros db Hwf Hops; [done|].
  apply Forall_cons in Hops as [Hop Hops]. simpl.
  destruct (run_op_step db op Hwf Hop) as [<- Hw]. apply IH; [done|].
  eapply Forall_impl; [exact Hops|]. intros [] ?; simpl in *; by rewrite run_op_users.
Qed.

(** C21: The follows table refines the abstract follow graph: after any
    sequence of follow and unfollow requests by users with an account,
    the pairs of the table are the edges the graph has after the same
    operations, from the pairs the table started with. *)
Theorem follow_graph_refinement db ops :
  wf db → Forall (op_users_in db) ops →
  edges (run_ops db ops) = foldl graph_step (edges db) ops.
Proof. intros Hwf Hops. apply (run_ops_simulation db ops Hwf Hops). Qed.

(** C30: The follow feed after any sequence of follow and unfollow
    requests is the index restricted to the authors the abstract graph
    says the user follows: the feed is a function of the graph. *)
Theorem feed_follows_graph db ops uid :
  wf db → Forall (op_users_in db) ops →
  following_posts_qs (run_ops db ops) uid =
    filter (λ p, (uid, author p) ∈ foldl graph_step (edges db) ops) (all_posts (run_ops db ops)).
Proof.
  intros Hwf Hops. destruct (run_ops_simulation db ops Hwf Hops) as [<- Hw].
  unfold following_posts_qs. rewrite following_join_filter, filtered_feed by done.
  apply list_filter_iff. intros p. unfold edges. by rewrite elem_of_list_to_set.
Qed.

(** ** The counters of the profile page *)

Lemma filter_list_to_set (P : nat * nat → Prop) `{∀ e, Decision (P e)} (l : list (nat * nat)) :
  filter P (list_to_set l : Graph) = list_to_set (filter P l).
Proof. apply set_eq. intros e. rewrite elem_of_filter, !elem_of_list_to_set, list_elem_of_filter. tauto. Qed.

Lemma length_filter_fmap {A B} (f : A → B) (P : B → Prop) `{∀ b, Decision (P b)} (l : list A) :
  length (filter P (f <$> l)) = length (filter (λ x, P (f x)) l).
Proof.
  induction l as [|x l IH]; [done|]. rewrite fmap_cons, !filter_cons.
  case_decide; simpl; by rewrite IH.
Qed.

(** C31: The two counters of the profile page count edges of the follow
    graph: [author.following.count()] is the number of users following
    the author, [author.follower.count()] the number of authors the user
    follows, each edge once thanks to the unique constraint. *)
Theorem profile_counters_graph db uid :
  wf db →
  followers_count db uid = size (filter (λ e : nat * nat, e.2 = uid) (edges db)) ∧
  following_count db uid = size (filter (λ e : nat * nat, e.1 = uid) (edges db)).
Proof.
  intros Hwf. pose proof (wf_follow_pairs _ Hwf) as Hnd.
  unfold edges, followers_count, following_count, qs_count.
  rewrite !filter_list_to_set, !size_list_to_set by (by apply NoDup_filter).
  by rewrite !length_filter_fmap.
Qed.

(** ** The list pages against their specification *)

(** A list page shows the page the request asks for of the index
    restricted to the page's posts. *)
Definition index_page (req : Request) (P : Post → Prop) `{∀ p, Decision (P p)} (db : DB) : Page Post :=
  page_of req (filter P (all_posts db)).

Section list_pages.
Context `{FormBackend}.

(** C11: On a well-formed database the group page of an existing group
    and the profile of an existing user are their specifications: the
    requested page of the index restricted to the group's posts, or to
    the author's; the profile's count of posts, its "following" button
    as the edge from the signed-in user to the author in the follow
    graph, and its two counters. *)
Theorem list_pages_spec db req :
  wf db →
  (∀ g, g ∈ groups db →
     group_posts (slug g) db req =
       (db, Render TGroupList (CtxGroup g (index_page req (λ p, group p = Some (group_id g)) db)
                                         ("Записи сообщества " ++ title g)%string))) ∧
  (∀ a, a ∈ users db →
     profile (username a) db req =
       (db, Render TProfile (CtxProfile ("Профайл пользователя " ++ username a)%string
              (index_page req (λ p, author p = user_id a) db)
              (length (filter (λ p, author p = user_id a) (all_posts db))) a
              (match request_user db req with
               | Some u => bool_decide ((user_id u, user_id a) ∈ edges db)
               | None => false
               end)
              (followers_count db (user_id a)) (following_count db (user_id a))))).
Proof.
  intros Hwf. split.
  - intros g Hg. unfold group_posts. rewrite get_group_found by done. simpl.
    rewrite render_page_ok. unfold group_posts_qs, index_page. by rewrite filtered_feed.
  - intros a Ha. unfold profile. rewrite get_user_found by done. simpl.
    rewrite render_page_ok. unfold author_posts_qs, index_page. rewrite filtered_feed by done.
    do 3 f_equal. destruct (request_user db req) as [u|]; [|done].
    rewrite is_following_pair. apply bool_decide_ext. unfold edges. by rewrite elem_of_list_to_set.
Qed.
End list_pages.

(** [FollowViewsTest]: "follower" follows "author" twice, "author" tries
    to follow themself, "user" follows and unfollows "author". *)
Definition follow_script : list FollowOp :=
  let user := mkUser 1 "user" in
  let follower := mkUser 2 "follower" in
  let author := mkUser 3 "author" in
  [OpFollow follower author; OpFollow follower author; OpFollow author author;
   OpFollow user author; OpUnfollow user author].

Lemma follow_graph_refinement_witness :
  wf follow_db ∧ Forall (op_users_in follow_db) follow_script ∧
  edges (run_ops follow_db follow_script) = foldl graph_step (edges follow_db) follow_script.
Proof.
  assert (Hw : wf follow_db) by by_eval.
  assert (Hops : Forall (op_users_in follow_db) follow_script) by by_eval.
  exact (conj Hw (conj Hops (follow_graph_refinement _ _ Hw Hops))).
Defined.

Lemma feed_follows_graph_witness :
  wf follow_db ∧ Forall (op_users_in follow_db) follow_script ∧
  following_posts_qs (run_ops follow_db follow_script) 2 =
    filter (λ p, (2, author p) ∈ foldl graph_step (edges follow_db) follow_script)
           (all_posts (run_ops follow_db follow_script)).
Proof.
  assert (Hw : wf follow_db) by by_eval.
  assert (Hops : Forall (op_users_in follow_db) follow_script) by by_eval.
  exact (conj Hw (conj Hops (feed_follows_graph _ _ 2 Hw Hops))).
Defined.

Lemma profile_counters_graph_witness :
  wf followed_db ∧
  followers_count followed_db 3 = size (filter (λ e : nat * nat, e.2 = 3) (edges followed_db)) ∧
  following_count followed_db 3 = size (filter (λ e : nat * nat, e.1 = 3) (edges followed_db)).
Proof.
  assert (Hw : wf followed_db) by by_eval.
  exact (conj Hw (profile_counters_graph followed_db 3 Hw)).
Defined.

(** The group and profile pages of [PagesTests], asked by "user". *)
Lemma list_pages_spec_witness :
  wf pages_db ∧
  (∀ g, g ∈ groups pages_db →
     group_posts (slug g) pages_db (get_req (Some 1) UIndex) =
       (pages_db, Render TGroupList (CtxGroup g
          (index_page (get_req (Some 1) UIndex) (λ p, group p = Some (group_id g)) pages_db)
          ("Записи сообщества " ++ title g)%string))) ∧
  (∀ a, a ∈ users pages_db →
     profile (username a) pages_db (get_req (Some 1) UIndex) =
       (pages_db, Render TProfile (CtxProfile ("Профайл пользователя " ++ username a)%string
              (index_page (get_req (Some 1) UIndex) (λ p, author p = user_id a) pages_db)
              (length (filter (λ p, author p = user_id a) (all_posts pages_db))) a
              (match request_user pages_db (get_req (Some 1) UIndex) with
               | Some u => bool_decide ((user_id u, user_id a) ∈ edges pages_db)
               | None => false
               end)
              (followers_count pages_db (user_id a)) (following_count pages_db (user_id a))))).
Proof.
  assert (Hw : wf pages_db) by by_eval.
  exact (conj Hw (list_pages_spec pages_db (get_req (Some 1) UIndex) Hw)).
Defined.

(** On that script the table ends with the one row of "follower". *)
Lemma follow_script_rows : follow_pair <$> follows (run_ops follow_db follow_script) = [(2, 3)].
Proof. vm_compute. reflexivity. Qed.

End FollowGraph.
