(* ===== verification/Site.v ===== *)
(** * Site: what every response is, and what the site can always do

    Two properties of the site as a whole, over [Views.handle] and the
    step relation [Views.step]:
    - a typing of responses: every rendered template receives the
      context it is written for, every page object is a page in range
      of at most [PAR_PAGE] posts, every redirect goes to a public page
      of the app or to the login page with a protected path as [next];
    - progress: from every reachable state, a follow request and a post
      form, two requests, put the author's new post at the head of the
      follower's feed;
    - the error path of a post form that does not validate with
      Django's forms: nothing is stored, the form is shown again. *)

From stdpp Require Import base list strings sets gmap relations.
From Stdlib Require Import Lia ZArith.
From S2P Require Import Prelude Models Fixtures Paginator Feed Forms Views FollowGraph.

Open Scope yatube_scope.

Module Site.
Import Models Fixtures Paginator Feed Forms Views FollowGraph.

(** ** Response types *)

(** The template each context is written for. *)
Definition ctx_template (c : Context) : Template :=
  match c with
  | CtxIndex _ _ => TIndex
  | CtxGroup _ _ _ => TGroupList
  | CtxProfile _ _ _ _ _ _ _ => TProfile
  | CtxDetail _ _ _ _ _ => TPostDetail
  | CtxCreate _ | CtxEdit _ _ _ => TPostCreate
  | CtxFollow _ _ _ => TFollow
  end.

(** A page object the templates can index: a number in [1 .. num_pages]
    and at most [PAR_PAGE] posts. *)
Definition page_typed (pg : Page Post) : Prop :=
  (1 ≤ number pg ≤ page_num_pages pg)%Z ∧ length (object_list pg) ≤ Z.to_nat PAR_PAGE.

(** The follow page also gets the paginator its page object came from. *)
Definition ctx_typed (c : Context) : Prop :=
  match c with
  | CtxIndex pg _ | CtxGroup _ pg _ | CtxProfile _ pg _ _ _ _ _ => page_typed pg
  | CtxFollow pg pag _ =>
      page_typed pg ∧ page_num_pages pg = num_pages (per_page pag) (paginator_object_list pag)
  | _ => True
  end.

Definition response_typed (r : Response) : Prop :=
  match r with
  | Render t c => ctx_template c = t ∧ ctx_typed c
  | Redirect (ULogin next) => login_only next = true
  | Redirect u => login_only u = false
  | NotFound | ServerError => True
  end.

Lemma page_of_typed req objects : page_typed (page_of req objects).
Proof.
  destruct (get_page_number_spec PAR_PAGE objects ltac:(done) (page_arg req)) as [Hn Hr].
  unfold page_of, page_typed, page_slice. simpl. split; [by rewrite <-Hn|].
  rewrite length_take. lia.
Qed.

Lemma page_of_paginator req objects :
  page_typed (page_of req objects) ∧ page_num_pages (page_of req objects) = num_pages PAR_PAGE objects.
Proof. split; [apply page_of_typed|done]. Qed.

Local Hint Resolve page_of_typed page_of_paginator : yatube.

Section typing.
Context `{FormBackend}.

Lemma login_required_typed (v : User → View) db req :
  login_only (req_path req) = true →
  (∀ u, response_typed (v u db req).2) → response_typed (login_required v db req).2.
Proof. intros Hl Hv. unfold login_required. by destruct (request_user db req). Qed.

Ltac typed_views :=
  unfold index, group_posts, profile, post_detail, post_create, post_edit, add_comment,
    follow_index, profile_follow, profile_unfollow, or_404, or_500;
  repeat first [rewrite render_page_ok | case_match]; simplify_eq/=; auto with yatube.

Lemma resolved_view_typed db req v :
  resolve (req_path req) = Some v → response_typed (v db req).2.
Proof.
  destruct (req_path req) eqn:Ep; intros Hv; simplify_eq/=;
    try (apply login_required_typed; [by rewrite Ep|intros u]); typed_views.
Qed.

(** C23: Every response of the app is well-typed: a template gets the
    context it is written for, with a page object in range of at most
    [PAR_PAGE] posts (on the follow page, a page of the paginator it is
    handed); a redirect goes to a public page or to the login
    page with a protected path as [next]. *)
Theorem handle_typed db req db' r :
  handle db req = Some (db', r) → response_typed r.
Proof.
  unfold handle. destruct (resolve (req_path req)) as [v|] eqn:Ev; intros Hh; simplify_eq/=.
  pose proof (resolved_view_typed db req v Ev) as Ht. by rewrite Hh in Ht.
Qed.
End typing.

(** ** Progress *)

(** A post form holding only a text that is not blank validates, in any
    state: the group and the image are optional. *)
Lemma django_clean_text_only db t :
  py_strip t ≠ ""%string →
  django_clean_post db (mkFormData (Some t) None None) = Some (mkPostClean (py_strip t) None None).
Proof. intros Ht. unfold django_clean_post, clean_char. simpl. by rewrite bool_decide_false. Qed.

(** A follow request between two distinct users of a well-formed
    database is answered with the redirect to the author's profile. *)
Lemma follow_request_redirects db u a :
  wf db → u ∈ users db → a ∈ users db → user_id u ≠ user_id a →
  handle db (op_request (OpFollow u a)) = Some (run_op db (OpFollow u a), Redirect (UProfile (username a))).
Proof.
  intros Hwf Hu Ha Hne. unfold run_op.
  enough (Hh : ∃ db1, handle db (op_request (OpFollow u a)) = Some (db1, Redirect (UProfile (username a))))
    by (destruct Hh as [db1 ->]; done).
  unfold op_request, handle. simpl. unfold profile_follow, login_required.
  rewrite (request_user_session db _ u) by done. simpl. rewrite get_user_found by done. simpl.
  rewrite decide_True by done.
  destruct (follow_get_or_create_spec db (user_id u) (user_id a)) as (db' & f & c & -> & _);
    [done|by apply list_elem_of_fmap_2..|]. by eexists.
Qed.

(** C24: From every reachable state, two requests let a user follow another
    user and that user publish: the follow page answers with the
    author's profile, the post form from the author's session is saved
    and answered with the same profile, and the new post, with the text
    the author typed, heads the follower's feed. *)
Theorem follow_then_publish db u a t :
  reachable db → u ∈ users db → a ∈ users db → user_id u ≠ user_id a → py_strip t ≠ ""%string →
  ∃ db1 db2 p,
    handle db (get_req (Some (user_id u)) (UProfileFollow (username a))) =
      Some (db1, Redirect (UProfile (username a))) ∧
    handle db1 (post_req (Some (user_id a)) UPostCreate (mkFormData (Some t) None None)) =
      Some (db2, Redirect (UProfile (username a))) ∧
    author p = user_id a ∧ text p = py_strip t ∧ head (following_posts_qs db2 (user_id u)) = Some p.
Proof.
  intros Hr Hu Ha Hne Ht. pose proof (reachable_is_wf _ Hr) as Hwf.
  set (db1 := run_op db (OpFollow u a)).
  destruct (run_op_step db (OpFollow u a)) as [He Hwf1]; [done|done|].
  assert (Hedge : (user_id u, user_id a) ∈ follow_pair <$> follows db1).
  { apply (elem_of_list_to_set (C := Graph)).
    change (list_to_set (follow_pair <$> follows db1)) with (edges db1). unfold db1. rewrite He. simpl.
    rewrite decide_False by done. set_solver. }
  assert (Ha1 : a ∈ users db1) by (unfold db1; by rewrite run_op_users).
  set (req := post_req (Some (user_id a)) UPostCreate (mkFormData (Some t) None None)).
  destruct (post_create_inserts db1 req a (mkFormData (Some t) None None)
              (mkPostClean (py_strip t) None None)) as (db2 & p & Hc & Hpc);
    [done|by apply request_user_session|done|by apply django_clean_text_only|].
  destruct (create_post_posts _ _ _ _ _ _ _ Hc) as [_ Hp].
  exists db1, db2, p. split_and!.
  - by apply follow_request_redirects.
  - unfold handle. replace (req_path req) with UPostCreate by reflexivity. exact (f_equal Some Hpc).
  - by subst p.
  - by subst p.
  - rewrite (followed_post_heads_feed db1 _ _ _ _ db2 p (user_id u) Hwf1 Hedge Hc). by subst p.
Qed.

(** ** Error paths: a post form that does not validate *)

(** A post form fails as soon as one of its fields fails. *)
Lemma django_clean_post_none db d :
  clean_char (fd_text d) = None ∨ clean_group db (fd_group d) = None ∨ clean_image (fd_image d) = None →
  django_clean_post db d = None.
Proof.
  unfold django_clean_post. intros Hbad.
  destruct (clean_char _), (clean_group _ _), (clean_image _); simpl; naive_solver.
Qed.

(** C29: With Django's forms, a post form whose text is blank, whose group
    is not the key of an existing group, or whose file is not an image
    stores nothing: the create page, and the author's edit page, are
    rendered again with the bound form. *)
Theorem invalid_post_form_rerenders db req u d :
  request_user db req = Some u → req_data req = Some d →
  clean_char (fd_text d) = None ∨ clean_group db (fd_group d) = None ∨ clean_image (fd_image d) = None →
  post_create db req = (db, Render TPostCreate (CtxCreate (Invalid d))) ∧
  (∀ p, wf db → p ∈ posts db → author p = user_id u →
        post_edit (post_id p) db req = (db, Render TPostCreate (CtxEdit p (Invalid d) true))).
Proof.
  intros Hu Hd Hbad. pose proof (django_clean_post_none db d Hbad) as Hn. split.
  - unfold post_create, login_required. rewrite Hu, Hd. simpl. by rewrite Hn.
  - intros p Hwf Hp Ha. unfold post_edit, login_required. rewrite Hu. simpl.
    rewrite get_post_found by done. simpl. rewrite decide_False by auto.
    rewrite Hd. simpl. by rewrite Hn.
Qed.

(** ** Error paths: a row that does not exist *)

Lemma qs_get_missing {A B} `{EqDecision B} (k : A → B) (l : list A) v :
  v ∉ k <$> l → qs_get (λ x, k x = v) l = inr DoesNotExist.
Proof. intros Hv. unfold qs_get. by rewrite filter_key_nil. Qed.

Section not_found.
Context `{FormBackend}.

(** C32: [get_object_or_404] answers a slug, a username or a post key that
    no row has with a 404 and changes nothing: on the group page, the
    profile, the post page and, for a signed-in user, the edit and the
    comment pages. *)
Theorem missing_rows_not_found db req s n pid :
  (s ∉ slug <$> groups db → group_posts s db req = (db, NotFound)) ∧
  (n ∉ username <$> users db → profile n db req = (db, NotFound)) ∧
  (pid ∉ post_id <$> posts db →
     post_detail pid db req = (db, NotFound) ∧
     (∀ u, request_user db req = Some u →
        post_edit pid db req = (db, NotFound) ∧ add_comment pid db req = (db, NotFound))).
Proof.
  split_and!; intros Hm.
  - unfold group_posts, get_group_by_slug. by rewrite qs_get_missing.
  - unfold profile, get_user_by_name. by rewrite qs_get_missing.
  - unfold post_detail, post_edit, add_comment, login_required, get_post.
    rewrite qs_get_missing by done. split; [done|]. intros u Hu. by rewrite Hu.
Qed.
End not_found.

(** ** Composition: a comment, then the page the user is sent to *)

Section comment_page.
Context `{FormBackend}.

(** C36: After a valid comment, the post page the user is redirected to
    lists the post's comments in the order they were written, the new
    one last, with the text the user typed and the user as author; the
    post and its author's count are unchanged, and the comment form is
    blank again. *)
Theorem comment_then_detail db req req' u p t :
  wf db → request_user db req = Some u → p ∈ posts db → req_data req ≫= clean_comment = Some t →
  (add_comment (post_id p) db req).2 = Redirect (UPostDetail (post_id p)) ∧
  ∃ c, comment_text c = t ∧ comment_author c = user_id u ∧
    post_detail (post_id p) (add_comment (post_id p) db req).1 req' =
      ((add_comment (post_id p) db req).1,
       Render TPostDetail (CtxDetail (text p) p (length (author_posts_qs db (author p))) Unbound
                                     (post_comments db (post_id p) ++ [c]))).
Proof.
  intros Hwf Hu Hp Ht. unfold add_comment, login_required. rewrite Hu. simpl.
  rewrite get_post_found by done. simpl. rewrite Ht. unfold create_comment.
  rewrite decide_True by (split; [by apply list_elem_of_fmap_2|by eapply request_user_exists]).
  split; [done|]. exists (mkComment (next_comment db) (post_id p) (user_id u) (clock db) t).
  split_and!; [done..|].
  simpl. unfold post_detail, get_post. cbn [posts comments]. fold (get_post db (post_id p)).
  rewrite get_post_found by done. simpl.
  unfold post_comments, author_posts_qs. cbn [posts comments].
  by rewrite filter_app, filter_cons_True, filter_nil by done.
Qed.
End comment_page.

(** ** Witnesses *)

Local Open Scope string_scope.

Lemma handle_typed_witness :
  handle pages_db (get_req (Some 1) UIndex) = Some (index pages_db (get_req (Some 1) UIndex)) ∧
  response_typed (index pages_db (get_req (Some 1) UIndex)).2.
Proof.
  assert (Hh : handle pages_db (get_req (Some 1) UIndex) =
               Some (index pages_db (get_req (Some 1) UIndex))) by reflexivity.
  destruct (index pages_db (get_req (Some 1) UIndex)) as [db' r] eqn:E.
  exact (conj Hh (handle_typed _ _ _ _ Hh)).
Defined.

(** Two sign-ups: "follower" (1) and "author" (2). *)
Definition two_users_db : DB := after (create_user (after (create_user empty_db "follower")) "author").

Lemma follow_then_publish_witness :
  reachable two_users_db ∧ mkUser 1 "follower" ∈ users two_users_db ∧
  mkUser 2 "author" ∈ users two_users_db ∧ 1 ≠ 2 ∧ py_strip "Новый пост" ≠ "" ∧
  ∃ db1 db2 p,
    handle two_users_db (get_req (Some 1) (UProfileFollow "author")) = Some (db1, Redirect (UProfile "author")) ∧
    handle db1 (post_req (Some 2) UPostCreate (mkFormData (Some "Новый пост") None None)) =
      Some (db2, Redirect (UProfile "author")) ∧
    author p = 2 ∧ text p = py_strip "Новый пост" ∧ head (following_posts_qs db2 1) = Some p.
Proof.
  assert (Hr : reachable two_users_db).
  { apply (reach_step (after (create_user empty_db "follower"))).
    - apply (reach_step empty_db); [apply reach_init|].
      apply (step_signup _ "follower" _ (mkUser 1 "follower")). reflexivity.
    - apply (step_signup _ "author" _ (mkUser 2 "author")). reflexivity. }
  assert (Hu : mkUser 1 "follower" ∈ users two_users_db) by by_eval.
  assert (Ha : mkUser 2 "author" ∈ users two_users_db) by by_eval.
  assert (Hne : 1 ≠ 2) by lia.
  assert (Ht : py_strip "Новый пост" ≠ "") by by_eval.
  exact (conj Hr (conj Hu (conj Ha (conj Hne (conj Ht
    (follow_then_publish two_users_db (mkUser 1 "follower") (mkUser 2 "author") _ Hr Hu Ha Hne Ht)))))).
Defined.

(** [PostFormTests]: "user" (1) submits a text of spaces. *)
Definition blank_post : FormData := mkFormData (Some "   ") None None.

Lemma invalid_post_form_rerenders_witness :
  request_user post_form_db (post_req (Some 1) UPostCreate blank_post) = Some (mkUser 1 "user") ∧
  req_data (post_req (Some 1) UPostCreate blank_post) = Some blank_post ∧
  (clean_char (fd_text blank_post) = None ∨ clean_group post_form_db (fd_group blank_post) = None ∨
   clean_image (fd_image blank_post) = None) ∧
  (post_create post_form_db (post_req (Some 1) UPostCreate blank_post) =
     (post_form_db, Render TPostCreate (CtxCreate (Invalid blank_post))) ∧
   (∀ p, wf post_form_db → p ∈ posts post_form_db → author p = user_id (mkUser 1 "user") →
      post_edit (post_id p) post_form_db (post_req (Some 1) UPostCreate blank_post) =
        (post_form_db, Render TPostCreate (CtxEdit p (Invalid blank_post) true)))).
Proof.
  assert (Hu : request_user post_form_db (post_req (Some 1) UPostCreate blank_post) =
               Some (mkUser 1 "user")) by reflexivity.
  assert (Hd : req_data (post_req (Some 1) UPostCreate blank_post) = Some blank_post) by reflexivity.
  assert (Hb : clean_char (fd_text blank_post) = None ∨ clean_group post_form_db (fd_group blank_post) = None ∨
               clean_image (fd_image blank_post) = None) by (left; vm_compute; reflexivity).
  exact (conj Hu (conj Hd (conj Hb (invalid_post_form_rerenders _ _ _ _ Hu Hd Hb)))).
Defined.

(** [CommentFormTests]: "user" (1) comments on post 1, then opens it. *)
Definition comment_req : Request := post_req (Some 1) (UAddComment 1) comment_data.
Definition commented_post : Post := mkPost 1 "Текст" 1 1 (Some 1) "".

Lemma comment_then_detail_witness :
  wf post_form_db ∧ request_user post_form_db comment_req = Some (mkUser 1 "user") ∧
  commented_post ∈ posts post_form_db ∧ req_data comment_req ≫= clean_comment = Some "Тестовый комментарий" ∧
  ((add_comment (post_id commented_post) post_form_db comment_req).2 = Redirect (UPostDetail 1) ∧
   ∃ c, comment_text c = "Тестовый комментарий" ∧ comment_author c = 1 ∧
     post_detail 1 (add_comment 1 post_form_db comment_req).1 (get_req None (UPostDetail 1)) =
       ((add_comment 1 post_form_db comment_req).1,
        Render TPostDetail (CtxDetail (text commented_post) commented_post
          (length (author_posts_qs post_form_db (author commented_post))) Unbound
          (post_comments post_form_db 1 ++ [c])))).
Proof.
  assert (Hw : wf post_form_db) by by_eval.
  assert (Hu : request_user post_form_db comment_req = Some (mkUser 1 "user")) by reflexivity.
  assert (Hp : commented_post ∈ posts post_form_db) by by_eval.
  assert (Ht : req_data comment_req ≫= clean_comment = Some "Тестовый комментарий") by reflexivity.
  exact (conj Hw (conj Hu (conj Hp (conj Ht
    (comment_then_detail _ _ (get_req None (UPostDetail 1)) _ _ _ Hw Hu Hp Ht))))).
Defined.

End Site.
