(* ===== verification/Keys.v ===== *)
(** * Keys: how far the primary key sequences go

    Every table of the app has Django's implicit [id = AutoField(...)]:
    SQLite hands out the next integer of the table's sequence on each
    insert.  Each step of [Views.step] inserts at most one row, so after
    [n] steps from the empty database the five sequences have handed out
    at most [n] keys between them, and every primary key is at most [n]:
    a site stays inside the 32-bit signed range of [AutoField]
    ([2 ^ 31 - 1]) for its first [2 ^ 31 - 1] steps.  Steps are counted
    with stdpp's [nsteps]. *)

From stdpp Require Import base list relations strings.
From Stdlib Require Import String Lia ZArith.
From S2P Require Import Prelude Models Fixtures Forms Views.

Open Scope yatube_scope.

Module Keys.
Import Models Fixtures Forms Views.

(** The keys handed out so far, over the five tables. *)
Definition keys_issued (db : DB) : nat :=
  (next_user db - 1) + (next_group db - 1) + (next_post db - 1) + (next_comment db - 1) + (next_follow db - 1).

(** No sequence goes back, and together they move by at most one. *)
Definition seqs_grow (db db' : DB) : Prop :=
  next_user db ≤ next_user db' ∧ next_group db ≤ next_group db' ∧ next_post db ≤ next_post db' ∧
  next_comment db ≤ next_comment db' ∧ next_follow db ≤ next_follow db' ∧
  next_user db' + next_group db' + next_post db' + next_comment db' + next_follow db' ≤
    S (next_user db + next_group db + next_post db + next_comment db + next_follow db).

Lemma seqs_grow_refl db : seqs_grow db db.
Proof. unfold seqs_grow. lia. Qed.

(** The sequences are untouched unless a row is inserted. *)
Definition same_seqs (db db' : DB) : Prop :=
  next_user db' = next_user db ∧ next_group db' = next_group db ∧ next_post db' = next_post db ∧
  next_comment db' = next_comment db ∧ next_follow db' = next_follow db.

Lemma same_seqs_grow db db' : same_seqs db db' → seqs_grow db db'.
Proof. unfold same_seqs, seqs_grow. lia. Qed.

Create HintDb keys.
#[local] Hint Resolve seqs_grow_refl same_seqs_grow : keys.

(** ** Each write *)

Ltac seqs_write :=
  repeat match goal with
  | H : context [decide ?P] |- _ => destruct (decide P); simplify_eq/=
  | H : inl _ = inl _ |- _ => simplify_eq/=
  | H : inr _ = inl _ |- _ => discriminate
  end; unfold seqs_grow, same_seqs; simpl; lia.

Lemma create_user_seqs db name db' u : create_user db name = inl (db', u) → seqs_grow db db'.
Proof. unfold create_user. intros. seqs_write. Qed.

Lemma create_group_seqs db t s d db' g : create_group db t s d = inl (db', g) → seqs_grow db db'.
Proof. unfold create_group. intros. seqs_write. Qed.

Lemma create_post_seqs db t a og i db' p : create_post db t a og i = inl (db', p) → seqs_grow db db'.
Proof. unfold create_post. intros. seqs_write. Qed.

Lemma create_comment_seqs db pid a t db' c : create_comment db pid a t = inl (db', c) → seqs_grow db db'.
Proof. unfold create_comment. intros. seqs_write. Qed.

Lemma save_post_seqs db p db' : save_post db p = inl db' → same_seqs db db'.
Proof. unfold save_post. intros. seqs_write. Qed.

Lemma create_follow_seqs db u a db' f : create_follow db u a = inl (db', f) → seqs_grow db db'.
Proof. unfold create_follow. intros. seqs_write. Qed.

Lemma admin_change_post_seqs db p t a og img db' :
  admin_change_post db p t a og img = inl db' → same_seqs db db'.
Proof. apply save_post_seqs. Qed.

Lemma admin_change_rows_seqs db db' :
  (∃ g t s d, admin_change_group db g t s d = inl db') ∨
  (∃ c pid a t, admin_change_comment db c pid a t = inl db') ∨
  (∃ f u a, admin_change_follow db f u a = inl db') → same_seqs db db'.
Proof.
  unfold admin_change_group, admin_change_comment, admin_change_follow.
  intros [(? & ? & ? & ? & ?)|[(? & ? & ? & ? & ?)|(? & ? & ? & ?)]]; seqs_write.
Qed.

Lemma follow_get_or_create_seqs db u a db' f c :
  follow_get_or_create db u a = inl (db', f, c) → seqs_grow db db'.
Proof.
  unfold follow_get_or_create, create_follow. intros.
  repeat (case_match; simplify_eq/=); seqs_write.
Qed.

Lemma deletes_same_seqs db x :
  same_seqs db (delete_post db x) ∧ same_seqs db (delete_group db x) ∧ same_seqs db (delete_user db x) ∧
  same_seqs db (delete_comment db x) ∧ same_seqs db (delete_follow db x).
Proof. unfold same_seqs. split_and!; done. Qed.

Lemma follow_filter_delete_seqs db u a : same_seqs db (follow_filter_delete db u a).
Proof. done. Qed.

#[local] Hint Resolve create_user_seqs create_group_seqs create_post_seqs create_comment_seqs
  save_post_seqs follow_get_or_create_seqs follow_filter_delete_seqs create_follow_seqs
  admin_change_post_seqs : keys.

(** ** Each request and each step *)

Section requests.
Context `{FormBackend}.

Lemma handle_seqs db req db' r : handle db req = Some (db', r) → seqs_grow db db'.
Proof. apply handle_writes; eauto with keys. Qed.
End requests.

Lemma step_seqs db db' : step db db' → seqs_grow db db'.
Proof.
  destruct 1; try (apply same_seqs_grow, deletes_same_seqs);
    try (apply same_seqs_grow, admin_change_rows_seqs; naive_solver); eauto using handle_seqs with keys.
Qed.

Lemma nsteps_seqs n db0 db :
  nsteps step n db0 db →
  next_user db0 ≤ next_user db ∧ next_group db0 ≤ next_group db ∧ next_post db0 ≤ next_post db ∧
  next_comment db0 ≤ next_comment db ∧ next_follow db0 ≤ next_follow db ∧
  next_user db + next_group db + next_post db + next_comment db + next_follow db ≤
    n + (next_user db0 + next_group db0 + next_post db0 + next_comment db0 + next_follow db0).
Proof.
  induction 1 as [|n x y z Hs _ IH]; [lia|].
  pose proof (step_seqs x y Hs) as Hg. unfold seqs_grow in Hg. lia.
Qed.

Lemma nsteps_reachable n db0 db : reachable db0 → nsteps step n db0 db → reachable db.
Proof. intros Hr Hn. induction Hn; eauto using reach_step. Qed.

(** C34: After [n] steps from the empty database, the sequences of the
    five tables have handed out at most [n] keys between them, and every
    primary key of every table is at most [n]: a 32-bit [AutoField]
    cannot overflow before [2 ^ 31 - 1] steps. *)
Theorem keys_bounded n db :
  nsteps step n empty_db db →
  keys_issued db ≤ n ∧
  Forall (λ u, user_id u ≤ n) (users db) ∧ Forall (λ g, group_id g ≤ n) (groups db) ∧
  Forall (λ p, post_id p ≤ n) (posts db) ∧ Forall (λ c, comment_id c ≤ n) (comments db) ∧
  Forall (λ f, follow_id f ≤ n) (follows db).
Proof.
  intros Hn. pose proof (nsteps_seqs _ _ _ Hn) as Hb. simpl in Hb.
  pose proof (reachable_is_wf _ (nsteps_reachable _ _ _ reach_init Hn)) as Hwf.
  unfold keys_issued. split; [lia|]. split_and!.
  all: eapply Forall_impl; [first [apply wf_user_fresh | apply wf_group_fresh | apply wf_post_fresh
                                  | apply wf_comment_fresh | apply wf_follow_fresh]; done|].
  all: simpl; lia.
Qed.


(** "user" signs up, then the admin creates a group: two keys. *)
Definition keys_db : DB := after (create_group signup_db "Группа"%string "test-slug"%string "Описание"%string).

Lemma keys_db_steps : nsteps step 2 empty_db keys_db.
Proof.
  eapply nsteps_l; [apply (step_signup _ "user"%string _ (mkUser 1 "user")); reflexivity|].
  eapply nsteps_l; [apply (step_admin_group _ "Группа"%string "test-slug"%string "Описание"%string _
                             (mkGroup 1 "Группа"%string "test-slug"%string "Описание"%string)); reflexivity|].
  apply nsteps_O.
Qed.

Lemma keys_bounded_witness :
  nsteps step 2 empty_db keys_db ∧
  (keys_issued keys_db ≤ 2 ∧
   Forall (λ u, user_id u ≤ 2) (users keys_db) ∧ Forall (λ g, group_id g ≤ 2) (groups keys_db) ∧
   Forall (λ p, post_id p ≤ 2) (posts keys_db) ∧ Forall (λ c, comment_id c ≤ 2) (comments keys_db) ∧
   Forall (λ f, follow_id f ≤ 2) (follows keys_db)).
Proof. exact (conj keys_db_steps (keys_bounded 2 keys_db keys_db_steps)). Defined.

End Keys.
