(* ===== verification/Interleave.v ===== *)
(** * Interleave: the order of two users' requests

    The site serves one request at a time and relies on the database's
    transactions for the rest (no locking in [views.py]).  Two requests
    of different kinds can arrive in either order: a follow or unfollow
    request ([profile_follow], [profile_unfollow]) and a new post
    ([post_create]).  Each view writes only its own tables and reads
    only tables the other does not write, so the database ends the same
    whichever the server handles first.  The proof goes through frame
    lemmas: what each view writes ([with_post_part], [with_follow_part])
    and what its outcome depends on. *)

From stdpp Require Import base list strings.
From Stdlib Require Import Lia.
From S2P Require Import Prelude Models Paginator Forms Views.

Open Scope yatube_scope.

Module Interleave.
Import Models Paginator Forms Views.

(** ** The parts of the state each view writes *)

(** [Post.objects.create]: the posts, the clock of [auto_now_add] and
    the post sequence. *)
Definition post_part (db : DB) : list Post * nat * nat := (posts db, clock db, next_post db).

Definition with_post_part (db : DB) (pp : list Post * nat * nat) : DB :=
  mkDB (users db) (groups db) pp.1.1 (comments db) (follows db) pp.1.2
       (next_user db) (next_group db) pp.2 (next_comment db) (next_follow db).

(** [Follow.objects.get_or_create] and [.filter(...).delete()]: the
    follows and their sequence. *)
Definition follow_part (db : DB) : list Follow * nat := (follows db, next_follow db).

Definition with_follow_part (db : DB) (fp : list Follow * nat) : DB :=
  mkDB (users db) (groups db) (posts db) (comments db) fp.1
       (clock db) (next_user db) (next_group db) (next_post db) (next_comment db) fp.2.

Lemma with_parts_commute db pp fp :
  with_post_part (with_follow_part db fp) pp = with_follow_part (with_post_part db pp) fp.
Proof. done. Qed.

(** ** What the forms read *)

(** Django's post form reads the groups table only. *)
Lemma clean_group_groups db1 db2 v :
  groups db1 = groups db2 → clean_group db1 v = clean_group db2 v.
Proof.
  intros Hg. unfold clean_group. destruct v as [s|]; [|done].
  case_bool_decide; [done|]. destruct (py_int s) as [n|]; [|done].
  do 2 case_decide; unfold group_exists in *; rewrite ?Hg in *; naive_solver.
Qed.

Lemma django_clean_post_groups db1 db2 d :
  groups db1 = groups db2 → django_clean_post db1 d = django_clean_post db2 d.
Proof. intros Hg. unfold django_clean_post. by rewrite (clean_group_groups db1 db2). Qed.

Lemma request_user_users db1 db2 req :
  users db1 = users db2 → request_user db1 req = request_user db2 req.
Proof. intros Hu. unfold request_user. by rewrite Hu. Qed.

(** ** [post_create] *)

Lemma post_create_frame db req :
  (post_create db req).1 = with_post_part db (post_part (post_create db req).1).
Proof.
  unfold post_create, login_required.
  destruct (request_user db req) as [u|]; [|by destruct db]. simpl.
  destruct (req_data req) as [d|]; [|by destruct db]. simpl.
  destruct (django_clean_post db d) as [c|]; [|by destruct db]. simpl.
  unfold or_500, create_post. case_decide; [done|by destruct db].
Qed.

Lemma post_create_reads db1 db2 req :
  users db1 = users db2 → groups db1 = groups db2 → post_part db1 = post_part db2 →
  post_part (post_create db1 req).1 = post_part (post_create db2 req).1.
Proof.
  intros Hu Hg Hp. unfold post_part in Hp. simplify_eq.
  unfold post_create, login_required. rewrite (request_user_users db1 db2) by done.
  destruct (request_user db2 req) as [u|]; [|simpl; unfold post_part; congruence]. simpl.
  destruct (req_data req) as [d|]; [|simpl; unfold post_part; congruence]. simpl.
  rewrite (django_clean_post_groups db1 db2) by done.
  destruct (django_clean_post db2 d) as [c|]; [|simpl; unfold post_part; congruence]. simpl.
  unfold or_500, create_post. do 2 case_decide;
    unfold user_exists, group_ref_ok, group_exists in *; rewrite ?Hu, ?Hg in *;
    unfold post_part; simpl; first [congruence | tauto].
Qed.

(** ** The follow pages *)

Lemma follow_get_or_create_frame db u a db' f c :
  follow_get_or_create db u a = inl (db', f, c) → db' = with_follow_part db (follow_part db').
Proof.
  unfold follow_get_or_create, create_follow.
  repeat case_match; intros; simplify_eq/=; [|done..].
  match goal with d : DB |- _ => by destruct d end.
Qed.

(** What [get_or_create] leaves of the follows, read from the users and
    the follows only. *)
Definition goc_outcome (r : (DB * Follow * bool) + OrmError) : (list Follow * nat * Follow * bool) + OrmError :=
  match r with inl (d, f, c) => inl (follow_part d, f, c) | inr e => inr e end.

Lemma follow_get_or_create_reads db1 db2 u a :
  users db1 = users db2 → follow_part db1 = follow_part db2 →
  goc_outcome (follow_get_or_create db1 u a) = goc_outcome (follow_get_or_create db2 u a).
Proof.
  intros Hu Hf. unfold follow_part in Hf. simplify_eq.
  unfold follow_get_or_create, qs_get. rewrite H.
  destruct (filter _ (follows db2)) as [|f [|]]; [|simpl; unfold follow_part; congruence|done].
  unfold create_follow. do 2 case_decide; unfold user_exists in *; rewrite ?Hu, ?H in *;
    simpl; unfold follow_part; simpl; first [congruence | tauto].
Qed.

Section follow_views.
Context `{FormBackend}.

Lemma follow_views_frame name db req :
  (profile_follow name db req).1 = with_follow_part db (follow_part (profile_follow name db req).1) ∧
  (profile_unfollow name db req).1 = with_follow_part db (follow_part (profile_unfollow name db req).1).
Proof.
  unfold profile_follow, profile_unfollow, login_required.
  destruct (request_user db req) as [u|]; [|by destruct db]. simpl.
  unfold or_404. destruct (get_user_by_name db name) as [a|[]]; simpl; try by destruct db.
  split; [|by destruct db]. case_decide; [|by destruct db].
  unfold or_500. destruct (follow_get_or_create _ _ _) as [[[db' f] c]|] eqn:E; [|by destruct db].
  by apply follow_get_or_create_frame in E.
Qed.

Lemma follow_views_reads name db1 db2 req :
  users db1 = users db2 → follow_part db1 = follow_part db2 →
  follow_part (profile_follow name db1 req).1 = follow_part (profile_follow name db2 req).1 ∧
  follow_part (profile_unfollow name db1 req).1 = follow_part (profile_unfollow name db2 req).1.
Proof.
  intros Hu Hf. unfold profile_follow, profile_unfollow, login_required.
  rewrite (request_user_users db1 db2) by done. destruct (request_user db2 req) as [u|]; [|done]. simpl.
  unfold or_404, get_user_by_name. rewrite Hu.
  destruct (qs_get _ (users db2)) as [a|[]]; simpl; try done.
  split; [|unfold follow_part in *; simpl; congruence].
  case_decide; [|done]. unfold or_500.
  pose proof (follow_get_or_create_reads db1 db2 (user_id u) (user_id a) Hu Hf) as Hr.
  destruct (follow_get_or_create db1 _ _) as [[[d1 f1] c1]|e1],
           (follow_get_or_create db2 _ _) as [[[d2 f2] c2]|e2]; simplify_eq/=;
    unfold follow_part; congruence.
Qed.
End follow_views.

(** ** Commutation *)

(** A view that writes only the follow part and reads only the users and
    the follow part commutes with [post_create]. *)
Lemma commutes_with_post_create (v : View) db rq_v rq_c :
  (∀ db req, (v db req).1 = with_follow_part db (follow_part (v db req).1)) →
  (∀ db1 db2 req, users db1 = users db2 → follow_part db1 = follow_part db2 →
     follow_part (v db1 req).1 = follow_part (v db2 req).1) →
  (post_create (v db rq_v).1 rq_c).1 = (v (post_create db rq_c).1 rq_v).1.
Proof.
  intros Hframe Hreads.
  set (F := follow_part (v db rq_v).1). set (P := post_part (post_create db rq_c).1).
  assert (HD1 : (v db rq_v).1 = with_follow_part db F) by apply Hframe.
  assert (HD2 : (post_create db rq_c).1 = with_post_part db P) by apply post_create_frame.
  rewrite post_create_frame, (Hframe (post_create db rq_c).1).
  rewrite (post_create_reads _ db) by (rewrite HD1; by destruct db).
  rewrite (Hreads _ db) by (rewrite HD2; by destruct db).
  fold P F. rewrite HD1, HD2. apply with_parts_commute.
Qed.

(** C37: A follow or unfollow request and a new post, sent by any users
    in any state, can be served in either order: the database ends the
    same. *)
Theorem follow_post_commute name db rq_f rq_c :
  (post_create (profile_follow name db rq_f).1 rq_c).1 = (profile_follow name (post_create db rq_c).1 rq_f).1 ∧
  (post_create (profile_unfollow name db rq_f).1 rq_c).1 = (profile_unfollow name (post_create db rq_c).1 rq_f).1.
Proof.
  split; apply commutes_with_post_create; intros; try apply follow_views_frame; by apply follow_views_reads.
Qed.

End Interleave.
