(* ===== verification/SelfFollow.v ===== *)
(** * SelfFollow: no user follows themself, as long as the app writes

    The spec (4.3) says a user may not follow themself.  [profile_follow]
    checks it ([if request.user != author]), but the model has no
    constraint for it: [Follow.Meta.constraints] only makes the pair
    unique, and [FollowAdmin] lets the admin add any row.  The invariant
    holds for every state reached by the users' own actions (sign-up,
    account deletion, requests) and every admin write but the add and
    change forms of a follow row ([app_step]); the admin's add form
    breaks it. *)

From stdpp Require Import base list strings relations.
From Stdlib Require Import String Lia.
From S2P Require Import Prelude Models Fixtures Feed Forms Views.

Open Scope yatube_scope.

Module SelfFollow.
Import Models Fixtures Feed Forms Views.

Definition no_self_follow (db : DB) : Prop := Forall (λ f, follow_user f ≠ follow_author f) (follows db).

#[export] Instance no_self_follow_dec db : Decision (no_self_follow db).
Proof. unfold no_self_follow. apply _. Defined.

(** The steps of [Views.step] but the admin's add and change forms of a
    follow row. *)
Inductive app_step : DB → DB → Prop :=
  | app_signup db name db' u :
      create_user db name = inl (db', u) → app_step db db'
  | app_admin_group db t sl d db' g :
      create_group db t sl d = inl (db', g) → app_step db db'
  | app_admin_set_group db p og db' :
      p ∈ posts db → admin_set_group db p og = inl db' → app_step db db'
  | app_admin_change_post db p t a og img db' :
      p ∈ posts db → admin_change_post db p t a og img = inl db' → app_step db db'
  | app_admin_change_group db g t sl d db' :
      g ∈ groups db → admin_change_group db g t sl d = inl db' → app_step db db'
  | app_admin_change_comment db c pid a t db' :
      c ∈ comments db → admin_change_comment db c pid a t = inl db' → app_step db db'
  | app_admin_add_post db t a og img db' p :
      create_post db t a og img = inl (db', p) → app_step db db'
  | app_admin_add_comment db pid a t db' c :
      create_comment db pid a t = inl (db', c) → app_step db db'
  | app_admin_delete_post db pid : app_step db (delete_post db pid)
  | app_admin_delete_group db gid : app_step db (delete_group db gid)
  | app_admin_delete_comment db cid : app_step db (delete_comment db cid)
  | app_admin_delete_follow db fid : app_step db (delete_follow db fid)
  | app_delete_user db uid : app_step db (delete_user db uid)
  | app_request db req db' r :
      handle db req = Some (db', r) → app_step db db'.

Lemma app_step_step db db' : app_step db db' → step db db'.
Proof.
  destruct 1;
    [ eapply step_signup | eapply step_admin_group | eapply step_admin_set_group
    | eapply step_admin_change_post | eapply step_admin_change_group | eapply step_admin_change_comment
    | eapply step_admin_add_post | eapply step_admin_add_comment
    | apply step_admin_delete_post | apply step_admin_delete_group | apply step_admin_delete_comment
    | apply step_admin_delete_follow | apply step_delete_user | eapply step_request ]; eauto.
Qed.

(** ** The writes that leave the follows alone *)

Ltac follows_kept :=
  repeat match goal with
  | H : context [decide ?P] |- _ => destruct (decide P); simplify_eq/=
  | H : inl _ = inl _ |- _ => simplify_eq/=
  | H : inr _ = inl _ |- _ => discriminate
  end; done.

Lemma create_user_follows db name db' u : create_user db name = inl (db', u) → follows db' = follows db.
Proof. unfold create_user. intros. follows_kept. Qed.

Lemma create_group_follows db t s d db' g : create_group db t s d = inl (db', g) → follows db' = follows db.
Proof. unfold create_group. intros. follows_kept. Qed.

Lemma create_comment_follows db pid a t db' c : create_comment db pid a t = inl (db', c) → follows db' = follows db.
Proof. unfold create_comment. intros. follows_kept. Qed.

Lemma save_post_follows db p db' : save_post db p = inl db' → follows db' = follows db.
Proof. unfold save_post. intros. follows_kept. Qed.

Lemma admin_change_rows_follows db db' :
  (∃ g t s d, admin_change_group db g t s d = inl db') ∨ (∃ c pid a t, admin_change_comment db c pid a t = inl db') →
  follows db' = follows db.
Proof.
  unfold admin_change_group, admin_change_comment.
  intros [(? & ? & ? & ? & ?)|(? & ? & ? & ? & ?)]; follows_kept.
Qed.

Lemma kept_no_self_follow db db' : follows db' = follows db → no_self_follow db → no_self_follow db'.
Proof. unfold no_self_follow. by intros ->. Qed.

Lemma filtered_no_self_follow db db' (P : Follow → Prop) `{∀ f, Decision (P f)} :
  follows db' = filter P (follows db) → no_self_follow db → no_self_follow db'.
Proof. unfold no_self_follow. intros ->. apply Forall_filter_sub. Qed.

(** [get_or_create] between two distinct users adds at most that row. *)
Lemma follow_get_or_create_no_self db u a db' f c :
  u ≠ a → follow_get_or_create db u a = inl (db', f, c) → no_self_follow db → no_self_follow db'.
Proof.
  intros Hne. unfold follow_get_or_create, create_follow, no_self_follow.
  repeat case_match; intros; simplify_eq/=; try done.
  apply Forall_app. by split; [|constructor].
Qed.

(** ** The invariant *)

Lemma handle_no_self_follow db req db' r :
  handle db req = Some (db', r) → no_self_follow db → no_self_follow db'.
Proof.
  intros Hh. apply (handle_writes (λ d d', no_self_follow d → no_self_follow d') db req db' r);
    [done|..|exact Hh].
  - intros ?????? Hc. apply kept_no_self_follow. by eapply create_post_follows.
  - intros ?? Hc. apply kept_no_self_follow. by eapply save_post_follows.
  - intros ????? Hc. apply kept_no_self_follow. by eapply create_comment_follows.
  - intros ?????. by apply follow_get_or_create_no_self.
  - intros u a. by apply (filtered_no_self_follow db _ (λ f, follow_pair f ≠ (u, a))).
Qed.

Lemma app_step_no_self_follow db db' : app_step db db' → no_self_follow db → no_self_follow db'.
Proof.
  destruct 1; try (apply kept_no_self_follow; first
    [ by eapply create_user_follows | by eapply create_group_follows | by eapply save_post_follows
    | by eapply create_post_follows | by eapply create_comment_follows
    | apply admin_change_rows_follows; naive_solver | done ]).
  - by apply (filtered_no_self_follow db _ (λ f, follow_id f ≠ fid)).
  - by apply (filtered_no_self_follow db _ (λ f, follow_user f ≠ uid ∧ follow_author f ≠ uid)).
  - by eapply handle_no_self_follow.
Qed.

(** C8: No user follows themself in any state the app reaches: sign-ups,
    account deletions, requests and every admin write but the add and
    change forms of a follow row keep every follow row between two
    distinct users. *)
Theorem no_self_follow_reachable db : rtc app_step empty_db db → no_self_follow db ∧ reachable db.
Proof.
  intros Hr. remember empty_db as db0 eqn:E. assert (Hinv : no_self_follow db0 ∧ reachable db0)
    by (subst; split; [constructor|apply reach_init]).
  clear E. induction Hr as [|x y z Hs _ IH]; [done|]. apply IH.
  destruct Hinv as [Hn Hreach]. split; [by eapply app_step_no_self_follow|].
  eapply reach_step; [done|]. by apply app_step_step.
Qed.

(** ** The admin's add form breaks it *)

Local Open Scope string_scope.

(** "user" signs up, then the admin adds the row ("user", "user"). *)
Definition self_follow_db : DB := after (create_follow signup_db 1 1).

Lemma self_follow_reachable : reachable self_follow_db.
Proof.
  eapply reach_step; [eapply reach_step; [apply reach_init|]|].
  - apply (step_signup _ "user" _ (mkUser 1 "user")). reflexivity.
  - apply (step_admin_add_follow _ 1 1 _ (mkFollow 1 1 1)). reflexivity.
Qed.

(** The admin can make a user follow themself: the invariant does not
    hold of every reachable state. *)
Lemma admin_self_follow :
  reachable self_follow_db ∧ ¬ no_self_follow self_follow_db ∧
  ¬ (∀ db, reachable db → no_self_follow db).
Proof.
  assert (Hn : ¬ no_self_follow self_follow_db) by by_eval.
  pose proof self_follow_reachable as Hr. split_and!; [done..|]. intros Hall. by apply Hn, Hall.
Qed.

Lemma no_self_follow_reachable_witness :
  rtc app_step empty_db signup_db ∧ (no_self_follow signup_db ∧ reachable signup_db).
Proof.
  assert (Hr : rtc app_step empty_db signup_db).
  { eapply rtc_l; [|apply rtc_refl]. apply (app_signup _ "user" _ (mkUser 1 "user")). reflexivity. }
  exact (conj Hr (no_self_follow_reachable _ Hr)).
Defined.

End SelfFollow.
