(* ===== verification/Admin.v ===== *)
(** * Admin: the change lists of [admin.py]

    [admin.py] registers [Post] with [PostAdmin], [Comment] with
    [CommentAdmin], [Follow] with [FollowAdmin] and [Group] with the
    default [ModelAdmin].  A change list is the model's rows in the
    admin's order, each row the cells of [list_display]:
    - the order is the model's [Meta.ordering] made total with ["-pk"]
      ([ChangeList._get_deterministic_ordering]): posts by [-pub_date]
      then [-pk], the other models by [-pk];
    - a cell is the field's value as a string ([items_for_result]): a
      foreign key shows [str()] of the related row, a [NULL] one the
      [empty_value_display] (["-пусто-"] in [PostAdmin], ["-"]
      elsewhere), and an empty string shows as ["&nbsp;"]; a date is
      kept abstract;
    - a related row that is missing raises [DoesNotExist]: a row is an
      [option].
    [search_fields = ("text",)] filters the post change list by each
    whitespace-separated word of the query in turn with
    [text__icontains] ([ModelAdmin.get_search_results]).  The database
    is SQLite, Django's default: its [LIKE] folds the case of ASCII
    letters only.  [list_filter = ("pub_date",)] is the range its
    choices put in the query, applied before the search; which range a
    choice ("Today", "Past 7 days", ...) means depends on the wall
    clock, which the model keeps abstract.  Quoted phrases of
    [smart_split] and the change list's pagination are not modelled;
    [list_editable] is [Models.admin_set_group], and the add and change
    forms are steps of [Views.step] over the writes of [Models].  The
    last sections follow two admin writes to the pages of [views.py]:
    renaming a group moves its page to the new slug, and the auth
    admin's delete of a user takes their posts off every list and their
    profile off the site. *)

From stdpp Require Import base list strings sorting pretty.
From Stdlib Require Import String Ascii ZArith Lia.
From S2P Require Import Prelude Models Text Fixtures Paginator Feed Forms Views.

Open Scope yatube_scope.

Module Admin.
Import Models Text Fixtures Paginator Feed Forms Views.

(** ** Cells of a row *)

Inductive Cell := CStr (s : string) | CDate (d : nat).

#[export] Instance Cell_eq_dec : EqDecision Cell.
Proof. solve_decision. Defined.

Local Open Scope string_scope.

(** [PostAdmin.empty_value_display]; [AdminSite.empty_value_display]. *)
Definition post_empty_value_display : string := "-пусто-".
Definition site_empty_value_display : string := "-".

(** [items_for_result]: a value that prints as [""] becomes ["&nbsp;"]. *)
Definition result_repr (s : string) : Cell := CStr (if bool_decide (s = "") then "&nbsp;" else s).

(** ["pk"] is not a field: [display_for_value] prints the integer. *)
Definition pk_cell (n : nat) : Cell := result_repr (string_of_list_ascii (int_repr (Z.of_nat n))).

(** A foreign key: [str()] of the related row, [empty] when [NULL]. *)
Definition fk_cell (empty : string) (v : option string) : Cell := result_repr (default empty v).

Local Close Scope string_scope.

(** [getattr(obj, fk)]: the related row by its key, [None] for
    [DoesNotExist]. *)
Definition user_by_id (db : DB) (uid : nat) : option User := head (filter (λ u, user_id u = uid) (users db)).
Definition group_by_id (db : DB) (gid : nat) : option Group := head (filter (λ g, group_id g = gid) (groups db)).
Definition post_by_id (db : DB) (pid : nat) : option Post := head (filter (λ p, post_id p = pid) (posts db)).

(** [AbstractUser.__str__] is the username. *)
Definition user_str (u : User) : string := username u.

(** ** The rows of [list_display] *)

(** [PostAdmin.list_display = ("pk", "text", "pub_date", "author", "group")],
    once the author and the group are fetched. *)
Definition post_cells (p : Post) (a : User) (og : option Group) : list Cell :=
  [pk_cell (post_id p); result_repr (text p); CDate (pub_date p);
   fk_cell post_empty_value_display (Some (user_str a));
   fk_cell post_empty_value_display (group_str <$> og)].

Definition post_row (db : DB) (p : Post) : option (list Cell) :=
  a ← user_by_id db (author p);
  g ← match group p with
      | None => Some None
      | Some gid => Some <$> group_by_id db gid
      end;
  Some (post_cells p a g).

(** [CommentAdmin.list_display = ("pk", "post", "author", "text")] *)
Definition comment_row (db : DB) (c : Comment) : option (list Cell) :=
  p ← post_by_id db (comment_post c);
  a ← user_by_id db (comment_author c);
  Some [pk_cell (comment_id c); fk_cell site_empty_value_display (Some (post_str p));
        fk_cell site_empty_value_display (Some (user_str a)); result_repr (comment_text c)].

(** [FollowAdmin.list_display = ("pk", "user", "author")] *)
Definition follow_row (db : DB) (f : Follow) : option (list Cell) :=
  u ← user_by_id db (follow_user f);
  a ← user_by_id db (follow_author f);
  Some [pk_cell (follow_id f); fk_cell site_empty_value_display (Some (user_str u));
        fk_cell site_empty_value_display (Some (user_str a))].

(** The default [list_display = ("__str__",)] of [Group]. *)
Definition group_row (g : Group) : list Cell := [result_repr (group_str g)].

(** ** Order of the change lists *)

(** [ordering = ["-pub_date", "-pk"]] *)
Definition newer_pk (a b : Post) : Prop :=
  pub_date b < pub_date a ∨ (pub_date b = pub_date a ∧ post_id b ≤ post_id a).

#[export] Instance newer_pk_dec : RelDecision newer_pk.
Proof. intros a b. unfold newer_pk. apply _. Defined.

Definition admin_posts (db : DB) : list Post := merge_sort newer_pk (posts db).

Definition post_changelist (db : DB) : option (list (list Cell)) := mapM (post_row db) (admin_posts db).
Definition comment_changelist (db : DB) : option (list (list Cell)) :=
  mapM (comment_row db) (order_desc comment_id (comments db)).
Definition follow_changelist (db : DB) : option (list (list Cell)) :=
  mapM (follow_row db) (order_desc follow_id (follows db)).
Definition group_changelist (db : DB) : list (list Cell) := group_row <$> order_desc group_id (groups db).

(** ** Search *)

(** [smart_split] on a query without quotes: the maximal runs of
    non-space characters. *)
Fixpoint split_ws (cur : list ascii) (l : list ascii) : list (list ascii) :=
  match l with
  | [] => if bool_decide (cur = []) then [] else [reverse cur]
  | c :: r =>
      if py_isspace c then
        (if bool_decide (cur = []) then split_ws [] r else reverse cur :: split_ws [] r)
      else split_ws (c :: cur) r
  end.

Definition search_words (q : string) : list (list ascii) := split_ws [] (list_ascii_of_string q).

(** SQLite's case folding in [LIKE]: ASCII letters only. *)
Definition ascii_lower (c : ascii) : ascii :=
  if bool_decide (65 ≤ nat_of_ascii c ≤ 90) then ascii_of_nat (nat_of_ascii c + 32) else c.

Fixpoint prefixb (w l : list ascii) : bool :=
  match w, l with
  | [], _ => true
  | c :: w', d :: l' => bool_decide (c = d) && prefixb w' l'
  | _ :: _, [] => false
  end.

Fixpoint containsb (l w : list ascii) : bool :=
  prefixb w l || match l with [] => false | _ :: l' => containsb l' w end.

(** [text__icontains=w]: [text LIKE '%w%' ESCAPE '\'] *)
Definition icontains (s : string) (w : list ascii) : bool :=
  containsb (ascii_lower <$> list_ascii_of_string s) (ascii_lower <$> w).

(** [get_search_results]: one [filter] per word, in turn. *)
Definition post_search (db : DB) (q : string) : list Post :=
  foldl (λ qs w, filter (λ p, icontains (text p) w = true) qs) (admin_posts db) (search_words q).

(** ** The date filter

    [list_filter = ("pub_date",)]: [DateFieldListFilter] offers "Any
    date", "Today", "Past 7 days", "This month" and "This year"; a choice
    puts [pub_date__gte] and [pub_date__lt] in the query string, both
    absent for "Any date".  The bounds are taken on the clock of the
    model. *)
Definition date_in (since until : option nat) (p : Post) : Prop :=
  match since with Some s => s ≤ pub_date p | None => True end ∧
  match until with Some u => pub_date p < u | None => True end.

#[export] Instance date_in_dec since until p : Decision (date_in since until p).
Proof. unfold date_in. destruct since, until; apply _. Defined.

(** [ChangeList.get_queryset]: the filters of [list_filter] first, then
    the search. *)
Definition post_changelist_qs (db : DB) (since until : option nat) (q : string) : list Post :=
  foldl (λ qs w, filter (λ p, icontains (text p) w = true) qs)
        (filter (date_in since until) (admin_posts db)) (search_words q).

(** ** Order *)

#[local] Instance newer_pk_total : Total newer_pk.
Proof. intros a b. unfold newer_pk. lia. Qed.
#[local] Instance newer_pk_trans : Transitive newer_pk.
Proof. intros a b c. unfold newer_pk. lia. Qed.

Lemma admin_posts_perm db : admin_posts db ≡ₚ posts db.
Proof. apply merge_sort_Permutation. Qed.

Lemma admin_posts_sorted db : StronglySorted (newer pub_date) (admin_posts db).
Proof.
  eapply StronglySorted_weaken; [|apply StronglySorted_merge_sort; typeclasses eauto].
  unfold newer_pk, newer. intros a b. lia.
Qed.

(** Django's [ORDER BY pub_date DESC, id DESC]: [p] is listed before [q]. *)
Definition listed_before (p q : Post) : Prop :=
  pub_date q < pub_date p ∨ (pub_date q = pub_date p ∧ post_id q < post_id p).

Lemma admin_posts_strict db :
  keys_unique post_id (posts db) → StronglySorted listed_before (admin_posts db).
Proof.
  intros Hu. apply (StronglySorted_strict post_id newer_pk).
  - unfold newer_pk, listed_before. intros a b. lia.
  - unfold keys_unique. by rewrite admin_posts_perm.
  - apply StronglySorted_merge_sort; typeclasses eauto.
Qed.

(** C25: The post change list of the admin is the one listing of the posts
    by [-pub_date] and then [-pk]: two posts published at the same
    instant are listed the newer key first.  When no two posts share a
    [pub_date] it is the order of the index page, which has no
    tie-break. *)
Theorem admin_posts_order db :
  keys_unique post_id (posts db) →
  (∀ l, l = admin_posts db ↔ l ≡ₚ posts db ∧ StronglySorted listed_before l) ∧
  (keys_unique pub_date (posts db) → admin_posts db = all_posts db).
Proof.
  intros Hu. pose proof (admin_posts_strict db Hu) as Hs. split.
  - intros l. split; [intros ->; split; [apply admin_posts_perm|done]|intros [Hp Hl]].
    apply (StronglySorted_unique_strong listed_before); [|done|done|by rewrite admin_posts_perm].
    unfold listed_before. intros ????. lia.
  - intros Hd. apply (sorted_desc_unique pub_date).
    + unfold keys_unique. by rewrite admin_posts_perm.
    + unfold all_posts. by rewrite admin_posts_perm, order_desc_perm.
    + apply admin_posts_sorted.
    + apply order_desc_sorted.
Qed.

(** ** Rows *)

Lemma by_id_found {A} (k : A → nat) (l : list A) x :
  keys_unique k l → x ∈ l → head (filter (λ y, k y = k x) l) = Some x.
Proof. apply head_filter_key. Qed.

(** On a well-formed database every foreign key of a post finds its row. *)
Lemma post_row_found db p :
  wf db → p ∈ posts db →
  ∃ a og, a ∈ users db ∧ user_id a = author p ∧ group_id <$> og = group p ∧
          (∀ g, og = Some g → g ∈ groups db) ∧ post_row db p = Some (post_cells p a og).
Proof.
  intros Hwf Hp. pose proof (wf_post_refs _ Hwf) as Hrefs. rewrite Forall_forall in Hrefs.
  destruct (Hrefs p Hp) as [(a & Ha & Hain)%list_elem_of_fmap Hg].
  unfold post_row, user_by_id. rewrite Ha, by_id_found by (done || apply Hwf). simpl.
  destruct (group p) as [gid|] eqn:Egp; simpl.
  - simpl in Hg. unfold group_exists in Hg. apply list_elem_of_fmap in Hg as (g & -> & Hgin).
    exists a, (Some g). unfold group_by_id. rewrite by_id_found by (done || apply Hwf).
    split_and!; [done..|by intros ? [= ->]|done].
  - by exists a, None.
Qed.

(** ** The key column against stdpp's printer *)

Lemma string_of_list_ascii_nil (l : list ascii) : l ≠ [] → string_of_list_ascii l ≠ ""%string.
Proof. by destruct l. Qed.

Lemma digit_char_pretty (d : N) : (d < 10)%N → digit_char (N.to_nat d) = pretty_N_char d.
Proof.
  intros Hd. assert (d = 0 ∨ d = 1 ∨ d = 2 ∨ d = 3 ∨ d = 4 ∨ d = 5 ∨ d = 6 ∨ d = 7 ∨ d = 8 ∨ d = 9)%N
    as Hc by lia.
  by repeat destruct Hc as [->|Hc]; [..|subst].
Qed.

Lemma nat_digits_small n : n < 10 → nat_digits n = [digit_char n].
Proof. intros Hn. unfold nat_digits. simpl. by rewrite bool_decide_true. Qed.

Lemma nat_digits_unfold n : 10 ≤ n → nat_digits n = nat_digits (n / 10) ++ [digit_char (n mod 10)].
Proof.
  intros Hn. assert (E : nat_digits_fuel (S n) n = nat_digits_fuel n (n / 10) ++ [digit_char (n mod 10)])
    by (cbn -[Nat.div Nat.modulo]; by rewrite bool_decide_false by lia).
  unfold nat_digits at 1. rewrite E. f_equal. unfold nat_digits. apply nat_digits_fuel_stable; [|lia].
  apply Nat.lt_le_trans with n; [apply Nat.div_lt|]; lia.
Qed.

Lemma pretty_N_go_digits (x : N) (s : string) :
  (0 < x)%N → list_ascii_of_string (pretty_N_go x s) = nat_digits (N.to_nat x) ++ list_ascii_of_string s.
Proof.
  revert s. induction (N.lt_wf_0 x) as [x _ IH]. intros s Hx. rewrite pretty_N_go_step by done.
  destruct (decide (x < 10)%N).
  - rewrite N.div_small, pretty_N_go_0, nat_digits_small by lia. simpl.
    by rewrite N.mod_small, digit_char_pretty by lia.
  - rewrite IH by (apply N.div_lt || apply N.div_str_pos; lia). simpl.
    rewrite (nat_digits_unfold (N.to_nat x)) by lia. rewrite <-app_assoc.
    rewrite N2Nat.inj_div, <-digit_char_pretty, N2Nat.inj_mod by (apply N.mod_lt; lia). done.
Qed.

(** [display_for_value] prints the key as stdpp's decimal [pretty] does. *)
Lemma int_repr_pretty n : string_of_list_ascii (int_repr (Z.of_nat n)) = pretty n.
Proof.
  unfold int_repr. rewrite bool_decide_false by lia. rewrite Nat2Z.id.
  change (pretty n) with (pretty (N.of_nat n)). unfold pretty, pretty_N.
  destruct (decide (N.of_nat n = 0%N)) as [H0|H0].
  - by replace n with 0 by lia.
  - rewrite <-(string_of_list_ascii_of_string (pretty_N_go _ _)), pretty_N_go_digits by lia.
    by rewrite Nat2N.id, app_nil_r.
Qed.

Lemma pk_cell_pretty n : pk_cell n = CStr (pretty n).
Proof.
  unfold pk_cell, result_repr. rewrite int_repr_pretty, bool_decide_false; [done|].
  rewrite <-int_repr_pretty. unfold int_repr. rewrite bool_decide_false by lia. rewrite Nat2Z.id. apply string_of_list_ascii_nil.
  apply (nat_digits_fuel_spec (S n) n). lia.
Qed.

(** C26: On a well-formed database the post change list renders without a
    [DoesNotExist]: one row per post, in the admin's order, of the cells
    of [list_display]: the key in decimal, the text, the date, the
    username of the author and the title of the group, or ["-пусто-"]
    for a post without a group; a text, username or title that is empty
    shows as ["&nbsp;"]. *)
Theorem post_changelist_rows db :
  wf db →
  ∃ rows, post_changelist db = Some rows ∧
    Forall2 (λ p cells, ∃ a og, a ∈ users db ∧ user_id a = author p ∧ group_id <$> og = group p ∧
              (∀ g, og = Some g → g ∈ groups db) ∧
              cells = [CStr (pretty (post_id p));
                       CStr (if bool_decide (text p = "") then "&nbsp;" else text p);
                       CDate (pub_date p);
                       CStr (if bool_decide (username a = "") then "&nbsp;" else username a);
                       CStr (match og with
                             | None => "-пусто-"
                             | Some g => if bool_decide (title g = "") then "&nbsp;" else title g
                             end)])
            (admin_posts db) rows.
Proof.
  intros Hwf. unfold post_changelist.
  assert (Hall : ∀ p, p ∈ admin_posts db → ∃ a og, a ∈ users db ∧ user_id a = author p ∧
            group_id <$> og = group p ∧ (∀ g, og = Some g → g ∈ groups db) ∧
            post_row db p = Some (post_cells p a og)).
  { intros p Hp. apply post_row_found; [done|]. by rewrite <-admin_posts_perm. }
  induction (admin_posts db) as [|p ps IH]; [by exists []|].
  destruct (Hall p) as (a & og & ? & ? & ? & ? & Hrow); [by left|].
  destruct IH as (rows & Hrows & Hf); [intros q Hq; apply Hall; by right|].
  exists (post_cells p a og :: rows). simpl. rewrite Hrow, Hrows. split; [done|].
  constructor; [|done]. exists a, og. split_and!; [done..|].
  unfold post_cells, fk_cell, user_str. rewrite pk_cell_pretty. by destruct og.
Qed.

(** ** Search *)

(** [LIKE '%w%']: [w] occurs in [l]. *)
Lemma prefixb_spec w l : prefixb w l = true ↔ ∃ suf, l = w ++ suf.
Proof.
  revert l. induction w as [|c w IH]; intros [|d l]; simpl.
  - naive_solver.
  - naive_solver.
  - split; [done|]. by intros [? ?].
  - rewrite andb_true_iff, bool_decide_eq_true, IH. split.
    + intros [-> [suf ->]]. by exists suf.
    + intros [suf Hl]. simplify_eq. eauto.
Qed.

Lemma containsb_spec l w : containsb l w = true ↔ ∃ pre suf, l = pre ++ w ++ suf.
Proof.
  induction l as [|d l IH]; simpl; rewrite orb_true_iff, prefixb_spec.
  - split; [intros [[suf Hl]|[=]]; by exists [], suf|].
    intros (pre & suf & Hl). left. exists suf. destruct pre; [done|discriminate].
  - rewrite IH. split.
    + intros [[suf ->]|(pre & suf & ->)]; [by exists [], suf|by exists (d :: pre), suf].
    + intros ([|e pre] & suf & Hl); simpl in Hl; [left; by exists suf|].
      right. exists pre, suf. by simplify_eq.
Qed.

Lemma filters_conj (ws : list (list ascii)) (ps : list Post) :
  foldl (λ qs w, filter (λ p, icontains (text p) w = true) qs) ps ws =
  filter (λ p, Forall (λ w, icontains (text p) w = true) ws) ps.
Proof.
  revert ps. induction ws as [|w ws IH]; intros ps; simpl.
  - rewrite (list_filter_iff _ (λ _, True)); [by rewrite filter_True|].
    intros p. split; [done|constructor].
  - rewrite IH, list_filter_filter. apply list_filter_iff. intros p. rewrite Forall_cons. tauto.
Qed.

(** C27: The post change list, filtered by date and searched, keeps in the
    change list's order exactly the posts whose date is in the chosen
    range ([pub_date__gte], [pub_date__lt]) and whose text contains every
    word of the query, letters compared with SQLite's ASCII case
    folding. *)
Theorem post_changelist_search_spec db since until q :
  post_changelist_qs db since until q `sublist_of` admin_posts db ∧
  ∀ p, p ∈ post_changelist_qs db since until q ↔
    p ∈ posts db ∧ (∀ s, since = Some s → s ≤ pub_date p) ∧ (∀ u, until = Some u → pub_date p < u) ∧
    ∀ w, w ∈ search_words q →
      ∃ pre suf, ascii_lower <$> list_ascii_of_string (text p) = pre ++ (ascii_lower <$> w) ++ suf.
Proof.
  unfold post_changelist_qs. rewrite filters_conj, list_filter_filter. split.
  - apply sublist_filter.
  - intros p. rewrite list_elem_of_filter, admin_posts_perm, Forall_forall.
    unfold date_in, icontains. setoid_rewrite containsb_spec.
    destruct since, until; naive_solver.
Qed.

(** ** [list_editable = ("group",)] *)

(** The row of [p] once its group is [og]. *)
Definition regrouped (p : Post) (og : option nat) : Post :=
  mkPost (post_id p) (text p) (pub_date p) (author p) og (image p).

Lemma replace_row_pub_date db p og :
  wf db → p ∈ posts db →
  ∀ q, q ∈ posts db → pub_date (if decide (post_id q = post_id (regrouped p og)) then regrouped p og else q) = pub_date q.
Proof.
  intros Hwf Hp q Hq. case_decide as Heq; [|done].
  by rewrite (keys_unique_inj post_id (posts db) q p (wf_post_keys _ Hwf) Hq Hp Heq).
Qed.

(** C39: Changing the group of a post in the admin's list saves it: the
    post keeps its place on the index, now with the new group, and it
    shows on the page of that group and of no other. *)
Theorem admin_set_group_index db p og :
  wf db → p ∈ posts db → group_ref_ok db og →
  ∃ db', admin_set_group db p og = inl db' ∧
    all_posts db' = replace_row post_id (regrouped p og) (all_posts db) ∧
    ∀ gid, regrouped p og ∈ group_posts_qs db' gid ↔ og = Some gid.
Proof.
  intros Hwf Hp Hg. pose proof (wf_post_refs _ Hwf) as Hrefs. rewrite Forall_forall in Hrefs.
  assert (Hsave : admin_set_group db p og =
                   inl (set_posts db (replace_row post_id (regrouped p og) (posts db)))).
  { unfold admin_set_group, save_post. rewrite decide_True; [rewrite decide_True; [done|]|].
    all: simpl; first [by apply list_elem_of_fmap_2 | split; [apply (Hrefs p Hp)|done]]. }
  eexists. split; [exact Hsave|]. split.
  - unfold all_posts, replace_row. simpl. apply order_desc_fmap; [apply Hwf|].
    by apply replace_row_pub_date.
  - intros gid. unfold group_posts_qs. simpl. rewrite order_desc_elem_of, list_elem_of_filter.
    split; [intros [? _]; done|intros Hog; split; [done|]].
    apply list_elem_of_fmap. exists p. split; [|done]. by rewrite decide_True.
Qed.

(** ** The change form of a group *)

Section changes.
Context `{FormBackend}.

(** With distinct slugs, only [g] has the slug of [g]. *)
Lemma slug_owner db g h : wf db → g ∈ groups db → h ∈ groups db → slug h = slug g → h = g.
Proof. intros Hwf Hg Hh Hs. apply (NoDup_fmap_inj slug (groups db)); [apply Hwf|done..]. Qed.

(** C28: Renaming a group in the admin to a slug no group has moves its
    page: the group page at the new slug lists the same posts as before
    under the new title, in the same pages, and the old slug is a 404. *)
Theorem admin_rename_group db g t s d req :
  wf db → g ∈ groups db → s ∉ slug <$> groups db →
  ∃ db', admin_change_group db g t s d = inl db' ∧
    group_posts s db' req =
      (db', Render TGroupList (CtxGroup (mkGroup (group_id g) t s d)
              (page_of req (group_posts_qs db (group_id g))) ("Записи сообщества " ++ t))) ∧
    group_posts (slug g) db' req = (db', NotFound).
Proof.
  intros Hwf Hg Hs. set (g' := mkGroup (group_id g) t s d).
  assert (Hc : admin_change_group db g t s d = inl (set_groups db (replace_row group_id g' (groups db)))).
  { unfold admin_change_group. rewrite decide_False; [done|].
    intros (h & -> & [_ Hh]%list_elem_of_filter)%list_elem_of_fmap. apply Hs. by apply list_elem_of_fmap_2. }
  eexists. split; [exact Hc|]. pose proof (admin_change_group_wf db g t s d _ Hwf Hg Hc) as Hwf'.
  assert (Hperm : replace_row group_id g' (groups db) ≡ₚ g' :: filter (λ h, group_id h ≠ group_id g') (groups db))
    by (apply (replace_row_perm _ _ g); [apply Hwf|done|done]).
  split.
  - assert (Hget : get_group_by_slug (set_groups db (replace_row group_id g' (groups db))) s = inl g').
    { apply (get_group_found _ g' Hwf'). simpl. rewrite Hperm. by left. }
    unfold group_posts. rewrite Hget. simpl. by rewrite render_page_ok.
  - unfold group_posts, or_404, get_group_by_slug.
    destruct (qs_get_key slug (groups (set_groups db (replace_row group_id g' (groups db)))) (slug g))
      as [[-> _]|(h & _ & Hh & Hk)]; [apply Hwf'|done|]. exfalso. simpl in Hh.
    rewrite Hperm in Hh. apply elem_of_cons in Hh as [->|[Hid Hh]%list_elem_of_filter].
    + apply Hs. simpl in Hk. rewrite Hk. by apply list_elem_of_fmap_2.
    + apply Hid. by rewrite (slug_owner db g h).
Qed.

(** ** The auth admin's delete of a user *)

(** No user of the database after the delete has a deleted user's name. *)
Lemma delete_user_name_gone db a :
  wf db → a ∈ users db → get_user_by_name (delete_user db (user_id a)) (username a) = inr DoesNotExist.
Proof.
  intros Hwf Ha. pose proof (delete_user_wf db (user_id a) Hwf) as Hwf'. unfold get_user_by_name.
  destruct (qs_get_key username (users (delete_user db (user_id a))) (username a))
    as [[-> _]|(b & _ & Hb & Hk)]; [apply Hwf'|done|]. exfalso.
  simpl in Hb. apply list_elem_of_filter in Hb as [Hid Hb]. apply Hid.
  by rewrite (NoDup_fmap_inj username (users db) b a (wf_usernames _ Hwf) Hb Ha Hk).
Qed.

(** C35: Deleting a user from the auth admin takes their posts off the
    index, every group page and the follow feed of every other user,
    each list keeping the other posts in their order, and their profile
    page is a 404. *)
Theorem delete_user_pages db a v gid req :
  wf db → a ∈ users db → v ≠ user_id a →
  let db' := delete_user db (user_id a) in
  all_posts db' = filter (λ p, author p ≠ user_id a) (all_posts db) ∧
  group_posts_qs db' gid = filter (λ p, author p ≠ user_id a) (group_posts_qs db gid) ∧
  following_posts_qs db' v = filter (λ p, author p ≠ user_id a) (following_posts_qs db v) ∧
  profile (username a) db' req = (db', NotFound).
Proof.
  intros Hwf Ha Hv db'. pose proof (delete_user_wf db (user_id a) Hwf) as Hwf'.
  assert (Hkept : ∀ P `{∀ p, Decision (P p)}, order_desc pub_date (filter P (posts db')) =
            filter (λ p, author p ≠ user_id a) (order_desc pub_date (filter P (posts db))))
    by (intros P ?; by apply kept_posts_filtered).
  split_and!.
  - unfold all_posts. rewrite <-(filter_True (posts db')), <-(filter_True (posts db)). apply Hkept.
  - apply Hkept.
  - unfold following_posts_qs. rewrite !following_join_filter by done. rewrite <-Hkept.
    f_equal. simpl. rewrite !list_filter_filter. apply list_filter_iff. intros p.
    rewrite !list_elem_of_fmap. setoid_rewrite list_elem_of_filter. split.
    + intros [(f & Hf & _ & Hin) Hp]. split; [|done]. by exists f.
    + intros [(f & Hf & Hin) Hp]. split; [|done]. exists f. unfold follow_pair in Hf.
      simplify_eq. split_and!; [unfold follow_pair; congruence|done|congruence|done].
  - unfold profile, or_404, db'. by rewrite delete_user_name_gone.
Qed.
End changes.

(** ** Witnesses: the database of [PagesTests] *)

Lemma admin_posts_order_witness :
  keys_unique post_id (posts pages_db) ∧
  (∀ l, l = admin_posts pages_db ↔ l ≡ₚ posts pages_db ∧ StronglySorted listed_before l) ∧
  (keys_unique pub_date (posts pages_db) → admin_posts pages_db = all_posts pages_db).
Proof.
  assert (Hu : keys_unique post_id (posts pages_db)) by by_eval.
  exact (conj Hu (admin_posts_order pages_db Hu)).
Defined.

(** Two posts of the same instant, stored in the order of their keys: the
    admin lists the newer key first, the index keeps the table's order. *)
Definition tie_db : DB := set_posts pages_db [mkPost 1 "a" 5 1 None ""; mkPost 2 "b" 5 1 None ""].

Lemma tie_orders :
  post_id <$> admin_posts tie_db = [2; 1] ∧ post_id <$> all_posts tie_db = [1; 2].
Proof. split; vm_compute; reflexivity. Qed.

Lemma post_changelist_rows_witness :
  wf pages_db ∧
  ∃ rows, post_changelist pages_db = Some rows ∧
    Forall2 (λ p cells, ∃ a og, a ∈ users pages_db ∧ user_id a = author p ∧ group_id <$> og = group p ∧
              (∀ g, og = Some g → g ∈ groups pages_db) ∧
              cells = [CStr (pretty (post_id p));
                       CStr (if bool_decide (text p = "") then "&nbsp;" else text p);
                       CDate (pub_date p);
                       CStr (if bool_decide (username a = "") then "&nbsp;" else username a);
                       CStr (match og with
                             | None => "-пусто-"
                             | Some g => if bool_decide (title g = "") then "&nbsp;" else title g
                             end)])
            (admin_posts pages_db) rows.
Proof.
  assert (Hw : wf pages_db) by by_eval.
  exact (conj Hw (post_changelist_rows pages_db Hw)).
Defined.

(** The admin moves the post of [PagesTests] to the second group. *)
Definition regroup_post : Post := mkPost 1 "Текст" 1 1 (Some 1) "posts/small.gif".

Lemma admin_set_group_index_witness :
  wf pages_db ∧ regroup_post ∈ posts pages_db ∧ group_ref_ok pages_db (Some 2) ∧
  ∃ db', admin_set_group pages_db regroup_post (Some 2) = inl db' ∧
    all_posts db' = replace_row post_id (regrouped regroup_post (Some 2)) (all_posts pages_db) ∧
    ∀ gid, regrouped regroup_post (Some 2) ∈ group_posts_qs db' gid ↔ Some 2 = Some gid.
Proof.
  assert (Hw : wf pages_db) by by_eval.
  assert (Hp : regroup_post ∈ posts pages_db) by by_eval.
  assert (Hg : group_ref_ok pages_db (Some 2)) by by_eval.
  exact (conj Hw (conj Hp (conj Hg (admin_set_group_index _ _ _ Hw Hp Hg)))).
Defined.

(** The admin renames the group of [PostsUrlsTests] to ["new-slug"]. *)
Definition urls_group : Group := mkGroup 1 "Название - Тест" "slug-test" "Описание - Тест".

Lemma admin_rename_group_witness :
  wf urls_db ∧ urls_group ∈ groups urls_db ∧ "new-slug" ∉ slug <$> groups urls_db ∧
  ∃ db', admin_change_group urls_db urls_group "Новое" "new-slug" "" = inl db' ∧
    group_posts "new-slug" db' (get_req None (UGroup "new-slug")) =
      (db', Render TGroupList (CtxGroup (mkGroup 1 "Новое" "new-slug" "")
              (page_of (get_req None (UGroup "new-slug")) (group_posts_qs urls_db 1))
              ("Записи сообщества " ++ "Новое"))) ∧
    group_posts "slug-test" db' (get_req None (UGroup "new-slug")) = (db', NotFound).
Proof.
  assert (Hw : wf urls_db) by by_eval.
  assert (Hg : urls_group ∈ groups urls_db) by by_eval.
  assert (Hs : "new-slug" ∉ slug <$> groups urls_db) by by_eval.
  exact (conj Hw (conj Hg (conj Hs (admin_rename_group urls_db urls_group "Новое" "new-slug" ""
    (get_req None (UGroup "new-slug")) Hw Hg Hs)))).
Defined.

(** "follower" (2) follows "author" (3); the auth admin deletes "author". *)
Lemma delete_user_pages_witness :
  wf followed_db ∧ mkUser 3 "author" ∈ users followed_db ∧ 2 ≠ user_id (mkUser 3 "author") ∧
  (let db' := delete_user followed_db (user_id (mkUser 3 "author")) in
   all_posts db' = filter (λ p, author p ≠ user_id (mkUser 3 "author")) (all_posts followed_db) ∧
   group_posts_qs db' 1 = filter (λ p, author p ≠ user_id (mkUser 3 "author")) (group_posts_qs followed_db 1) ∧
   following_posts_qs db' 2 =
     filter (λ p, author p ≠ user_id (mkUser 3 "author")) (following_posts_qs followed_db 2) ∧
   profile (username (mkUser 3 "author")) db' (get_req (Some 2) (UProfile "author")) = (db', NotFound)).
Proof.
  assert (Hw : wf followed_db) by by_eval.
  assert (Ha : mkUser 3 "author" ∈ users followed_db) by by_eval.
  assert (Hv : 2 ≠ user_id (mkUser 3 "author")) by (simpl; lia).
  exact (conj Hw (conj Ha (conj Hv (delete_user_pages followed_db (mkUser 3 "author") 2 1
    (get_req (Some 2) (UProfile "author")) Hw Ha Hv)))).
Defined.

(** On SQLite the search folds ASCII only: the lower-case Cyrillic word
    does not find the post that starts with its capital. *)
Lemma post_search_cyrillic_case :
  post_search pages_db "текст" = [] ∧ post_search pages_db "Текст" = posts pages_db ∧
  post_search pages_db "ТЕКСТ" = [].
Proof. split_and!; vm_compute; reflexivity. Qed.

End Admin.
