(* ===== verification/Scenarios.v ===== *)
(** * Scenarios: the test suite of [posts/tests/] replayed on the model

    Each test method of [test_views.py], [test_forms.py], [test_urls.py]
    and [test_models.py] is a definition that runs the test's requests on
    its fixture and evaluates its assertions to a boolean; the facts at
    the end of the file evaluate them.  Every test passes on the model
    except [test_cache_index_page], which expects a cached index page:
    [views.py] caches nothing.  Not replayed: the [about/] pages of
    [test_pages_use_correct_template] (another app).  The tests of
    [test_urls.py] request paths, which [Urls.serve] resolves;
    [test_new_post_page_show_correct_context] checks the classes of the
    form fields [Forms.post_form_fields] builds from the model fields.  The file ends with the [on_delete] rules run on a
    fixture. *)

From stdpp Require Import base list strings.
From Stdlib Require Import String.
From S2P Require Import Prelude Models Text Fixtures Paginator Feed Forms Views Urls.

Open Scope yatube_scope.

Module Scenarios.
Import Models Text Fixtures Paginator Feed Forms Views Urls.
Local Open Scope string_scope.

(** ** What a test observes of a response *)

(** [response.status_code] *)
Definition status (r : Response) : nat :=
  match r with Render _ _ => 200 | Redirect _ => 302 | NotFound => 404 | ServerError => 500 end.

(** [response.context["page_obj"]] *)
Definition page_obj (r : Response) : option (Page Post) :=
  match r with
  | Render _ (CtxIndex pg _) | Render _ (CtxGroup _ pg _) | Render _ (CtxFollow pg _ _)
  | Render _ (CtxProfile _ pg _ _ _ _ _) => Some pg
  | _ => None
  end.

Definition first_object (r : Response) : option Post := page_obj r ≫= λ pg, head (object_list pg).

Definition template (r : Response) : option Template :=
  match r with Render t _ => Some t | _ => None end.

(** [self.client.get(url)] and [self.client.post(url, data)]: one request
    to the app, the database unchanged when the path is not the app's. *)
Definition get (db : DB) (session : option nat) (u : Url) : DB * Response :=
  default (db, NotFound) (handle db (get_req session u)).
Definition post (db : DB) (session : option nat) (u : Url) (d : FormData) : DB * Response :=
  default (db, NotFound) (handle db (post_req session u d)).

(** The same by path, as [test_urls.py] requests: a path no pattern of
    the app matches is Django's 404 (the project's other prefixes,
    [admin/], [auth/] and [about/], do not match the paths the tests use
    either). *)
Definition get_path (db : DB) (session : option nat) (p : string) : DB * Response :=
  default (db, NotFound) (serve db session p).

(** [response.url] of a redirect. *)
Definition location (r : Response) : option string :=
  match r with Redirect u => Some (reverse u) | _ => None end.

(** [PagesTests.createPost]: a post by "user" in "test-slug". *)
Definition createPost (db : DB) (txt : string) : DB * Post :=
  match create_post db txt 1 (Some 1) "" with inl r => r | inr _ => (db, mkPost 0 "" 0 0 None "") end.

(** ** [PagesTests] (user 1, groups 1 and 2, post 1 in group 1) *)

Definition test_pages_use_correct_template : bool :=
  bool_decide (template (get pages_db (Some 1) UIndex).2 = Some TIndex ∧
               template (get pages_db (Some 1) (UGroup "test-slug")).2 = Some TGroupList ∧
               template (get pages_db (Some 1) UPostCreate).2 = Some TPostCreate).

Definition pages_post : Post := mkPost 1 "Текст" 1 1 (Some 1) "posts/small.gif".

Definition test_index_page_show_correct_context : bool :=
  bool_decide (first_object (get pages_db (Some 1) UIndex).2 = Some pages_post).

Definition test_group_page_show_correct_context : bool :=
  bool_decide (first_object (get pages_db (Some 1) (UGroup "test-slug")).2 = Some pages_post).

Definition test_index_shows_new_post : bool :=
  let '(db, p) := createPost pages_db "index" in
  bool_decide (first_object (get db (Some 1) UIndex).2 = Some p).

Definition test_group_1_shows_new_post : bool :=
  let '(db, p) := createPost pages_db "group" in
  bool_decide (first_object (get db (Some 1) (UGroup "test-slug")).2 = Some p).

Definition test_profile_new_post : bool :=
  let '(db, p) := createPost pages_db "profile" in
  bool_decide (first_object (get db (Some 1) (UProfile "user")).2 = Some p).

Definition test_group_2_shows_not_post : bool :=
  let '(db, _) := createPost pages_db "non_group_2" in
  bool_decide ((λ pg : Page Post, Datatypes.length (object_list pg)) <$> page_obj (get db (Some 1) (UGroup "test-slug-two")).2
               = Some 0).

(** [response.context["form"].fields[name]] of the create page: the
    fields of an unbound [PostForm]. *)
Definition form_field (name : string) : option FormField :=
  snd <$> head (filter (λ e, e.1 = name) post_form_fields).

Definition test_new_post_page_show_correct_context : bool :=
  bool_decide ((get pages_db (Some 1) UPostCreate).2 = Render TPostCreate (CtxCreate Unbound)) &&
  forallb (λ '(n, t), match form_field n with Some c => is_instance c t | None => false end)
    [("text", FCharField); ("group", FChoiceField)].

Definition test_edit_post_page_show_correct_context : bool :=
  match (get pages_db (Some 1) (UPostEdit 1)).2 with
  | Render _ (CtxEdit p _ _) => bool_decide (p = pages_post)
  | _ => false
  end.

Definition test_profile_page_show_correct_context : bool :=
  match (get pages_db (Some 1) (UProfile "user")).2 with
  | Render _ (CtxProfile _ pg _ a _ _ _) =>
      bool_decide (a = mkUser 1 "user" ∧ head (object_list pg) = Some pages_post)
  | _ => false
  end.

(** The index before and after a new post: the test expects the same
    content until [cache.clear()]. *)
Definition test_cache_index_page : bool :=
  let before := (get pages_db (Some 1) UIndex).2 in
  let db := after (create_post pages_db "Пост для проверки кеша" 1 None "") in
  bool_decide ((get db (Some 1) UIndex).2 = before).

(** ** [PaginatorTest] (eleven posts, ten per page) *)

Definition page_len (r : Response) : option nat :=
  (λ pg : Page Post, Datatypes.length (object_list pg)) <$> page_obj r.

Definition test_first_page_containse_ten_records : bool :=
  bool_decide (page_len (get paginator_db None UIndex).2 = Some 10).

Definition test_second_page_containse_three_records : bool :=
  bool_decide (page_len (default (paginator_db, NotFound)
                 (handle paginator_db (mkRequest None UIndex (Some "2") None))).2 = Some 1).

(** ** [FollowViewsTest] ("user" 1, "follower" 2, "author" 3) *)

Definition test_follow : bool :=
  let db := (get follow_db (Some 2) (UProfileFollow "author")).1 in
  bool_decide (follow_edge_count db 2 3 = 1).

Definition test_unfollow : bool :=
  let db := after (create_follow follow_db 2 3) in
  let db := (get db (Some 2) (UProfileUnfollow "author")).1 in
  bool_decide (follow_edge_count db 2 3 = 0).

Definition test_post_in_follower_index : bool :=
  let db := after (create_follow follow_db 2 3) in
  bool_decide (text <$> first_object (get db (Some 2) UFollowIndex).2 = Some "Пост для подписки").

Definition test_post_not_in_user_index : bool :=
  match page_obj (get follow_db (Some 1) UFollowIndex).2 with
  | Some pg => bool_decide (mkPost 1 "Пост для подписки" 1 3 None "" ∉ object_list pg)
  | None => false
  end.

(** ** [PostFormTests] and [CommentFormTests] *)

Definition small_gif : Upload := mkUpload "small.gif" true.

Definition test_new_post_created_from_form_data : bool :=
  let d := mkFormData (Some "Текст из формы") (Some "1") (Some small_gif) in
  let '(db, r) := post post_form_db (Some 1) UPostCreate d in
  bool_decide (r = Redirect (UProfile "user") ∧
               Datatypes.length (posts db) = S (Datatypes.length (posts post_form_db)) ∧
               qs_exists (λ p, text p = "Текст из формы" ∧ group p = Some 1 ∧ author p = 1 ∧
                               image p = "posts/small.gif") (posts db) = true).

Definition test_edit_post : bool :=
  let '(db, p) := match create_post post_form_db "Текст" 1 None "" with
                  | inl r => r | inr _ => (post_form_db, mkPost 0 "" 0 0 None "") end in
  let db := (post db (Some 1) (UPostEdit (post_id p)) (mkFormData (Some "Текст изменился") None None)).1 in
  match get_post db (post_id p) with
  | inl q => bool_decide (text q = "Текст изменился")
  | inr _ => false
  end.

Definition test_add_comment : bool :=
  let d := mkFormData (Some "Тестовый комментарий") None None in
  let '(db, r) := post comment_db (Some 1) (UAddComment 1) d in
  bool_decide (r = Redirect (UPostDetail 1) ∧
               Datatypes.length (comments db) = S (Datatypes.length (comments comment_db)) ∧
               qs_exists (λ c, comment_text c = "Тестовый комментарий" ∧ comment_post c = 1)
                 (comments db) = true).

Definition test_comment_guest_client : bool :=
  let d := mkFormData (Some "Тестовый комментарий") None None in
  let '(db, r) := post comment_db None (UAddComment 1) d in
  bool_decide (Datatypes.length (comments db) = Datatypes.length (comments comment_db) ∧
               r = Redirect (ULogin (UAddComment 1))).

(** ** [PostsUrlsTests] ("user_author" 1, "user_non_author" 2, post 1) *)

Definition test_urls_exists_at_desired_location : bool :=
  forallb (λ p, bool_decide (status (get_path urls_db None p).2 = 200))
    ["/"; "/group/slug-test/"; "/profile/user_author/"; "/posts/1/"].

Definition test_new_url_exists_at_desired_location_authorized : bool :=
  forallb (λ p, bool_decide (status (get_path urls_db (Some 1) p).2 = 200)) ["/create/"; "/posts/1/edit/"].

Definition test_edit_post_not_available_authorized_non_author : bool :=
  bool_decide (location (get_path urls_db (Some 2) "/posts/1/edit/").2 = Some "/posts/1/").

Definition test_urls_uses_correct_template : bool :=
  forallb (λ '(p, t), bool_decide (template (get_path urls_db (Some 1) p).2 = Some t))
    [("/", TIndex); ("/group/slug-test/", TGroupList); ("/profile/user_author/", TProfile);
     ("/posts/1/", TPostDetail); ("/create/", TPostCreate); ("/posts/1/edit/", TPostCreate)].

Definition test_redirects_urls_non_authorized : bool :=
  forallb (λ '(p, l), bool_decide (location (get_path urls_db None p).2 = Some l))
    [("/posts/1/edit/", "/auth/login/?next=/posts/1/edit/"); ("/create/", "/auth/login/?next=/create/")].

Definition test_404 : bool := bool_decide (status (get_path urls_db None "/miss/").2 = 404).

(** ** [PostModelTest] (one user, group and post) *)

Definition fields_match (fields : list Field) (attr : Field → string) (expected : list (string * string)) : bool :=
  forallb (λ '(name, v), bool_decide (attr <$> get_field fields name = Some v)) expected.

Definition test_group_verbose_name : bool :=
  fields_match group_fields verbose_name
    [("title", "Заголовок"); ("slug", "Id"); ("description", "Описание")].

Definition test_post_verbose_name : bool :=
  fields_match post_fields verbose_name
    [("text", "Текст"); ("pub_date", "Дата публикации"); ("author", "Автор"); ("group", "Группа")].

Definition test_group_help_text : bool :=
  fields_match group_fields help_text
    [("title", "Как корабль назовешь..."); ("slug", "Id, но воспринимаемый человеком!");
     ("description", "Кратко и поделу!")].

Definition test_post_help_text : bool :=
  fields_match post_fields help_text
    [("text", "Ты можешь поведать свою историю..."); ("group", "Выбери группу")].

Definition test_group_str : bool :=
  match groups models_db with g :: _ => bool_decide (group_str g = title g) | [] => false end.

Definition test_post_str : bool :=
  match posts models_db with p :: _ => bool_decide (post_str p = str_slice (text p) 15) | [] => false end.

(** ** The suite on the model *)

Definition raised {A} (r : A + OrmError) : bool := match r with inl _ => false | inr _ => true end.

(** No [objects.create] of a fixture raises: the databases above are the
    ones the tests run on, not [empty_db]. *)
Lemma fixtures_succeed :
  forallb (λ r, negb (raised r))
    [pages_fixture; paginator_fixture; follow_fixture; post_form_fixture; urls_fixture;
     comment_fixture; models_fixture] = true.
Proof. vm_compute. reflexivity. Qed.

Definition passing_tests : list bool :=
  [test_pages_use_correct_template; test_index_page_show_correct_context;
   test_group_page_show_correct_context; test_new_post_page_show_correct_context;
   test_index_shows_new_post; test_group_1_shows_new_post;
   test_profile_new_post; test_group_2_shows_not_post; test_edit_post_page_show_correct_context;
   test_profile_page_show_correct_context; test_first_page_containse_ten_records;
   test_second_page_containse_three_records; test_follow; test_unfollow;
   test_post_in_follower_index; test_post_not_in_user_index;
   test_new_post_created_from_form_data; test_edit_post; test_add_comment;
   test_comment_guest_client; test_urls_exists_at_desired_location;
   test_new_url_exists_at_desired_location_authorized;
   test_edit_post_not_available_authorized_non_author; test_urls_uses_correct_template;
   test_redirects_urls_non_authorized; test_404; test_group_verbose_name; test_post_verbose_name;
   test_group_help_text; test_post_help_text; test_group_str; test_post_str].

(** Every replayed test passes on the model ... *)
Lemma suite_passes : forallb id passing_tests = true.
Proof. vm_compute. reflexivity. Qed.

(** ... but the cache test: a post created after the first request shows
    at once on the index, because [index] is not wrapped in [cache_page]. *)
Lemma cache_test_fails : test_cache_index_page = false.
Proof. vm_compute. reflexivity. Qed.

(** ** The [on_delete] rules on a fixture

    [FollowViewsTest]'s database where "follower" follows "author" and
    "user" commented the author's post; then "author" is deleted, or a
    group of [PagesTests] is. *)
Definition cascade_db : DB :=
  after (create_comment (after (create_follow follow_db 2 3)) 1 1 "Комментарий").

Lemma delete_user_cascade_witness :
  wf cascade_db ∧
  (let db' := delete_user cascade_db 3 in
   wf db' ∧ ¬ user_exists db' 3 ∧
   (∀ p, p ∈ posts db' ↔ p ∈ posts cascade_db ∧ author p ≠ 3) ∧
   (∀ c, c ∈ comments db' ↔ c ∈ comments cascade_db ∧ comment_author c ≠ 3 ∧
           ¬ ∃ p, p ∈ posts cascade_db ∧ author p = 3 ∧ post_id p = comment_post c) ∧
   (∀ f, f ∈ follows db' ↔ f ∈ follows cascade_db ∧ follow_user f ≠ 3 ∧ follow_author f ≠ 3)).
Proof.
  assert (Hw : wf cascade_db) by by_eval.
  exact (conj Hw (delete_user_cascade cascade_db 3 Hw)).
Defined.

Lemma delete_group_set_null_witness :
  wf pages_db ∧
  (let db' := delete_group pages_db 1 in
   wf db' ∧ post_id <$> posts db' = post_id <$> posts pages_db ∧
   Forall (λ p, group p ≠ Some 1) (posts db') ∧
   (∀ p, p ∈ posts pages_db → group p ≠ Some 1 → p ∈ posts db')).
Proof.
  assert (Hw : wf pages_db) by by_eval.
  exact (conj Hw (delete_group_set_null pages_db 1 Hw)).
Defined.

(** The cascade on the fixture: the author's post, the comment on it and
    the follow row are gone, the two other accounts stay. *)
Lemma cascade_db_delete_author :
  let db' := delete_user cascade_db 3 in
  posts db' = [] ∧ comments db' = [] ∧ follows db' = [] ∧
  username <$> users db' = ["user"; "follower"].
Proof. vm_compute. split_and!; reflexivity. Qed.


End Scenarios.
